(** * FlyOrDie: anti-jam detector, mode switch and FHSS hop synchronisation

    A shallow embedding of [rc_channels.cpp] (the [aj_switch] module),
    [anti_jamming.cpp] (the sliding-window detector) and [FHSS.h] (the
    frequency map and the dual-radio "Glock" API), followed by the
    properties the specification states about them.

    Conventions.  Unsigned C integers are represented by [Z] (or [N] where
    no arithmetic is done) and every wrap-around or narrowing cast of the
    source is written out with [u8], [u16] and [u32].  A pointer that the
    source tests against [NULL] is an [option].  A callback invocation is
    recorded as an event appended to the list an operation returns. *)

From Stdlib Require Import ZArith NArith Lia List Bool.
From stdpp Require Import base list.
Import ListNotations.

Local Open Scope Z_scope.

(* ===================================================================== *)
(** * Part I: the embedding                                               *)
(* ===================================================================== *)

(** ** Fixed-width arithmetic *)

Definition u8 (x : Z) : Z := x mod 256.
Definition u16 (x : Z) : Z := x mod 65536.
Definition u32 (x : Z) : Z := x mod 4294967296.

Definition in_u8 (x : Z) : Prop := 0 <= x < 256.
Definition in_u16 (x : Z) : Prop := 0 <= x < 65536.
Definition in_u32 (x : Z) : Prop := 0 <= x < 4294967296.

(* --------------------------------------------------------------------- *)
(** ** The mode switch ([aj_switch.h], [rc_channels.cpp])                 *)
(* --------------------------------------------------------------------- *)

Module Switch.

(** [aj_switch_mode_t].  The enumerators are 0, 1 and 2; an object of the
    enumeration type is stored as its unsigned code, so that a value
    outside the enumerators (which the setters test for) is expressible. *)
Inductive aj_switch_mode_t : Type :=
  | AJ_SWITCH_MODE_AUTO
  | AJ_SWITCH_MODE_LOW
  | AJ_SWITCH_MODE_HIGH.

Definition mode_code (m : aj_switch_mode_t) : N :=
  match m with
  | AJ_SWITCH_MODE_AUTO => 0
  | AJ_SWITCH_MODE_LOW => 1
  | AJ_SWITCH_MODE_HIGH => 2
  end%N.

(** [aj_switch_result_t] *)
Inductive aj_switch_result_t : Type :=
  | AJ_SW_RET_OK
  | AJ_SW_RET_DENIED
  | AJ_SW_RET_NOCHANGE
  | AJ_SW_RET_INVALID.

(** Identity of a registered [aj_switch_notify_cb_t] function. *)
Definition aj_switch_notify_cb_t : Type := positive.

(** [struct aj_switch_ctx_s] *)
Record aj_switch_ctx_t : Type := mk_switch_ctx {
  enabled : N;                           (* uint8_t *)
  mode : N;                              (* aj_switch_mode_t, as its code *)
  controller_only : N;                   (* uint8_t *)
  last_change_ms : N;                    (* aj_timestamp_ms_t *)
  cb : option aj_switch_notify_cb_t;     (* NULL = None *)
  cb_ctx : N                             (* void*, opaque *)
}.

(** One invocation of the notify callback: the callee and the arguments
    [(enabled, new_mode, when_ms, user_ctx)] it receives. *)
Record notify_call : Type := mk_notify_call {
  nc_callee : aj_switch_notify_cb_t;
  nc_enabled : N;
  nc_mode : N;
  nc_when_ms : N;
  nc_user_ctx : N
}.

(** The outcome of a setter: return code, context afterwards and the
    callback invocations made, oldest first. *)
Definition outcome : Type :=
  (aj_switch_result_t * option aj_switch_ctx_t * list notify_call)%type.

Definition set_enabled (v : N) (c : aj_switch_ctx_t) : aj_switch_ctx_t :=
  mk_switch_ctx v (mode c) (controller_only c) (last_change_ms c) (cb c) (cb_ctx c).
Definition set_mode (v : N) (c : aj_switch_ctx_t) : aj_switch_ctx_t :=
  mk_switch_ctx (enabled c) v (controller_only c) (last_change_ms c) (cb c) (cb_ctx c).
Definition set_controller_only (v : N) (c : aj_switch_ctx_t) : aj_switch_ctx_t :=
  mk_switch_ctx (enabled c) (mode c) v (last_change_ms c) (cb c) (cb_ctx c).
Definition set_last_change_ms (v : N) (c : aj_switch_ctx_t) : aj_switch_ctx_t :=
  mk_switch_ctx (enabled c) (mode c) (controller_only c) v (cb c) (cb_ctx c).
Definition set_cb (f : option aj_switch_notify_cb_t) (u : N) (c : aj_switch_ctx_t)
  : aj_switch_ctx_t :=
  mk_switch_ctx (enabled c) (mode c) (controller_only c) (last_change_ms c) f u.

(** [x ? 1 : 0] *)
Definition to_flag (x : N) : N := if (x =? 0)%N then 0%N else 1%N.

(** The integral promotion of a value of [aj_switch_mode_t].  The source is
    C++ and the enumeration has no fixed underlying type: its enumerators
    fit [int], so an operand of the enumeration is promoted to [int], and
    the 32 bits of its code are read as a signed number. *)
Definition int_of_mode (m : N) : Z :=
  if (m mod 4294967296 <? 2147483648)%N
  then Z.of_N (m mod 4294967296)
  else (Z.of_N (m mod 4294967296) - 4294967296)%Z.

(** [mode > AJ_SWITCH_MODE_HIGH], a comparison of two promoted operands: a
    code whose bit 31 is set is negative and is not above HIGH. *)
Definition mode_above_high (m : N) : bool :=
  (int_of_mode (mode_code AJ_SWITCH_MODE_HIGH) <? int_of_mode m)%Z.

(** [notify_if_changed]: despite its name it tests nothing but the
    presence of a callback; the callers decide whether anything changed. *)
Definition notify_if_changed (ctx : option aj_switch_ctx_t) : list notify_call :=
  match ctx with
  | Some c =>
      match cb c with
      | Some f => [mk_notify_call f (enabled c) (mode c) (last_change_ms c) (cb_ctx c)]
      | None => []
      end
  | None => []
  end.

(** [aj_switch_init] on a buffer that is large enough. *)
Definition aj_switch_init : aj_switch_ctx_t :=
  mk_switch_ctx 0 (mode_code AJ_SWITCH_MODE_AUTO) 0 0 None 0.

Definition aj_switch_reset (ctx : option aj_switch_ctx_t) : option aj_switch_ctx_t :=
  match ctx with
  | None => None
  | Some c =>
      Some (set_last_change_ms 0
             (set_controller_only 0
               (set_mode (mode_code AJ_SWITCH_MODE_AUTO) (set_enabled 0 c))))
  end.

Definition aj_switch_set_enabled (ctx : option aj_switch_ctx_t) (enable when_ms : N)
  : outcome :=
  match ctx with
  | None => (AJ_SW_RET_INVALID, ctx, [])
  | Some c =>
      if (enabled c =? to_flag enable)%N then (AJ_SW_RET_NOCHANGE, ctx, [])
      else
        let c' := set_last_change_ms when_ms (set_enabled (to_flag enable) c) in
        (AJ_SW_RET_OK, Some c', notify_if_changed (Some c'))
  end.

Definition aj_switch_is_enabled (ctx : option aj_switch_ctx_t) : N :=
  match ctx with Some c => enabled c | None => 0%N end.

Definition aj_switch_set_mode_local (ctx : option aj_switch_ctx_t) (m when_ms : N)
  : outcome :=
  match ctx with
  | None => (AJ_SW_RET_INVALID, ctx, [])
  | Some c =>
      if mode_above_high m then (AJ_SW_RET_INVALID, ctx, [])
      else if negb (controller_only c =? 0)%N then (AJ_SW_RET_DENIED, ctx, [])
      else if (mode c =? m)%N then (AJ_SW_RET_NOCHANGE, ctx, [])
      else
        let c' := set_last_change_ms when_ms (set_mode m c) in
        (AJ_SW_RET_OK, Some c', notify_if_changed (Some c'))
  end.

Definition aj_switch_set_mode_from_controller (ctx : option aj_switch_ctx_t)
    (m when_ms : N) : outcome :=
  match ctx with
  | None => (AJ_SW_RET_INVALID, ctx, [])
  | Some c =>
      if mode_above_high m then (AJ_SW_RET_INVALID, ctx, [])
      else if (mode c =? m)%N then (AJ_SW_RET_NOCHANGE, ctx, [])
      else
        let c' := set_last_change_ms when_ms (set_mode m c) in
        (AJ_SW_RET_OK, Some c', notify_if_changed (Some c'))
  end.

Definition aj_switch_get_mode (ctx : option aj_switch_ctx_t) : N :=
  match ctx with Some c => mode c | None => mode_code AJ_SWITCH_MODE_AUTO end.

Definition aj_switch_set_controller_only (ctx : option aj_switch_ctx_t) (v : N)
  : option aj_switch_ctx_t :=
  match ctx with
  | None => None
  | Some c => Some (set_controller_only (to_flag v) c)
  end.

Definition aj_switch_is_controller_only (ctx : option aj_switch_ctx_t) : N :=
  match ctx with Some c => controller_only c | None => 0%N end.

Definition aj_switch_request_enable_from_controller (ctx : option aj_switch_ctx_t)
    (enable when_ms : N) : outcome :=
  match ctx with
  | None => (AJ_SW_RET_INVALID, ctx, [])
  | Some c =>
      if (enabled c =? to_flag enable)%N then (AJ_SW_RET_NOCHANGE, ctx, [])
      else
        let c' := set_last_change_ms when_ms (set_enabled (to_flag enable) c) in
        (AJ_SW_RET_OK, Some c', notify_if_changed (Some c'))
  end.

Definition aj_switch_register_notify_cb (ctx : option aj_switch_ctx_t)
    (f : option aj_switch_notify_cb_t) (user_ctx : N) : option aj_switch_ctx_t :=
  match ctx with
  | None => None
  | Some c => Some (set_cb f user_ctx c)
  end.

(** The four set-operations, as one type, so that a property can be stated
    of any of them. *)
Inductive set_op : Type :=
  | SetEnabled (enable : N)
  | SetModeLocal (m : N)
  | SetModeFromController (m : N)
  | RequestEnableFromController (enable : N).

Definition run_set_op (op : set_op) (ctx : option aj_switch_ctx_t) (when_ms : N)
  : outcome :=
  match op with
  | SetEnabled e => aj_switch_set_enabled ctx e when_ms
  | SetModeLocal m => aj_switch_set_mode_local ctx m when_ms
  | SetModeFromController m => aj_switch_set_mode_from_controller ctx m when_ms
  | RequestEnableFromController e =>
      aj_switch_request_enable_from_controller ctx e when_ms
  end.

Definition ret_of (o : outcome) : aj_switch_result_t := fst (fst o).
Definition ctx_of (o : outcome) : option aj_switch_ctx_t := snd (fst o).
Definition calls_of (o : outcome) : list notify_call := snd o.

(** The operation changed [enabled] or [mode]. *)
Definition changed (c : aj_switch_ctx_t) (o : outcome) : Prop :=
  match ctx_of o with
  | Some c' => enabled c' <> enabled c \/ mode c' <> mode c
  | None => False
  end.

(** The argument of the operation is the value the context already holds. *)
Definition arg_is_current (op : set_op) (c : aj_switch_ctx_t) : Prop :=
  match op with
  | SetEnabled e | RequestEnableFromController e => e = enabled c
  | SetModeLocal m | SetModeFromController m => m = mode c
  end.

(** The fields the API can establish: flags are 0 or 1 and the mode is one
    of the enumerators. *)
Definition wf_switch (c : aj_switch_ctx_t) : Prop :=
  (enabled c <= 1)%N /\ (mode c <= 2)%N /\ (controller_only c <= 1)%N.

(** *** The rest of the module *)

(** [aj_switch_status_t] *)
Record aj_switch_status_t : Type := mk_switch_status {
  st_enabled : N;
  st_mode : N;
  st_controller_only : N;
  st_last_change_ms : N
}.

(** [aj_switch_get_status]: the snapshot written to [out_status], or
    nothing for a [NULL] context. *)
Definition aj_switch_get_status (ctx : option aj_switch_ctx_t)
  : option aj_switch_status_t :=
  match ctx with
  | None => None
  | Some c =>
      Some (mk_switch_status (enabled c) (mode c) (controller_only c) (last_change_ms c))
  end.

(** Any call of the API on a context. *)
Inductive switch_call : Type :=
  | CallSet (op : set_op) (when_ms : N)
  | CallSetControllerOnly (v : N)
  | CallReset
  | CallRegisterNotifyCb (f : option aj_switch_notify_cb_t) (user_ctx : N).

Definition switch_do_call (ctx : option aj_switch_ctx_t) (k : switch_call)
  : option aj_switch_ctx_t * list notify_call :=
  match k with
  | CallSet op t => (ctx_of (run_set_op op ctx t), calls_of (run_set_op op ctx t))
  | CallSetControllerOnly v => (aj_switch_set_controller_only ctx v, [])
  | CallReset => (aj_switch_reset ctx, [])
  | CallRegisterNotifyCb f u => (aj_switch_register_notify_cb ctx f u, [])
  end.

(** The context after a sequence of calls and the callback invocations
    made on the way, oldest first. *)
Fixpoint switch_do_calls (ctx : option aj_switch_ctx_t) (ks : list switch_call)
  : option aj_switch_ctx_t * list notify_call :=
  match ks with
  | [] => (ctx, [])
  | k :: rest =>
      let '(c1, l1) := switch_do_call ctx k in
      let '(c2, l2) := switch_do_calls c1 rest in
      (c2, l1 ++ l2)
  end.

(** The mode a call passes, if it passes one, is not negative as an
    [int]: its code is below [2^31].  Every enumerator is. *)
Definition mode_arg_nonneg (k : switch_call) : Prop :=
  match k with
  | CallSet (SetModeLocal m) _ | CallSet (SetModeFromController m) _ =>
      (m < 2147483648)%N
  | _ => True
  end.

(** [rc_read_us]: channel [ch] (1-based) of the CRSF channel table,
    converted to microseconds.  The arithmetic is in [int32_t], whose
    division truncates towards zero. *)
Definition rc_read_us (ChannelData : list Z) (ch : Z) : Z :=
  if (ch <? 1) || (16 <? ch) then 1500
  else
    let crsf_val := default 0 (ChannelData !! Z.to_nat (ch - 1)) in
    let us := Z.quot ((crsf_val - 172) * 1000) 1639 + 1000 in
    let us := if us <? 1000 then 1000 else us in
    let us := if 2000 <? us then 2000 else us in
    u16 us.


End Switch.

(* --------------------------------------------------------------------- *)
(** ** Frequency map and Glock ([FHSS.h])                                 *)
(* --------------------------------------------------------------------- *)

Module Fhss.

(** The radio class the header is compiled for; it selects
    [FREQ_SPREAD_SCALE] and whether [FreqCorrection] is applied. *)
Inductive radio_class : Type :=
  | RADIO_SX127X
  | RADIO_LR1121
  | RADIO_SX128X.

Definition FREQ_SPREAD_SCALE (r : radio_class) : Z :=
  match r with
  | RADIO_LR1121 => 1
  | _ => 256
  end.

Definition FHSS_SEQUENCE_LEN : Z := 256.

Definition FHSS_RADIO_1 : Z := 0.
Definition FHSS_RADIO_2 : Z := 1.

(** [fhss_config_t] without its [domain] name. *)
Record fhss_config_t : Type := mk_fhss_config {
  freq_start : Z;      (* uint32_t *)
  freq_stop : Z;       (* uint32_t *)
  freq_count : Z;      (* uint32_t *)
  freq_center : Z      (* uint32_t *)
}.

(** The globals of [FHSS.h] that the modelled functions read or write. *)
Record fhss_globals : Type := mk_fhss_globals {
  FHSSptr : Z;                         (* volatile uint8_t *)
  FHSSptrSynced : Z;                   (* volatile uint8_t *)
  FreqCorrection : Z;                  (* int32_t *)
  FreqCorrection_2 : Z;                (* int32_t *)
  primaryBandCount : Z;                (* uint16_t *)
  freq_spread : Z;                     (* uint32_t *)
  FHSSsequence : list Z;               (* uint8_t [] *)
  FHSSconfig : fhss_config_t;
  FHSSusePrimaryFreqBand : bool;
  FHSSuseDualBand : bool;
  secondaryBandCount : Z;              (* uint16_t *)
  freq_spread_DualBand : Z;            (* uint32_t *)
  FHSSsequence_DualBand : list Z;      (* uint8_t [] *)
  FHSSconfigDualBand : fhss_config_t;
  FHSSHopCycleArmed : Z;               (* volatile uint8_t *)
  FHSSSyncEpoch : Z                    (* volatile uint32_t *)
}.

Definition set_FHSSptr (v : Z) (g : fhss_globals) : fhss_globals :=
  mk_fhss_globals v (FHSSptrSynced g) (FreqCorrection g) (FreqCorrection_2 g)
    (primaryBandCount g) (freq_spread g) (FHSSsequence g) (FHSSconfig g)
    (FHSSusePrimaryFreqBand g) (FHSSuseDualBand g) (secondaryBandCount g)
    (freq_spread_DualBand g) (FHSSsequence_DualBand g) (FHSSconfigDualBand g)
    (FHSSHopCycleArmed g) (FHSSSyncEpoch g).

Definition set_FHSSptrSynced (v : Z) (g : fhss_globals) : fhss_globals :=
  mk_fhss_globals (FHSSptr g) v (FreqCorrection g) (FreqCorrection_2 g)
    (primaryBandCount g) (freq_spread g) (FHSSsequence g) (FHSSconfig g)
    (FHSSusePrimaryFreqBand g) (FHSSuseDualBand g) (secondaryBandCount g)
    (freq_spread_DualBand g) (FHSSsequence_DualBand g) (FHSSconfigDualBand g)
    (FHSSHopCycleArmed g) (FHSSSyncEpoch g).

Definition set_FHSSHopCycleArmed (v : Z) (g : fhss_globals) : fhss_globals :=
  mk_fhss_globals (FHSSptr g) (FHSSptrSynced g) (FreqCorrection g) (FreqCorrection_2 g)
    (primaryBandCount g) (freq_spread g) (FHSSsequence g) (FHSSconfig g)
    (FHSSusePrimaryFreqBand g) (FHSSuseDualBand g) (secondaryBandCount g)
    (freq_spread_DualBand g) (FHSSsequence_DualBand g) (FHSSconfigDualBand g)
    v (FHSSSyncEpoch g).

Definition set_FHSSSyncEpoch (v : Z) (g : fhss_globals) : fhss_globals :=
  mk_fhss_globals (FHSSptr g) (FHSSptrSynced g) (FreqCorrection g) (FreqCorrection_2 g)
    (primaryBandCount g) (freq_spread g) (FHSSsequence g) (FHSSconfig g)
    (FHSSusePrimaryFreqBand g) (FHSSuseDualBand g) (secondaryBandCount g)
    (freq_spread_DualBand g) (FHSSsequence_DualBand g) (FHSSconfigDualBand g)
    (FHSSHopCycleArmed g) v.

(** [sequence[i]]; the tables have [FHSS_SEQUENCE_LEN] entries and the
    index is a [uint8_t], so the default is never read on a full table. *)
Definition seq_at (s : list Z) (i : Z) : Z := default 0 (s !! Z.to_nat i).

(** [FHSSgetSequenceCount] *)
Definition FHSSgetSequenceCount (g : fhss_globals) : Z :=
  if FHSSuseDualBand g then
    if primaryBandCount g <? secondaryBandCount g
    then primaryBandCount g else secondaryBandCount g
  else if FHSSusePrimaryFreqBand g then primaryBandCount g
  else secondaryBandCount g.

(** [FHSSgetChannelCount] *)
Definition FHSSgetChannelCount (g : fhss_globals) : Z :=
  if FHSSusePrimaryFreqBand g then freq_count (FHSSconfig g)
  else freq_count (FHSSconfigDualBand g).

(** The primary-band expression of [FHSSgetNextFreq] at sequence index
    [i], with the correction [corr] that is subtracted on SX127X only:
    [freq_start + (freq_spread * FHSSsequence[i] / FREQ_SPREAD_SCALE) - corr],
    all in [uint32_t]. *)
Definition primary_freq (r : radio_class) (g : fhss_globals) (corr : Z) (i : Z) : Z :=
  let hop :=
    u32 (freq_start (FHSSconfig g)
         + u32 (freq_spread g * seq_at (FHSSsequence g) i) / FREQ_SPREAD_SCALE r) in
  match r with
  | RADIO_SX127X => u32 (hop - corr)
  | _ => hop
  end.

(** The secondary-band expression of [FHSSgetNextFreq]. *)
Definition secondary_freq (r : radio_class) (g : fhss_globals) (i : Z) : Z :=
  u32 (freq_start (FHSSconfigDualBand g)
       + u32 (freq_spread_DualBand g * seq_at (FHSSsequence_DualBand g) i)
         / FREQ_SPREAD_SCALE r).

(** The frequency map of [FHSSgetNextFreq]: the frequency of sequence index
    [i] on the band in use. *)
Definition freq_at (r : radio_class) (g : fhss_globals) (i : Z) : Z :=
  if FHSSusePrimaryFreqBand g
  then primary_freq r g (FreqCorrection g) i
  else secondary_freq r g i.

(** [FHSSgetNextFreq]: advance [FHSSptr], then map it to a frequency. *)
Definition FHSSgetNextFreq (r : radio_class) (g : fhss_globals) : fhss_globals * Z :=
  let g' := set_FHSSptr (u8 ((FHSSptr g + 1) mod FHSSgetSequenceCount g)) g in
  (g', freq_at r g' (FHSSptr g')).

(** [FHSSsetCurrIndex] *)
Definition FHSSsetCurrIndex (value : Z) (g : fhss_globals) : fhss_globals :=
  let g' := set_FHSSptr (u8 (value mod FHSSgetSequenceCount g)) g in
  set_FHSSptrSynced (FHSSptr g') g'.

(** [FHSSGetSyncedIndex] *)
Definition FHSSGetSyncedIndex (g : fhss_globals) : Z := FHSSptrSynced g.

(** The band the frequency map is evaluated on. *)
Definition active_band (g : fhss_globals) : fhss_config_t :=
  if FHSSusePrimaryFreqBand g then FHSSconfig g else FHSSconfigDualBand g.

Definition active_spread (g : fhss_globals) : Z :=
  if FHSSusePrimaryFreqBand g then freq_spread g else freq_spread_DualBand g.

Definition active_sequence (g : fhss_globals) : list Z :=
  if FHSSusePrimaryFreqBand g then FHSSsequence g else FHSSsequence_DualBand g.

(** Modelled from the spec: the assignment of [freq_spread] is in the
    implementation file of the FHSS module, which is not part of the
    sources; section 4.B gives it as
    [(freq_stop - freq_start) / (freq_count - 1)], scaled by
    [FREQ_SPREAD_SCALE], here in [uint32_t] arithmetic as the variable it
    is stored in. *)
Definition band_freq_spread (r : radio_class) (b : fhss_config_t) : Z :=
  u32 (u32 (u32 (freq_stop b - freq_start b) * FREQ_SPREAD_SCALE r)
       / u32 (freq_count b - 1)).

(** A band descriptor whose interval is not empty and that has at least two
    channels, so that the spread is defined. *)
Definition band_ok (b : fhss_config_t) : Prop :=
  in_u32 (freq_start b) /\ in_u32 (freq_stop b) /\ in_u32 (freq_count b) /\
  freq_start b <= freq_stop b /\ 2 <= freq_count b.

(** Modelled from the spec: [FHSSBeginHopCycle] is declared in [FHSS.h] and
    defined in the implementation file that is not part of the sources.
    Section 4.C: it arms the barrier and increments the epoch. *)
Definition FHSSBeginHopCycle (g : fhss_globals) : fhss_globals :=
  set_FHSSSyncEpoch (u32 (FHSSSyncEpoch g + 1)) (set_FHSSHopCycleArmed 1 g).

(** Modelled from the spec: the frequency a radio is given for the synced
    cursor.  Section 8, scenario 4: the primary band for radio 0, the
    secondary band for radio 1 when dual-band is active, otherwise the same
    band for both, with the second correction for the second radio. *)
Definition synced_freq (r : radio_class) (g : fhss_globals) (radio_id : Z) : Z :=
  let i := FHSSptrSynced g in
  if FHSSuseDualBand g then
    if radio_id =? FHSS_RADIO_1 then primary_freq r g (FreqCorrection g) i
    else secondary_freq r g i
  else if FHSSusePrimaryFreqBand g then
    primary_freq r g
      (if radio_id =? FHSS_RADIO_1 then FreqCorrection g else FreqCorrection_2 g) i
  else secondary_freq r g i.

(** Modelled from the spec: [FHSSHopNextSynced] is declared in [FHSS.h] and
    defined in the implementation file that is not part of the sources.
    Section 4.C and the comment at its declaration: the first call of a
    cycle advances the index modulo the sequence length and locks the
    cycle, later calls of the cycle leave the index alone, and every call
    returns the caller's frequency at the index. *)
Definition FHSSHopNextSynced (r : radio_class) (g : fhss_globals) (radio_id : Z)
  : fhss_globals * Z :=
  let g' :=
    if FHSSHopCycleArmed g =? 0 then g
    else set_FHSSHopCycleArmed 0
           (set_FHSSptrSynced (u8 ((FHSSptrSynced g + 1) mod FHSSgetSequenceCount g)) g) in
  (g', synced_freq r g' radio_id).

(** The globals once the cycle that [FHSSBeginHopCycle] opened on [g] has
    been used: epoch incremented, cursor advanced by one modulo the
    sequence length, barrier disarmed. *)
Definition after_cycle (g : fhss_globals) : fhss_globals :=
  set_FHSSHopCycleArmed 0
    (set_FHSSptrSynced ((FHSSptrSynced g + 1) mod FHSSgetSequenceCount g)
       (FHSSBeginHopCycle g)).

(** A run of [FHSSHopNextSynced] calls, one per radio id of the list, with
    the frequencies returned in call order. *)
Fixpoint hop_calls (r : radio_class) (g : fhss_globals) (ids : list Z)
  : fhss_globals * list Z :=
  match ids with
  | [] => (g, [])
  | id :: rest =>
      let '(g1, f) := FHSSHopNextSynced r g id in
      let '(g2, fs) := hop_calls r g1 rest in
      (g2, f :: fs)
  end.

(** *** The rest of the header *)

(** The two sync-channel globals ([uint_fast8_t]). *)
Record fhss_sync : Type := mk_fhss_sync {
  sync_channel : Z;
  sync_channel_DualBand : Z
}.

(** [FHSSgetMinimumFreq] and [FHSSgetMaximumFreq] *)
Definition FHSSgetMinimumFreq (g : fhss_globals) : Z := freq_start (FHSSconfig g).
Definition FHSSgetMaximumFreq (g : fhss_globals) : Z := freq_stop (FHSSconfig g).

(** [FHSSgetInitialFreq]: the frequency of the sync channel. *)
Definition FHSSgetInitialFreq (r : radio_class) (g : fhss_globals) (sy : fhss_sync) : Z :=
  if FHSSusePrimaryFreqBand g then
    let f := u32 (freq_start (FHSSconfig g)
                  + u32 (sync_channel sy * freq_spread g) / FREQ_SPREAD_SCALE r) in
    match r with
    | RADIO_SX127X => u32 (f - FreqCorrection g)
    | _ => f
    end
  else
    u32 (freq_start (FHSSconfigDualBand g)
         + u32 (sync_channel_DualBand sy * freq_spread_DualBand g) / FREQ_SPREAD_SCALE r).

(** [FHSSgetCurrIndex] *)
Definition FHSSgetCurrIndex (g : fhss_globals) : Z := FHSSptr g.

(** [FHSSonSyncChannel] *)
Definition FHSSonSyncChannel (g : fhss_globals) (sy : fhss_sync) : Z :=
  if FHSSusePrimaryFreqBand g then
    if seq_at (FHSSsequence g) (FHSSptr g) =? sync_channel sy then 1 else 0
  else
    if seq_at (FHSSsequence_DualBand g) (FHSSptr g) =? sync_channel_DualBand sy
    then 1 else 0.

(** The channel the second radio of a Gemini pair uses while the first is
    on channel [idx]: half the channel count further, as the [uint8_t]
    local [offSetIdx] of [FHSSGeminiFreq]. *)
Definition gemini_offset_index (g : fhss_globals) (idx : Z) : Z :=
  let numfhss := FHSSgetChannelCount g in
  u8 (u32 (idx + numfhss / 2) mod numfhss).

(** [FHSSGeminiFreq] *)
Definition FHSSGeminiFreq (r : radio_class) (g : fhss_globals) (idx : Z) : Z :=
  let offSetIdx := gemini_offset_index g idx in
  if FHSSusePrimaryFreqBand g then
    let f := u32 (freq_start (FHSSconfig g)
                  + u32 (freq_spread g * offSetIdx) / FREQ_SPREAD_SCALE r) in
    match r with
    | RADIO_SX127X => u32 (f - FreqCorrection_2 g)
    | _ => f
    end
  else
    u32 (freq_start (FHSSconfigDualBand g)
         + u32 (freq_spread_DualBand g * offSetIdx) / FREQ_SPREAD_SCALE r).

(** [FHSSgetGeminiFreq] *)
Definition FHSSgetGeminiFreq (r : radio_class) (g : fhss_globals) : Z :=
  if FHSSuseDualBand g then
    u32 (freq_start (FHSSconfigDualBand g)
         + u32 (seq_at (FHSSsequence_DualBand g) (FHSSptr g) * freq_spread_DualBand g)
           / FREQ_SPREAD_SCALE r)
  else if FHSSusePrimaryFreqBand g then
    FHSSGeminiFreq r g (seq_at (FHSSsequence g) (FHSSgetCurrIndex g))
  else
    FHSSGeminiFreq r g (seq_at (FHSSsequence_DualBand g) (FHSSgetCurrIndex g)).

(** [FHSSgetInitialGeminiFreq] *)
Definition FHSSgetInitialGeminiFreq (r : radio_class) (g : fhss_globals)
    (sy : fhss_sync) : Z :=
  if FHSSuseDualBand g then
    u32 (freq_start (FHSSconfigDualBand g)
         + u32 (sync_channel_DualBand sy * freq_spread_DualBand g) / FREQ_SPREAD_SCALE r)
  else if FHSSusePrimaryFreqBand g then FHSSGeminiFreq r g (sync_channel sy)
  else FHSSGeminiFreq r g (sync_channel_DualBand sy).

(** [n] calls of [FHSSgetNextFreq] in a row, with the frequencies returned
    in call order. *)
Fixpoint next_freqs (r : radio_class) (g : fhss_globals) (n : nat)
  : fhss_globals * list Z :=
  match n with
  | O => (g, [])
  | S n' =>
      let '(g1, f) := FHSSgetNextFreq r g in
      let '(g2, fs) := next_freqs r g1 n' in
      (g2, f :: fs)
  end.


End Fhss.

(* --------------------------------------------------------------------- *)
(** ** The anti-jam detector ([anti_jamming.h], [anti_jamming.cpp])       *)
(* --------------------------------------------------------------------- *)

Module AntiJam.

(** [aj_state_t] *)
Inductive aj_state_t : Type :=
  | AJ_STATE_NOT_JAMMED
  | AJ_STATE_SUSPECT
  | AJ_STATE_JAMMED.

(** [aj_window_mode_t] *)
Inductive aj_window_mode_t : Type :=
  | AJ_WINDOW_BY_COUNT
  | AJ_WINDOW_BY_TIME.

Definition state_eqb (a b : aj_state_t) : bool :=
  match a, b with
  | AJ_STATE_NOT_JAMMED, AJ_STATE_NOT_JAMMED
  | AJ_STATE_SUSPECT, AJ_STATE_SUSPECT
  | AJ_STATE_JAMMED, AJ_STATE_JAMMED => true
  | _, _ => false
  end.

Definition is_by_time (m : aj_window_mode_t) : bool :=
  match m with AJ_WINDOW_BY_TIME => true | AJ_WINDOW_BY_COUNT => false end.

(** [aj_config_t] *)
Record aj_config_t : Type := mk_config {
  window_size_packets : Z;               (* uint16_t *)
  window_duration_ms : Z;                (* uint32_t *)
  window_mode : aj_window_mode_t;
  jam_threshold_percent : Z;             (* uint8_t *)
  min_bad_packets : Z;                   (* uint16_t *)
  consecutive_windows_to_jam : Z;        (* uint8_t *)
  jam_state_hold_time_ms : Z;            (* uint32_t *)
  min_time_between_reco_ms : Z;          (* uint32_t *)
  allow_group_switch_suggestions : Z     (* uint8_t *)
}.

(** [aj_hop_suggestion_t] *)
Record aj_hop_suggestion_t : Type := mk_suggestion {
  recommend : Z;
  confidence : Z;
  suggest_group_switch : Z;
  hop_aggressiveness_hint : Z;
  preferred_slot_index : Z;
  has_preferred_slot : Z
}.

(** [aj_report_t] *)
Record aj_report_t : Type := mk_report {
  rpt_state : aj_state_t;
  rpt_score : Z;
  rpt_recommend_hop : Z;
  rpt_confidence : Z;
  rpt_when : Z;
  rpt_hop_aggressiveness_hint : Z
}.

(** [aj_pkt_entry_t] *)
Record aj_pkt_entry_t : Type := mk_entry {
  good : Z;     (* uint8_t: 1 = good, 0 = bad *)
  ts : Z        (* aj_timestamp_ms_t *)
}.

(** Identity of a registered [aj_hop_cb_t] function. *)
Definition aj_hop_cb_t : Type := positive.

(** [struct aj_ctx_s].  [entries] is the ring storage that follows the
    header in the caller's buffer; its length is the number of entries the
    buffer has room for. *)
Record aj_ctx_t : Type := mk_ctx {
  cfg : aj_config_t;
  capacity : Z;                 (* uint16_t *)
  count : Z;                    (* uint16_t *)
  head : Z;                     (* uint16_t *)
  bad_count : Z;                (* uint16_t *)
  window_start_ms : Z;
  last_now_ms : Z;
  state : aj_state_t;
  jam_streak : Z;               (* uint8_t *)
  last_jam_change_ms : Z;
  ext_jam_recent : Z;           (* uint8_t *)
  ext_jam_since_ms : Z;
  last_reco_ms : Z;
  last_report : aj_report_t;
  hop_cb : option aj_hop_cb_t;  (* NULL = None *)
  hop_cb_ctx : Z;               (* void*, opaque *)
  entries : list aj_pkt_entry_t
}.

(** One invocation of the hop callback: the callee, the suggestion it is
    handed, its user context, and the time of the API call that made it. *)
Record hop_call : Type := mk_hop_call {
  hc_callee : aj_hop_cb_t;
  hc_sugg : aj_hop_suggestion_t;
  hc_user_ctx : Z;
  hc_now_ms : Z
}.

(** *** Field assignments *)

Definition set_cfg (v : aj_config_t) (c : aj_ctx_t) : aj_ctx_t :=
  mk_ctx v (capacity c) (count c) (head c) (bad_count c) (window_start_ms c)
    (last_now_ms c) (state c) (jam_streak c) (last_jam_change_ms c) (ext_jam_recent c)
    (ext_jam_since_ms c) (last_reco_ms c) (last_report c) (hop_cb c) (hop_cb_ctx c)
    (entries c).
Definition set_capacity (v : Z) (c : aj_ctx_t) : aj_ctx_t :=
  mk_ctx (cfg c) v (count c) (head c) (bad_count c) (window_start_ms c)
    (last_now_ms c) (state c) (jam_streak c) (last_jam_change_ms c) (ext_jam_recent c)
    (ext_jam_since_ms c) (last_reco_ms c) (last_report c) (hop_cb c) (hop_cb_ctx c)
    (entries c).
Definition set_count (v : Z) (c : aj_ctx_t) : aj_ctx_t :=
  mk_ctx (cfg c) (capacity c) v (head c) (bad_count c) (window_start_ms c)
    (last_now_ms c) (state c) (jam_streak c) (last_jam_change_ms c) (ext_jam_recent c)
    (ext_jam_since_ms c) (last_reco_ms c) (last_report c) (hop_cb c) (hop_cb_ctx c)
    (entries c).
Definition set_head (v : Z) (c : aj_ctx_t) : aj_ctx_t :=
  mk_ctx (cfg c) (capacity c) (count c) v (bad_count c) (window_start_ms c)
    (last_now_ms c) (state c) (jam_streak c) (last_jam_change_ms c) (ext_jam_recent c)
    (ext_jam_since_ms c) (last_reco_ms c) (last_report c) (hop_cb c) (hop_cb_ctx c)
    (entries c).
Definition set_bad_count (v : Z) (c : aj_ctx_t) : aj_ctx_t :=
  mk_ctx (cfg c) (capacity c) (count c) (head c) v (window_start_ms c)
    (last_now_ms c) (state c) (jam_streak c) (last_jam_change_ms c) (ext_jam_recent c)
    (ext_jam_since_ms c) (last_reco_ms c) (last_report c) (hop_cb c) (hop_cb_ctx c)
    (entries c).
Definition set_window_start_ms (v : Z) (c : aj_ctx_t) : aj_ctx_t :=
  mk_ctx (cfg c) (capacity c) (count c) (head c) (bad_count c) v
    (last_now_ms c) (state c) (jam_streak c) (last_jam_change_ms c) (ext_jam_recent c)
    (ext_jam_since_ms c) (last_reco_ms c) (last_report c) (hop_cb c) (hop_cb_ctx c)
    (entries c).
Definition set_last_now_ms (v : Z) (c : aj_ctx_t) : aj_ctx_t :=
  mk_ctx (cfg c) (capacity c) (count c) (head c) (bad_count c) (window_start_ms c)
    v (state c) (jam_streak c) (last_jam_change_ms c) (ext_jam_recent c)
    (ext_jam_since_ms c) (last_reco_ms c) (last_report c) (hop_cb c) (hop_cb_ctx c)
    (entries c).
Definition set_state (v : aj_state_t) (c : aj_ctx_t) : aj_ctx_t :=
  mk_ctx (cfg c) (capacity c) (count c) (head c) (bad_count c) (window_start_ms c)
    (last_now_ms c) v (jam_streak c) (last_jam_change_ms c) (ext_jam_recent c)
    (ext_jam_since_ms c) (last_reco_ms c) (last_report c) (hop_cb c) (hop_cb_ctx c)
    (entries c).
Definition set_jam_streak (v : Z) (c : aj_ctx_t) : aj_ctx_t :=
  mk_ctx (cfg c) (capacity c) (count c) (head c) (bad_count c) (window_start_ms c)
    (last_now_ms c) (state c) v (last_jam_change_ms c) (ext_jam_recent c)
    (ext_jam_since_ms c) (last_reco_ms c) (last_report c) (hop_cb c) (hop_cb_ctx c)
    (entries c).
Definition set_last_jam_change_ms (v : Z) (c : aj_ctx_t) : aj_ctx_t :=
  mk_ctx (cfg c) (capacity c) (count c) (head c) (bad_count c) (window_start_ms c)
    (last_now_ms c) (state c) (jam_streak c) v (ext_jam_recent c)
    (ext_jam_since_ms c) (last_reco_ms c) (last_report c) (hop_cb c) (hop_cb_ctx c)
    (entries c).
Definition set_ext_jam_recent (v : Z) (c : aj_ctx_t) : aj_ctx_t :=
  mk_ctx (cfg c) (capacity c) (count c) (head c) (bad_count c) (window_start_ms c)
    (last_now_ms c) (state c) (jam_streak c) (last_jam_change_ms c) v
    (ext_jam_since_ms c) (last_reco_ms c) (last_report c) (hop_cb c) (hop_cb_ctx c)
    (entries c).
Definition set_ext_jam_since_ms (v : Z) (c : aj_ctx_t) : aj_ctx_t :=
  mk_ctx (cfg c) (capacity c) (count c) (head c) (bad_count c) (window_start_ms c)
    (last_now_ms c) (state c) (jam_streak c) (last_jam_change_ms c) (ext_jam_recent c)
    v (last_reco_ms c) (last_report c) (hop_cb c) (hop_cb_ctx c)
    (entries c).
Definition set_last_reco_ms (v : Z) (c : aj_ctx_t) : aj_ctx_t :=
  mk_ctx (cfg c) (capacity c) (count c) (head c) (bad_count c) (window_start_ms c)
    (last_now_ms c) (state c) (jam_streak c) (last_jam_change_ms c) (ext_jam_recent c)
    (ext_jam_since_ms c) v (last_report c) (hop_cb c) (hop_cb_ctx c)
    (entries c).
Definition set_last_report (v : aj_report_t) (c : aj_ctx_t) : aj_ctx_t :=
  mk_ctx (cfg c) (capacity c) (count c) (head c) (bad_count c) (window_start_ms c)
    (last_now_ms c) (state c) (jam_streak c) (last_jam_change_ms c) (ext_jam_recent c)
    (ext_jam_since_ms c) (last_reco_ms c) v (hop_cb c) (hop_cb_ctx c)
    (entries c).
Definition set_hop_cb (f : option aj_hop_cb_t) (u : Z) (c : aj_ctx_t) : aj_ctx_t :=
  mk_ctx (cfg c) (capacity c) (count c) (head c) (bad_count c) (window_start_ms c)
    (last_now_ms c) (state c) (jam_streak c) (last_jam_change_ms c) (ext_jam_recent c)
    (ext_jam_since_ms c) (last_reco_ms c) (last_report c) f u
    (entries c).
Definition set_entries (v : list aj_pkt_entry_t) (c : aj_ctx_t) : aj_ctx_t :=
  mk_ctx (cfg c) (capacity c) (count c) (head c) (bad_count c) (window_start_ms c)
    (last_now_ms c) (state c) (jam_streak c) (last_jam_change_ms c) (ext_jam_recent c)
    (ext_jam_since_ms c) (last_reco_ms c) (last_report c) (hop_cb c) (hop_cb_ctx c)
    v.

Definition set_window_duration_ms (v : Z) (k : aj_config_t) : aj_config_t :=
  mk_config (window_size_packets k) v (window_mode k) (jam_threshold_percent k)
    (min_bad_packets k) (consecutive_windows_to_jam k) (jam_state_hold_time_ms k)
    (min_time_between_reco_ms k) (allow_group_switch_suggestions k).
Definition set_min_time_between_reco_ms (v : Z) (k : aj_config_t) : aj_config_t :=
  mk_config (window_size_packets k) (window_duration_ms k) (window_mode k)
    (jam_threshold_percent k) (min_bad_packets k) (consecutive_windows_to_jam k)
    (jam_state_hold_time_ms k) v (allow_group_switch_suggestions k).
Definition set_consecutive_windows_to_jam (v : Z) (k : aj_config_t) : aj_config_t :=
  mk_config (window_size_packets k) (window_duration_ms k) (window_mode k)
    (jam_threshold_percent k) (min_bad_packets k) v (jam_state_hold_time_ms k)
    (min_time_between_reco_ms k) (allow_group_switch_suggestions k).
Definition set_jam_threshold_percent (v : Z) (k : aj_config_t) : aj_config_t :=
  mk_config (window_size_packets k) (window_duration_ms k) (window_mode k) v
    (min_bad_packets k) (consecutive_windows_to_jam k) (jam_state_hold_time_ms k)
    (min_time_between_reco_ms k) (allow_group_switch_suggestions k).

(** *** Helpers *)

Definition u16_min (a b : Z) : Z := if a <? b then a else b.

Definition u32_clamp (x lo hi : Z) : Z :=
  if x <? lo then lo else if hi <? x then hi else x.

Definition u8_clamp_u32_to_u8 (v : Z) : Z := u8 (u32_clamp v 0 255).

Definition zero_entry : aj_pkt_entry_t := mk_entry 0 0.

(** [entries[i]].  An index beyond the storage is outside the caller's
    buffer, which C leaves undefined; the properties below are stated for
    contexts whose ring fits its storage, where the default is not read. *)
Definition entry_at (es : list aj_pkt_entry_t) (i : Z) : aj_pkt_entry_t :=
  default zero_entry (es !! Z.to_nat i).

(** [entries[i] = e] *)
Definition store_entry (es : list aj_pkt_entry_t) (i : Z) (e : aj_pkt_entry_t)
  : list aj_pkt_entry_t :=
  <[Z.to_nat i := e]> es.

(** [(uint16_t)((head + capacity - count) % capacity)]: the operands are
    promoted to [int], whose remainder truncates towards zero. *)
Definition tail_of (cap hd cnt : Z) : Z := u16 (Z.rem (hd + cap - cnt) cap).

Definition tail_index (c : aj_ctx_t) : Z := tail_of (capacity c) (head c) (count c).

(** [window_duration_ms ? window_duration_ms : 1u] *)
Definition window_dur (c : aj_ctx_t) : Z :=
  if window_duration_ms (cfg c) =? 0 then 1 else window_duration_ms (cfg c).

(** [(now_ms > dur) ? (now_ms - dur) : 0u] *)
Definition prune_cutoff (c : aj_ctx_t) (now_ms : Z) : Z :=
  if window_dur c <? now_ms then u32 (now_ms - window_dur c) else 0.

(** One turn of the [while] loop of [prune_old_by_time]: [None] when the
    loop exits, the context after the body otherwise. *)
Definition prune_step (cutoff : Z) (c : aj_ctx_t) : option aj_ctx_t :=
  if 0 <? count c then
    let e := entry_at (entries c) (tail_index c) in
    if cutoff <=? ts e then None
    else
      let c1 :=
        if (good e =? 0) && (0 <? bad_count c)
        then set_bad_count (u16 (bad_count c - 1)) c else c in
      Some (set_count (u16 (count c1 - 1)) c1)
  else None.

(** The loop, with a bound on the number of turns. *)
Fixpoint prune_loop (fuel : nat) (cutoff : Z) (c : aj_ctx_t) : aj_ctx_t :=
  match fuel with
  | O => c
  | S fuel' =>
      match prune_step cutoff c with
      | None => c
      | Some c' => prune_loop fuel' cutoff c'
      end
  end.

(** [prune_old_by_time].  Every turn of the loop decrements [count], so
    [count] turns are enough for the loop to exit (lemma
    [prune_loop_exits] below). *)
Definition prune_old_by_time (c : aj_ctx_t) (now_ms : Z) : aj_ctx_t :=
  if is_by_time (window_mode (cfg c))
  then prune_loop (Z.to_nat (count c)) (prune_cutoff c now_ms) c
  else c.

(** [calc_score]: [(score, total, bad)] *)
Definition calc_score (c : aj_ctx_t) : Z * Z * Z :=
  let total := count c in
  let bad := bad_count c in
  let score :=
    if 0 <? total then
      let pct := u32 (bad * 100) / total in
      let pct := if ext_jam_recent c =? 0 then pct
                 else u32_clamp (u32 (pct + 10)) 0 100 in
      u8 pct
    else 0 in
  (score, total, bad).

Definition score_of (c : aj_ctx_t) : Z := fst (fst (calc_score c)).

(** [is_window_jammy] *)
Definition is_window_jammy (c : aj_ctx_t) : bool :=
  let '(score, total, bad) := calc_score c in
  if bad <? min_bad_packets (cfg c) then false
  else jam_threshold_percent (cfg c) <=? score.

(** [on_window_boundary] *)
Definition on_window_boundary (c : aj_ctx_t) (now_ms : Z) : aj_ctx_t :=
  if is_window_jammy c then
    let c1 := if jam_streak c <? 255 then set_jam_streak (u8 (jam_streak c + 1)) c
              else c in
    if consecutive_windows_to_jam (cfg c1) <=? jam_streak c1 then
      if negb (state_eqb (state c1) AJ_STATE_JAMMED)
      then set_last_jam_change_ms now_ms (set_state AJ_STATE_JAMMED c1)
      else c1
    else
      if state_eqb (state c1) AJ_STATE_NOT_JAMMED
      then set_last_jam_change_ms now_ms (set_state AJ_STATE_SUSPECT c1)
      else c1
  else
    let c1 := set_jam_streak 0 c in
    match state c1 with
    | AJ_STATE_JAMMED =>
        let hold := jam_state_hold_time_ms (cfg c1) in
        if hold <=? u32 (now_ms - last_jam_change_ms c1)
        then set_last_jam_change_ms now_ms (set_state AJ_STATE_SUSPECT c1)
        else c1
    | AJ_STATE_SUSPECT =>
        let '(score, total, bad) := calc_score c1 in
        if (total =? 0) || (score <? jam_threshold_percent (cfg c1) / 2)
        then set_last_jam_change_ms now_ms (set_state AJ_STATE_NOT_JAMMED c1)
        else c1
    | AJ_STATE_NOT_JAMMED => c1
    end.

(** The report [update_report] stores. *)
Definition make_report (c : aj_ctx_t) (now_ms : Z) : aj_report_t :=
  let '(score, total, bad) := calc_score c in
  let thr := jam_threshold_percent (cfg c) in
  let conf :=
    if 0 <? total then
      let over := if thr <? score then u32 (score - thr) else 0 in
      let base := u32_clamp total 0 100 in
      let cc := u32 (base / 2 + over) in
      u8 (u32_clamp cc 0 100)
    else 0 in
  let hint := u8 (u32 (score * 255) / 100) in
  let dt := u32 (now_ms - last_reco_ms c) in
  let recommend_hop :=
    if min_time_between_reco_ms (cfg c) <=? dt then
      match state c with
      | AJ_STATE_JAMMED => 1
      | AJ_STATE_SUSPECT =>
          if u8 (u32_clamp (u32 (thr + 10)) 0 100) <=? score then 1 else 0
      | AJ_STATE_NOT_JAMMED => 0
      end
    else 0 in
  mk_report (state c) score recommend_hop conf now_ms hint.

(** [update_report] *)
Definition update_report (c : aj_ctx_t) (now_ms : Z) : aj_ctx_t :=
  set_last_report (make_report c now_ms) c.

(** [maybe_fire_hop_callback]: the context afterwards and the callback
    invocations made. *)
Definition maybe_fire_hop_callback (c : aj_ctx_t) (now_ms : Z)
  : aj_ctx_t * list hop_call :=
  match hop_cb c with
  | None => (c, [])
  | Some f =>
      let rpt := last_report c in
      if rpt_recommend_hop rpt =? 0 then (c, [])
      else
        let group :=
          if negb (allow_group_switch_suggestions (cfg c) =? 0)
             && ((80 <=? rpt_score rpt) || negb (ext_jam_recent c =? 0))
          then 1 else 0 in
        let s := mk_suggestion 1 (rpt_confidence rpt) group
                   (rpt_hop_aggressiveness_hint rpt) 0 0 in
        (set_last_reco_ms now_ms c, [mk_hop_call f s (hop_cb_ctx c) now_ms])
  end.

(** The capacity [aj_context_size_bytes] and [aj_internal_apply_cfg] derive
    from a configuration. *)
Definition cfg_capacity (k : aj_config_t) : Z :=
  if window_size_packets k =? 0 then 1 else window_size_packets k.

(** [aj_internal_apply_cfg] *)
Definition aj_internal_apply_cfg (c : aj_ctx_t) (k : aj_config_t) : aj_ctx_t :=
  let c := set_cfg k c in
  let c := set_capacity (cfg_capacity (cfg c)) c in
  let c :=
    if is_by_time (window_mode (cfg c)) && (window_duration_ms (cfg c) =? 0)
    then set_cfg (set_window_duration_ms 1000 (cfg c)) c else c in
  let c :=
    if min_time_between_reco_ms (cfg c) =? 0
    then set_cfg (set_min_time_between_reco_ms 500 (cfg c)) c else c in
  let c :=
    if consecutive_windows_to_jam (cfg c) =? 0
    then set_cfg (set_consecutive_windows_to_jam 1 (cfg c)) c else c in
  let c :=
    if 100 <? jam_threshold_percent (cfg c)
    then set_cfg (set_jam_threshold_percent 100 (cfg c)) c else c in
  if jam_threshold_percent (cfg c) <? 1
  then set_cfg (set_jam_threshold_percent 1 (cfg c)) c else c.

Definition baseline_report : aj_report_t :=
  mk_report AJ_STATE_NOT_JAMMED 0 0 0 0 0.

(** The caller's buffer after [aj_init] has zeroed it: a header of zero
    fields followed by [slots] zero entries. *)
Definition zeroed_ctx (slots : nat) : aj_ctx_t :=
  mk_ctx (mk_config 0 0 AJ_WINDOW_BY_COUNT 0 0 0 0 0 0)
    0 0 0 0 0 0 AJ_STATE_NOT_JAMMED 0 0 0 0 0 baseline_report None 0
    (replicate slots zero_entry).

(** [aj_init].  The buffer is given by [slots], the number of ring entries
    it has room for after the header; [aj_init] returns [NULL] when that is
    less than the capacity the configuration asks for. *)
Definition aj_init (slots : nat) (k : aj_config_t) : option aj_ctx_t :=
  if Z.of_nat slots <? cfg_capacity k then None
  else
    let c := aj_internal_apply_cfg (zeroed_ctx slots) k in
    let c := set_bad_count 0 (set_head 0 (set_count 0 c)) in
    let c := set_last_now_ms 0 (set_window_start_ms 0 c) in
    let c := set_last_jam_change_ms 0
               (set_jam_streak 0 (set_state AJ_STATE_NOT_JAMMED c)) in
    let c := set_ext_jam_since_ms 0 (set_ext_jam_recent 0 c) in
    let c := set_last_reco_ms 0 c in
    let c := set_last_report baseline_report c in
    Some (set_hop_cb None 0 c).

(** [aj_configure] *)
Definition aj_configure (c : aj_ctx_t) (k : aj_config_t) : aj_ctx_t :=
  let old_capacity := capacity c in
  let c := aj_internal_apply_cfg c k in
  let c :=
    if capacity c =? old_capacity then c
    else set_bad_count 0 (set_head 0 (set_count 0 c)) in
  set_jam_streak 0 (set_window_start_ms (last_now_ms c) c).

(** [aj_reset] *)
Definition aj_reset (c : aj_ctx_t) : aj_ctx_t :=
  let c := set_bad_count 0 (set_head 0 (set_count 0 c)) in
  let c := set_window_start_ms (last_now_ms c) c in
  let c := set_state AJ_STATE_NOT_JAMMED c in
  let c := set_jam_streak 0 c in
  let c := set_last_jam_change_ms (last_now_ms c) c in
  let c := set_ext_jam_since_ms 0 (set_ext_jam_recent 0 c) in
  let c := set_last_reco_ms 0 c in
  set_last_report (mk_report AJ_STATE_NOT_JAMMED 0 0 0 (last_now_ms c) 0) c.

(** The part of [aj_register_packet] that puts the packet into the ring:
    account for the entry that is overwritten when the ring is full,
    write at [head], advance [head]. *)
Definition ring_insert (c : aj_ctx_t) (good_arg time_ms : Z) : aj_ctx_t :=
  let c :=
    if count c =? capacity c then
      let ev := entry_at (entries c) (head c) in
      if (good ev =? 0) && (0 <? bad_count c)
      then set_bad_count (u16 (bad_count c - 1)) c else c
    else set_count (u16 (count c + 1)) c in
  let e := mk_entry (if good_arg =? 0 then 0 else 1) time_ms in
  let c := set_entries (store_entry (entries c) (head c) e) c in
  let c := if good e =? 0 then set_bad_count (u16 (bad_count c + 1)) c else c in
  set_head (u16 (u32 (head c + 1) mod capacity c)) c.

(** [aj_register_packet] *)
Definition aj_register_packet (c : aj_ctx_t) (good_arg time_ms : Z)
  : aj_ctx_t * list hop_call :=
  let c := set_last_now_ms time_ms c in
  let c := prune_old_by_time c time_ms in
  let c := ring_insert c good_arg time_ms in
  let c :=
    if negb (is_by_time (window_mode (cfg c)))
       && (count c =? capacity c) && (head c =? 0)
    then on_window_boundary c time_ms else c in
  let c := update_report c time_ms in
  maybe_fire_hop_callback c time_ms.

(** [aj_register_external_jam] *)
Definition aj_register_external_jam (c : aj_ctx_t) (time_ms : Z)
  : aj_ctx_t * list hop_call :=
  let c := set_last_now_ms time_ms c in
  let c := set_ext_jam_since_ms time_ms (set_ext_jam_recent 1 c) in
  let c := prune_old_by_time c time_ms in
  let c := update_report c time_ms in
  maybe_fire_hop_callback c time_ms.

(** The first block of [aj_tick]: in BY_TIME mode prune, and when at least
    one window duration has elapsed move the window start forward by whole
    durations and process one boundary. *)
Definition tick_window (c : aj_ctx_t) (now_ms : Z) : aj_ctx_t :=
  if is_by_time (window_mode (cfg c)) then
    let c := prune_old_by_time c now_ms in
    let dur := window_dur c in
    if dur <=? u32 (now_ms - window_start_ms c) then
      let elapsed := u32 (now_ms - window_start_ms c) in
      let steps := elapsed / dur in
      let steps := if steps =? 0 then 1 else steps in
      let c := set_window_start_ms (u32 (window_start_ms c + u32 (steps * dur))) c in
      on_window_boundary c now_ms
    else c
  else c.

(** The second block of [aj_tick]: clear the external-jam flag once it is a
    window duration old (1000 ms in BY_COUNT mode). *)
Definition tick_age_ext_jam (c : aj_ctx_t) (now_ms : Z) : aj_ctx_t :=
  if ext_jam_recent c =? 0 then c
  else
    let age := u32 (now_ms - ext_jam_since_ms c) in
    let limit :=
      if is_by_time (window_mode (cfg c)) then
        (if window_duration_ms (cfg c) =? 0 then 1000 else window_duration_ms (cfg c))
      else 1000 in
    if limit <=? age then set_ext_jam_recent 0 c else c.

(** [aj_tick] *)
Definition aj_tick (c : aj_ctx_t) (now_ms : Z) : aj_ctx_t :=
  let c := set_last_now_ms now_ms c in
  let c := tick_window c now_ms in
  let c := tick_age_ext_jam c now_ms in
  update_report c now_ms.

(** [aj_get_report] *)
Definition aj_get_report (c : aj_ctx_t) : aj_report_t := last_report c.

(** [aj_is_jammed] *)
Definition aj_is_jammed (c : aj_ctx_t) : Z :=
  if state_eqb (state c) AJ_STATE_JAMMED then 1 else 0.

(** [aj_set_hop_callback] *)
Definition aj_set_hop_callback (c : aj_ctx_t) (f : option aj_hop_cb_t) (user_ctx : Z)
  : aj_ctx_t :=
  set_hop_cb f user_ctx c.

(** *** The ring as a sequence *)

(** The [cnt] slots of a ring of capacity [cap] whose next insert index is
    [hd], oldest first: they start at the tail and wrap at [cap]. *)
Definition ring_view (es : list aj_pkt_entry_t) (cap hd cnt : Z) : list aj_pkt_entry_t :=
  map (fun k => entry_at es ((tail_of cap hd cnt + Z.of_nat k) mod cap))
      (seq 0 (Z.to_nat cnt)).

(** The entries currently in the ring. *)
Definition ring_entries (c : aj_ctx_t) : list aj_pkt_entry_t :=
  ring_view (entries c) (capacity c) (head c) (count c).

Definition is_bad (e : aj_pkt_entry_t) : bool := good e =? 0.

Definition bad_of (l : list aj_pkt_entry_t) : Z :=
  Z.of_nat (length (List.filter is_bad l)).

(** The number of entries of the ring whose [good] flag is 0. *)
Definition bad_in_ring (c : aj_ctx_t) : Z := bad_of (ring_entries c).

(** The ring is within its storage and its bookkeeping is consistent. *)
Definition ring_ok (c : aj_ctx_t) : Prop :=
  1 <= capacity c <= 65535 /\
  capacity c <= Z.of_nat (length (entries c)) /\
  0 <= count c <= capacity c /\
  0 <= head c < capacity c /\
  bad_count c = bad_in_ring c.

(** *** Sequences of API calls *)

Inductive aj_call : Type :=
  | RegisterPacket (good_arg time_ms : Z)
  | RegisterExternalJam (time_ms : Z)
  | Tick (now_ms : Z)
  | Reset
  | Configure (k : aj_config_t)
  | SetHopCallback (f : option aj_hop_cb_t) (user_ctx : Z).

Definition do_call (c : aj_ctx_t) (op : aj_call) : aj_ctx_t * list hop_call :=
  match op with
  | RegisterPacket g t => aj_register_packet c g t
  | RegisterExternalJam t => aj_register_external_jam c t
  | Tick t => (aj_tick c t, [])
  | Reset => (aj_reset c, [])
  | Configure k => (aj_configure c k, [])
  | SetHopCallback f u => (aj_set_hop_callback c f u, [])
  end.

(** The context after a sequence of calls and every callback invocation
    made on the way, oldest first. *)
Fixpoint do_calls (c : aj_ctx_t) (ops : list aj_call) : aj_ctx_t * list hop_call :=
  match ops with
  | [] => (c, [])
  | op :: rest =>
      let '(c1, l1) := do_call c op in
      let '(c2, l2) := do_calls c1 rest in
      (c2, l1 ++ l2)
  end.

(** A reconfiguration that respects the rule stated at [aj_configure]: the
    buffer was sized for the largest capacity ever asked for. *)
Definition call_fits (slots : nat) (op : aj_call) : Prop :=
  match op with
  | Configure k => in_u16 (window_size_packets k) /\ cfg_capacity k <= Z.of_nat slots
  | _ => True
  end.

(** The two calls that feed the detector, and the time they carry. *)
Definition register_time (op : aj_call) : option Z :=
  match op with
  | RegisterPacket _ t | RegisterExternalJam t => Some t
  | _ => None
  end.

(** Every call of the list is a register call with a [uint32_t] time, and
    the times do not decrease along the list, starting from [lo]. *)
Fixpoint register_run (lo : Z) (ops : list aj_call) : Prop :=
  match ops with
  | [] => True
  | op :: rest =>
      match register_time op with
      | Some t => lo <= t /\ in_u32 t /\ register_run t rest
      | None => False
      end
  end.

(** The times of the calls that invoked the callback. *)
Definition fire_times (l : list hop_call) : list Z := map hc_now_ms l.

(** Consecutive elements of the list are at least [gap] apart. *)
Fixpoint paced (gap : Z) (ts : list Z) : Prop :=
  match ts with
  | a :: (b :: _) as rest => gap <= b - a /\ paced gap rest
  | _ => True
  end.

(** A packet to register: its good flag and its time. *)
Definition register_all (pkts : list (Z * Z)) : list aj_call :=
  map (fun p => RegisterPacket (fst p) (snd p)) pkts.

(** The number of packets of the list that are registered as bad. *)
Definition bad_packets (pkts : list (Z * Z)) : Z :=
  Z.of_nat (length (List.filter (fun p => fst p =? 0) pkts)).

(** The configuration of the detection-threshold scenario; the window
    duration and the group-switch permission are left open. *)
Definition scenario_cfg (duration_ms allow : Z) : aj_config_t :=
  mk_config 100 duration_ms AJ_WINDOW_BY_COUNT 30 5 1 0 0 allow.

(** One hundred packets, one per millisecond from 1 ms on, of which every
    tenth, and the two before it, are bad: 30 bad packets, evenly spread. *)
Definition uniform_packets : list (Z * Z) :=
  map (fun i => (if 7 <=? Z.of_nat i mod 10 then 0 else 1, Z.of_nat i + 1)) (seq 0 100).

(** *** Relations between contexts *)

(** The fields that pruning, inserting into the ring and processing a
    window boundary all leave alone. *)
Definition same_frame (c c' : aj_ctx_t) : Prop :=
  cfg c' = cfg c /\ last_reco_ms c' = last_reco_ms c /\
  hop_cb c' = hop_cb c /\ hop_cb_ctx c' = hop_cb_ctx c /\
  last_now_ms c' = last_now_ms c /\ window_start_ms c' = window_start_ms c /\
  ext_jam_recent c' = ext_jam_recent c /\ ext_jam_since_ms c' = ext_jam_since_ms c /\
  capacity c' = capacity c.

(** The fields on which the pacing of recommendations depends. *)
Definition same_pacing (c c' : aj_ctx_t) : Prop :=
  cfg c' = cfg c /\ last_reco_ms c' = last_reco_ms c.

(** The fields of the ring. *)
Definition same_ring (c c' : aj_ctx_t) : Prop :=
  capacity c' = capacity c /\ count c' = count c /\ head c' = head c /\
  bad_count c' = bad_count c /\ entries c' = entries c.

(** Nothing is left for [tick_window] to do at time [t]. *)
Definition settled (t : Z) (c : aj_ctx_t) : Prop :=
  is_by_time (window_mode (cfg c)) = true ->
  prune_step (prune_cutoff c t) c = None /\
  u32 (t - window_start_ms c) < window_dur c.

(** A ring that is consistent and lies within a storage of [slots]
    entries. *)
Definition ring_fits (slots : nat) (c : aj_ctx_t) : Prop :=
  ring_ok c /\ length (entries c) = slots.

(** What a packet does to a BY_COUNT detector that is not jammed and whose
    first window is still filling: it is counted, and nothing else
    happens. *)
Definition filled (c c' : aj_ctx_t) (n b : Z) : Prop :=
  count c' = count c + n /\ head c' = count c' /\ bad_count c' = bad_count c + b /\
  cfg c' = cfg c /\ capacity c' = capacity c /\ last_reco_ms c' = last_reco_ms c /\
  hop_cb c' = hop_cb c /\ hop_cb_ctx c' = hop_cb_ctx c /\
  ext_jam_recent c' = ext_jam_recent c /\ state c' = AJ_STATE_NOT_JAMMED /\
  jam_streak c' = jam_streak c.

(** The configuration [aj_init] stores for the scenario: the minimum time
    between recommendations, configured as 0, has become 500. *)
Definition scenario_cfg_stored (duration_ms allow : Z) : aj_config_t :=
  mk_config 100 duration_ms AJ_WINDOW_BY_COUNT 30 5 1 0 500 allow.

(** The detection-threshold scenario: initialise in a buffer of [slots]
    entries, register the hop callback, register the packets.  [None] when
    the buffer is too small for [aj_init]. *)
Definition detection_run (slots : nat) (duration_ms allow : Z) (f : aj_hop_cb_t)
    (user_ctx : Z) (pkts : list (Z * Z)) : option (aj_ctx_t * list hop_call) :=
  match aj_init slots (scenario_cfg duration_ms allow) with
  | Some c0 =>
      Some (do_calls (aj_set_hop_callback c0 (Some f) user_ctx) (register_all pkts))
  | None => None
  end.

(** State, reported score and number of callback invocations of a run. *)
Definition run_summary (r : option (aj_ctx_t * list hop_call))
  : option (aj_state_t * Z * nat) :=
  match r with
  | Some (c, calls) => Some (state c, rpt_score (aj_get_report c), length calls)
  | None => None
  end.

(** *** The rest of the core API *)

(** [aj_evaluate_hop]: the suggestion written to [out_sugg]. *)
Definition aj_evaluate_hop (c : aj_ctx_t) : aj_hop_suggestion_t :=
  let rpt := last_report c in
  let recommend :=
    match state c with
    | AJ_STATE_JAMMED => 1
    | AJ_STATE_SUSPECT =>
        if u8 (u32_clamp (u32 (jam_threshold_percent (cfg c) + 10)) 0 100)
           <=? rpt_score rpt
        then 1 else 0
    | AJ_STATE_NOT_JAMMED => 0
    end in
  let group :=
    if negb (allow_group_switch_suggestions (cfg c) =? 0)
       && ((80 <=? rpt_score rpt) || negb (ext_jam_recent c =? 0))
    then 1 else 0 in
  mk_suggestion recommend (rpt_confidence rpt) group
    (rpt_hop_aggressiveness_hint rpt) 0 0.

(** *** Further notions used in the statements *)

(** The fields of a configuration are values of their C types. *)
Definition cfg_in_range (k : aj_config_t) : Prop :=
  in_u16 (window_size_packets k) /\ in_u32 (window_duration_ms k) /\
  in_u8 (jam_threshold_percent k) /\ in_u16 (min_bad_packets k) /\
  in_u8 (consecutive_windows_to_jam k) /\ in_u32 (jam_state_hold_time_ms k) /\
  in_u32 (min_time_between_reco_ms k) /\ in_u8 (allow_group_switch_suggestions k).

(** What [aj_internal_apply_cfg] guarantees of the configuration it
    stores. *)
Definition cfg_hardened (k : aj_config_t) : Prop :=
  1 <= jam_threshold_percent k <= 100 /\
  1 <= consecutive_windows_to_jam k /\
  1 <= min_time_between_reco_ms k /\
  (window_mode k = AJ_WINDOW_BY_TIME -> 1 <= window_duration_ms k).

(** A call that fits the buffer and, when it reconfigures, passes values of
    the C types. *)
Definition call_in_range (slots : nat) (op : aj_call) : Prop :=
  match op with
  | Configure k => cfg_in_range k /\ cfg_capacity k <= Z.of_nat slots
  | _ => True
  end.

(** The fields of a report are within their documented ranges. *)
Definition report_in_range (r : aj_report_t) : Prop :=
  0 <= rpt_score r <= 100 /\ 0 <= rpt_confidence r <= 100 /\
  0 <= rpt_hop_aggressiveness_hint r <= 255 /\
  rpt_hop_aggressiveness_hint r = rpt_score r * 255 / 100 /\
  (rpt_recommend_hop r = 0 \/ rpt_recommend_hop r = 1).

(** The calls that carry a time: the two register calls and the tick. *)
Definition call_time (op : aj_call) : option Z :=
  match op with
  | RegisterPacket _ t | RegisterExternalJam t | Tick t => Some t
  | _ => None
  end.

(** Every call of the list carries a [uint32_t] time, and the times do not
    decrease along the list, starting from [lo]. *)
Fixpoint timed_run (lo : Z) (ops : list aj_call) : Prop :=
  match ops with
  | [] => True
  | op :: rest =>
      match call_time op with
      | Some t => lo <= t /\ in_u32 t /\ timed_run t rest
      | None => False
      end
  end.

(** The entry [aj_register_packet] writes for a packet. *)
Definition packet_entry (p : Z * Z) : aj_pkt_entry_t :=
  mk_entry (if fst p =? 0 then 0 else 1) (snd p).

(** The last [n] elements of a list. *)
Definition keep_last {A : Type} (n : nat) (l : list A) : list A :=
  drop (length l - n) l.

(** The external-jam flag is cleared by a tick once it is this old. *)
Definition ext_jam_limit (c : aj_ctx_t) : Z :=
  if is_by_time (window_mode (cfg c)) then
    (if window_duration_ms (cfg c) =? 0 then 1000 else window_duration_ms (cfg c))
  else 1000.

(** A sequence of [aj_tick] calls, at the times of the list. *)
Definition aj_ticks (c : aj_ctx_t) (times : list Z) : aj_ctx_t :=
  fold_left aj_tick times c.

(** Some tick of the list comes when a flag raised at [t0] is at least
    [limit] old. *)
Definition some_tick_late (limit t0 : Z) (times : list Z) : bool :=
  existsb (fun t => limit <=? u32 (t - t0)) times.

(** The time stamps of a list of entries do not decrease. *)
Fixpoint ts_sorted (l : list aj_pkt_entry_t) : Prop :=
  match l with
  | [] => True
  | e :: rest => Forall (fun x => ts e <= ts x) rest /\ ts_sorted rest
  end.


(** What the pruning loop leaves of a list of entries, oldest first: the
    leading entries older than [cutoff] are gone. *)
Fixpoint drop_older (cutoff : Z) (l : list aj_pkt_entry_t) : list aj_pkt_entry_t :=
  match l with
  | [] => []
  | e :: rest => if cutoff <=? ts e then l else drop_older cutoff rest
  end.


(** The entries of the ring are in the order of their time stamps and none
    is later than [hi]. *)
Definition ring_in_order (hi : Z) (c : aj_ctx_t) : Prop :=
  ts_sorted (ring_entries c) /\ Forall (fun e => ts e <= hi) (ring_entries c).


(** *** Sample inputs *)

(** The context [aj_init] returns, or the zeroed buffer where it refuses. *)
Definition started (slots : nat) (k : aj_config_t) : aj_ctx_t :=
  default (zeroed_ctx slots) (aj_init slots k).

(** A 100 ms time window over a ring of three entries. *)
Definition sample_time_cfg : aj_config_t :=
  mk_config 3 100 AJ_WINDOW_BY_TIME 50 1 1 0 0 1.

(** A count window of two packets, recommendations 100 ms apart. *)
Definition sample_count_cfg : aj_config_t :=
  mk_config 2 0 AJ_WINDOW_BY_COUNT 50 1 1 0 100 0.

(** A session that overwrites, prunes, reconfigures to a smaller ring and
    resets. *)
Definition sample_session : list aj_call :=
  [RegisterPacket 0 10; RegisterPacket 1 20; RegisterPacket 0 30;
   RegisterPacket 0 40; RegisterExternalJam 45; Tick 60; RegisterPacket 1 135;
   Configure sample_count_cfg; RegisterPacket 0 150; RegisterPacket 0 160;
   RegisterPacket 1 170; Reset; RegisterPacket 0 180].

(** Bad packets and an external jam report in quick succession. *)
Definition sample_burst : list aj_call :=
  [RegisterPacket 0 10; RegisterPacket 0 20; RegisterPacket 0 150;
   RegisterPacket 0 200; RegisterExternalJam 260].

(** Packets with ticks in between. *)
Definition sample_ticks : list aj_call :=
  [RegisterPacket 0 10; RegisterPacket 0 20; Tick 120; RegisterPacket 0 150;
   Tick 240; RegisterPacket 0 245; RegisterPacket 0 250].

End AntiJam.

(* --------------------------------------------------------------------- *)
(** ** The integration layer ([anti_jamming.cpp], second half)            *)
(* --------------------------------------------------------------------- *)

Module Glue.
Import Switch AntiJam.

(** The file-scope variables of the layer. *)
Record glue_t : Type := mk_glue {
  g_aj_ctx : option aj_ctx_t;
  g_aj_switch_ctx : option aj_switch_ctx_t;
  g_anti_jam_enabled : N;        (* uint8_t *)
  g_switch_prev_enabled : N      (* uint8_t *)
}.

(** Their static initialisers. *)
Definition glue_start : glue_t := mk_glue None None 0 0.

Definition set_g_aj_ctx (v : option aj_ctx_t) (g : glue_t) : glue_t :=
  mk_glue v (g_aj_switch_ctx g) (g_anti_jam_enabled g) (g_switch_prev_enabled g).
Definition set_g_aj_switch_ctx (v : option aj_switch_ctx_t) (g : glue_t) : glue_t :=
  mk_glue (g_aj_ctx g) v (g_anti_jam_enabled g) (g_switch_prev_enabled g).
Definition set_g_anti_jam_enabled (v : N) (g : glue_t) : glue_t :=
  mk_glue (g_aj_ctx g) (g_aj_switch_ctx g) v (g_switch_prev_enabled g).
Definition set_g_switch_prev_enabled (v : N) (g : glue_t) : glue_t :=
  mk_glue (g_aj_ctx g) (g_aj_switch_ctx g) (g_anti_jam_enabled g) v.

(** What the layer does that is visible outside it: the lines it prints
    and its calls into the FHSS layer.  The two frequencies
    [FHSSHopNextSynced] returns are printed and not used otherwise; the
    events for those lines leave them out. *)
Inductive effect : Type :=
  | PutsStarted                              (* "[ANTIJAM] STARTED (rc)" *)
  | PutsStopped                              (* "[ANTIJAM] STOPPED (rc)" *)
  | PutsHopWhileDisabled                     (* "... but system disabled by RC" *)
  | CallBeginHopCycle                        (* FHSSBeginHopCycle() *)
  | CallHopNextSynced (radio_id : Z)         (* FHSSHopNextSynced(radio_id) *)
  | PrintfHopFired (conf hint group : Z)     (* "[ANTIJAM] Hop fired. ..." *)
  | PutsForcedIgnored                        (* "... ignored (disabled)" *)
  | PrintfForcedHop                          (* "[ANTIJAM] Forced hop -> ..." *)
  | PrintfSwitchTooLarge (ctx_size : Z)
  | PrintfSwitchInitialized (ctx_size : Z).

Definition is_fhss_call (e : effect) : bool :=
  match e with
  | CallBeginHopCycle | CallHopNextSynced _ => true
  | _ => false
  end.

(** The identities under which the two static callbacks are registered. *)
Definition anti_jam_internal_hop_cb_id : aj_hop_cb_t := 1%positive.
Definition aj_switch_notify_cb_id : aj_switch_notify_cb_t := 1%positive.

(** [anti_jamming_start_impl] *)
Definition anti_jamming_start_impl (g : glue_t) : glue_t * list effect :=
  (set_g_aj_ctx (option_map aj_reset (g_aj_ctx g)) g, [PutsStarted]).

(** [anti_jamming_stop_impl] *)
Definition anti_jamming_stop_impl (g : glue_t) : glue_t * list effect :=
  (g, [PutsStopped]).

(** [aj_switch_notify_cb] *)
Definition aj_switch_notify_cb (enabled mode when_ms user_ctx : N) (g : glue_t)
  : glue_t * list effect :=
  let g := set_g_anti_jam_enabled (if (enabled =? 0)%N then 0%N else 1%N) g in
  let '(g, out) :=
    if negb (g_anti_jam_enabled g =? 0)%N && (g_switch_prev_enabled g =? 0)%N
    then anti_jamming_start_impl g
    else if (g_anti_jam_enabled g =? 0)%N && negb (g_switch_prev_enabled g =? 0)%N
    then anti_jamming_stop_impl g
    else (g, []) in
  (set_g_switch_prev_enabled (g_anti_jam_enabled g) g, out).

(** The calls of one synchronised hop: begin the cycle, then one
    [FHSSHopNextSynced] per radio. *)
Definition hop_cycle : list effect :=
  [CallBeginHopCycle; CallHopNextSynced Fhss.FHSS_RADIO_1;
   CallHopNextSynced Fhss.FHSS_RADIO_2].

(** [anti_jam_internal_hop_cb]; it changes no variable of the layer. *)
Definition anti_jam_internal_hop_cb (s : option aj_hop_suggestion_t) (g : glue_t)
  : list effect :=
  match s with
  | None => []
  | Some s =>
      if (g_anti_jam_enabled g =? 0)%N then
        (if recommend s =? 0 then [] else [PutsHopWhileDisabled])
      else if recommend s =? 0 then []
      else
        hop_cycle
        ++ [PrintfHopFired (confidence s) (hop_aggressiveness_hint s)
              (suggest_group_switch s)]
  end.

(** The callback invocations of the detector, carried out: an invocation
    whose callee is the internal hop callback runs it. *)
Definition deliver_hop_calls (g : glue_t) (calls : list hop_call) : list effect :=
  List.flat_map
    (fun hc =>
       if Pos.eqb (hc_callee hc) anti_jam_internal_hop_cb_id
       then anti_jam_internal_hop_cb (Some (hc_sugg hc)) g
       else [])
    calls.

(** The notifications of the switch, carried out in the same way. *)
Fixpoint deliver_notify_calls (g : glue_t) (ncs : list notify_call)
  : glue_t * list effect :=
  match ncs with
  | [] => (g, [])
  | nc :: rest =>
      let '(g1, o1) :=
        if Pos.eqb (nc_callee nc) aj_switch_notify_cb_id
        then aj_switch_notify_cb (nc_enabled nc) (nc_mode nc) (nc_when_ms nc)
               (nc_user_ctx nc) g
        else (g, []) in
      let '(g2, o2) := deliver_notify_calls g1 rest in
      (g2, o1 ++ o2)
  end.

(** [anti_jamming_init_with_buffer]: the variables afterwards and the
    context returned ([None] for [NULL]).  As for [aj_init], the buffer is
    given by the number of ring entries it has room for. *)
Definition anti_jamming_init_with_buffer (buffer : option nat) (k : option aj_config_t)
    (g : glue_t) : glue_t * option aj_ctx_t :=
  match buffer, k with
  | Some slots, Some k =>
      match aj_init slots k with
      | None => (g, None)
      | Some ctx =>
          let ctx := aj_set_hop_callback ctx (Some anti_jam_internal_hop_cb_id) 0 in
          (set_g_aj_ctx (Some ctx) g, Some ctx)
      end
  | _, _ => (g, None)
  end.

(** [anti_jamming_switch_init].  [ctx_size] is what
    [aj_switch_context_size_bytes] returns, the size of the switch context
    on the platform.  The buffer handed to [aj_switch_init] is declared
    with that very size, so the failure branch after it is not taken. *)
Definition anti_jamming_switch_init (ctx_size : Z) (g : glue_t) : glue_t * list effect :=
  if 128 <? ctx_size then (g, [PrintfSwitchTooLarge ctx_size])
  else
    let g := set_g_aj_switch_ctx (Some aj_switch_init) g in
    let g :=
      set_g_aj_switch_ctx
        (aj_switch_register_notify_cb (g_aj_switch_ctx g) (Some aj_switch_notify_cb_id) 0)
        g in
    (g, [PrintfSwitchInitialized ctx_size]).

(** [aj_switch_process_from_rc], the stub of [aj_switch.h]: it does
    nothing to the context and notifies nobody. *)
Definition aj_switch_process_from_rc (ctx : option aj_switch_ctx_t) (now_ms : Z)
  : option aj_switch_ctx_t * list notify_call :=
  (ctx, []).

(** [anti_jamming_service_tick] *)
Definition anti_jamming_service_tick (now_ms : Z) (g : glue_t) : glue_t * list effect :=
  let '(g, out) :=
    match g_aj_switch_ctx g with
    | Some sc =>
        let '(sc', ncs) := aj_switch_process_from_rc (Some sc) now_ms in
        deliver_notify_calls (set_g_aj_switch_ctx sc' g) ncs
    | None => (g, [])
    end in
  (set_g_aj_ctx (option_map (fun c => aj_tick c now_ms) (g_aj_ctx g)) g, out).

(** [anti_jamming_register_packet] *)
Definition anti_jamming_register_packet (good_arg time_ms : Z) (g : glue_t)
  : glue_t * list effect :=
  match g_aj_ctx g with
  | None => (g, [])
  | Some c =>
      let '(c', calls) := aj_register_packet c (if good_arg =? 0 then 0 else 1) time_ms in
      (set_g_aj_ctx (Some c') g, deliver_hop_calls g calls)
  end.

(** [anti_jamming_register_external_jam] *)
Definition anti_jamming_register_external_jam (time_ms : Z) (g : glue_t)
  : glue_t * list effect :=
  match g_aj_ctx g with
  | None => (g, [])
  | Some c =>
      let '(c', calls) := aj_register_external_jam c time_ms in
      (set_g_aj_ctx (Some c') g, deliver_hop_calls g calls)
  end.

(** [anti_jamming_get_report] with a non-[NULL] destination: what is
    written there, if anything. *)
Definition anti_jamming_get_report (g : glue_t) : option aj_report_t :=
  option_map aj_get_report (g_aj_ctx g).

(** [anti_jamming_force_synced_hop] *)
Definition anti_jamming_force_synced_hop (g : glue_t) : list effect :=
  if (g_anti_jam_enabled g =? 0)%N then [PutsForcedIgnored]
  else hop_cycle ++ [PrintfForcedHop].

(** *** Sequences of calls *)

(** The public functions of the layer. *)
Inductive glue_call : Type :=
  | InitWithBuffer (buffer : option nat) (k : option aj_config_t)
  | SwitchInit (ctx_size : Z)
  | ServiceTick (now_ms : Z)
  | GlueRegisterPacket (good_arg time_ms : Z)
  | GlueRegisterExternalJam (time_ms : Z)
  | ForceSyncedHop.

Definition glue_do_call (g : glue_t) (k : glue_call) : glue_t * list effect :=
  match k with
  | InitWithBuffer buffer cfg => (fst (anti_jamming_init_with_buffer buffer cfg g), [])
  | SwitchInit ctx_size => anti_jamming_switch_init ctx_size g
  | ServiceTick t => anti_jamming_service_tick t g
  | GlueRegisterPacket good_arg t => anti_jamming_register_packet good_arg t g
  | GlueRegisterExternalJam t => anti_jamming_register_external_jam t g
  | ForceSyncedHop => (g, anti_jamming_force_synced_hop g)
  end.

(** A set-operation made on the switch context of the layer, with its
    notifications delivered: what happens inside the layer when code that
    holds [g_aj_switch_ctx], as an RC poller in the place of the stub
    would, changes the switch. *)
Definition switch_event (op : set_op) (when_ms : N) (g : glue_t) : glue_t * list effect :=
  deliver_notify_calls
    (set_g_aj_switch_ctx (ctx_of (run_set_op op (g_aj_switch_ctx g) when_ms)) g)
    (calls_of (run_set_op op (g_aj_switch_ctx g) when_ms)).

(** A step of the layer: a call of a public function, or a change of the
    switch. *)
Inductive glue_step : Type :=
  | Api (k : glue_call)
  | RcEvent (op : set_op) (when_ms : N).

Definition glue_do_step (g : glue_t) (s : glue_step) : glue_t * list effect :=
  match s with
  | Api k => glue_do_call g k
  | RcEvent op when_ms => switch_event op when_ms g
  end.

(** The variables after a sequence of steps and everything done on the
    way, oldest first. *)
Fixpoint glue_run (g : glue_t) (steps : list glue_step) : glue_t * list effect :=
  match steps with
  | [] => (g, [])
  | s :: rest =>
      let '(g1, o1) := glue_do_step g s in
      let '(g2, o2) := glue_run g1 rest in
      (g2, o1 ++ o2)
  end.

(** The FHSS calls among the effects. *)
Definition fhss_calls (l : list effect) : list effect := List.filter is_fhss_call l.

(** [n] whole hop cycles. *)
Fixpoint hop_cycles (n : nat) : list effect :=
  match n with
  | O => []
  | S n' => hop_cycle ++ hop_cycles n'
  end.

(** The number of occurrences of a line without arguments. *)
Definition is_started (e : effect) : bool :=
  match e with PutsStarted => true | _ => false end.
Definition is_stopped (e : effect) : bool :=
  match e with PutsStopped => true | _ => false end.

(** The enable flag of the layer is that of its switch, whose notify
    callback is the layer's. *)
Definition mirrors (g : glue_t) : Prop :=
  exists sc,
    g_aj_switch_ctx g = Some sc /\ cb sc = Some aj_switch_notify_cb_id /\
    (enabled sc <= 1)%N /\
    g_anti_jam_enabled g = enabled sc /\ g_switch_prev_enabled g = enabled sc.

(** A step that does not set up the switch anew. *)
Definition keeps_switch (s : glue_step) : Prop :=
  match s with
  | Api (SwitchInit _) => False
  | _ => True
  end.

(** A layer initialised over a ring of two, with a changed switch: the
    detector is armed with two bad packets, the switch is turned on, and
    the third bad packet comes late enough for a recommendation. *)
Definition sample_steps : list glue_step :=
  [Api (SwitchInit 24); Api (InitWithBuffer (Some 2%nat) (Some sample_count_cfg));
   Api (GlueRegisterPacket 0 10); Api (GlueRegisterPacket 0 20);
   RcEvent (SetEnabled 1) 100; Api (GlueRegisterPacket 0 150);
   Api (GlueRegisterPacket 0 160); Api ForceSyncedHop; RcEvent (SetModeLocal 2) 170;
   RcEvent (SetEnabled 0) 200; Api (GlueRegisterPacket 0 300)].

(** The layer after the first six of these steps, enabled and one packet
    short of a full window, and its detector. *)
Definition sample_glue : glue_t := fst (glue_run glue_start (firstn 6 sample_steps)).

Definition sample_glue_ctx : aj_ctx_t := default (zeroed_ctx 2) (g_aj_ctx sample_glue).

End Glue.

(* ===================================================================== *)
(** * Part II: properties                                                 *)
(* ===================================================================== *)

(** ** Fixed-width arithmetic *)

Lemma u32_small (x : Z) : in_u32 x -> u32 x = x.
Proof. unfold in_u32, u32. intros H. apply Z.mod_small. lia. Qed.

Lemma u16_small (x : Z) : in_u16 x -> u16 x = x.
Proof. unfold in_u16, u16. intros H. apply Z.mod_small. lia. Qed.

Lemma u8_small (x : Z) : in_u8 x -> u8 x = x.
Proof. unfold in_u8, u8. intros H. apply Z.mod_small. lia. Qed.

Lemma u32_range (x : Z) : in_u32 (u32 x).
Proof. unfold in_u32, u32. apply Z.mod_pos_bound. lia. Qed.

Lemma u8_range (x : Z) : in_u8 (u8 x).
Proof. unfold in_u8, u8. apply Z.mod_pos_bound. lia. Qed.

(* --------------------------------------------------------------------- *)
(** ** The mode switch                                                    *)
(* --------------------------------------------------------------------- *)

Module SwitchProofs.
Import Switch.

Lemma to_flag_le (x : N) : (to_flag x <= 1)%N.
Proof. unfold to_flag. destruct (x =? 0)%N; lia. Qed.

Lemma to_flag_of_flag (x : N) : (x <= 1)%N -> to_flag x = x.
Proof. unfold to_flag. intros H. destruct (N.eqb_spec x 0); lia. Qed.

Lemma mode_code_le (m : aj_switch_mode_t) : (mode_code m <= 2)%N.
Proof. destruct m; simpl; lia. Qed.

(** Below [2^31] the promoted value of a code is the code. *)
Lemma int_of_mode_nonneg (m : N) : (m < 2147483648)%N -> int_of_mode m = Z.of_N m.
Proof.
  intros Hm. unfold int_of_mode. rewrite N.mod_small by lia.
  destruct (N.ltb_spec m 2147483648); [reflexivity | lia].
Qed.


(** The range test, on the codes that are not negative as an [int]. *)
Lemma mode_above_high_nonneg (m : N) :
  (m < 2147483648)%N -> mode_above_high m = (mode_code AJ_SWITCH_MODE_HIGH <? m)%N.
Proof.
  intros Hm. unfold mode_above_high.
  rewrite (int_of_mode_nonneg m Hm), int_of_mode_nonneg by (simpl; lia).
  destruct (N.ltb_spec (mode_code AJ_SWITCH_MODE_HIGH) m);
    [apply Z.ltb_lt | apply Z.ltb_ge]; lia.
Qed.


Lemma mode_above_high_le (m : N) : (m <= 2)%N -> mode_above_high m = false.
Proof.
  intros Hm. rewrite mode_above_high_nonneg by lia. apply N.ltb_ge. simpl. lia.
Qed.

Lemma mode_above_high_enum (m : aj_switch_mode_t) : mode_above_high (mode_code m) = false.
Proof. apply mode_above_high_le, mode_code_le. Qed.

(** [aj_switch_init] establishes [wf_switch] and every operation of the API
    keeps it, so it holds of every context the API can produce. *)
Lemma wf_switch_init : wf_switch aj_switch_init.
Proof. unfold wf_switch; simpl; lia. Qed.

Lemma wf_switch_run_set_op (op : set_op) (c c' : aj_switch_ctx_t) (t : N) :
  mode_arg_nonneg (CallSet op t) ->
  wf_switch c -> ctx_of (run_set_op op (Some c) t) = Some c' -> wf_switch c'.
Proof.
  unfold wf_switch. intros Harg (He & Hm & Hc).
  destruct op as [e | m | m | e]; simpl in Harg |- *;
    unfold aj_switch_set_enabled, aj_switch_set_mode_local,
      aj_switch_set_mode_from_controller, aj_switch_request_enable_from_controller;
    rewrite ?(mode_above_high_nonneg m Harg);
    repeat match goal with
      | |- context [if ?b then _ else _] => destruct b eqn:?
      end;
    unfold ctx_of; simpl; intros [= <-]; simpl; auto;
    try (pose proof (to_flag_le e); lia);
    try (apply N.ltb_ge in Heqb; simpl in Heqb; lia).
Qed.

Lemma wf_switch_set_controller_only (c c' : aj_switch_ctx_t) (v : N) :
  wf_switch c -> aj_switch_set_controller_only (Some c) v = Some c' -> wf_switch c'.
Proof.
  unfold wf_switch. intros (He & Hm & Hc) [= <-]. simpl.
  pose proof (to_flag_le v). lia.
Qed.

Lemma wf_switch_reset (c c' : aj_switch_ctx_t) :
  aj_switch_reset (Some c) = Some c' -> wf_switch c'.
Proof. intros [= <-]. unfold wf_switch. simpl. lia. Qed.

(** A set-operation either leaves the context as it was and calls nothing,
    or assigns a different value to [enabled] or [mode] and calls the
    registered callback once. *)
Lemma run_set_op_cases (op : set_op) (c : aj_switch_ctx_t)
    (f : aj_switch_notify_cb_t) (t : N) :
  cb c = Some f ->
  let o := run_set_op op (Some c) t in
  (ctx_of o = Some c /\ calls_of o = [] /\ ret_of o <> AJ_SW_RET_OK) \/
  (exists c', ctx_of o = Some c' /\
     (enabled c' <> enabled c \/ mode c' <> mode c) /\
     calls_of o = [mk_notify_call f (enabled c') (mode c') t (cb_ctx c)] /\
     last_change_ms c' = t /\ ret_of o = AJ_SW_RET_OK).
Proof.
  intros Hcb.
  destruct op as [e | m | m | e]; simpl;
    unfold aj_switch_set_enabled, aj_switch_set_mode_local,
      aj_switch_set_mode_from_controller, aj_switch_request_enable_from_controller;
    repeat match goal with
      | |- context [if ?b then _ else _] => destruct b eqn:?
      end;
    try (left; unfold ctx_of, calls_of, ret_of; simpl; repeat split; congruence);
    right; eexists; unfold ctx_of, calls_of, ret_of; simpl; rewrite Hcb;
    (split; [reflexivity |]); (split; [| auto]).
  - left. simpl. apply N.eqb_neq in Heqb. congruence.
  - right. simpl. apply N.eqb_neq in Heqb1. congruence.
  - right. simpl. apply N.eqb_neq in Heqb0. congruence.
  - left. simpl. apply N.eqb_neq in Heqb. congruence.
Qed.

(** C5, as amended: with a callback registered, a set-operation invokes it
    if and only if it changed [enabled] or [mode]; and a call whose argument
    is the value the context already holds invokes nothing, leaves the
    context alone and returns NOCHANGE, except [aj_switch_set_mode_local]
    under the controller-only policy, which returns DENIED. *)
Theorem notify_iff_changed (op : set_op) (c : aj_switch_ctx_t)
    (f : aj_switch_notify_cb_t) (t : N) :
  cb c = Some f ->
  (calls_of (run_set_op op (Some c) t) <> [] <-> changed c (run_set_op op (Some c) t)) /\
  (wf_switch c -> arg_is_current op c ->
     calls_of (run_set_op op (Some c) t) = [] /\
     ctx_of (run_set_op op (Some c) t) = Some c /\
     ret_of (run_set_op op (Some c) t) =
       match op with
       | SetModeLocal _ =>
           if (controller_only c =? 0)%N then AJ_SW_RET_NOCHANGE else AJ_SW_RET_DENIED
       | _ => AJ_SW_RET_NOCHANGE
       end).
Proof.
  intros Hcb. split.
  - destruct (run_set_op_cases op c f t Hcb) as [(Hc & Hl & _) | (c' & Hc & Hch & Hl & _)];
      unfold changed; rewrite Hc, Hl.
    + split; [congruence | intros [H | H]; congruence].
    + split; [intros _; exact Hch | intros _; discriminate].
  - intros (He & Hm & Hco) Harg.
    destruct op as [e | m | m | e]; simpl in *; subst;
      unfold aj_switch_set_enabled, aj_switch_set_mode_local,
        aj_switch_set_mode_from_controller, aj_switch_request_enable_from_controller;
      rewrite ?to_flag_of_flag by assumption; rewrite ?N.eqb_refl;
      try (unfold calls_of, ctx_of, ret_of; simpl; auto; fail).
    + rewrite (mode_above_high_le (mode c) Hm).
      destruct (controller_only c =? 0)%N; simpl;
        rewrite ?N.eqb_refl; unfold calls_of, ctx_of, ret_of; simpl; auto.
    + rewrite (mode_above_high_le (mode c) Hm).
      unfold calls_of, ctx_of, ret_of; simpl; auto.
Qed.

Lemma notify_iff_changed_witness :
  (calls_of (run_set_op (SetModeFromController 2)
               (Some (mk_switch_ctx 1 2 0 7 (Some 1%positive) 0)) 9) <> [] <->
   changed (mk_switch_ctx 1 2 0 7 (Some 1%positive) 0)
     (run_set_op (SetModeFromController 2)
        (Some (mk_switch_ctx 1 2 0 7 (Some 1%positive) 0)) 9)) /\
  calls_of (run_set_op (SetModeFromController 2)
              (Some (mk_switch_ctx 1 2 0 7 (Some 1%positive) 0)) 9) = [] /\
  ret_of (run_set_op (SetModeFromController 2)
            (Some (mk_switch_ctx 1 2 0 7 (Some 1%positive) 0)) 9) = AJ_SW_RET_NOCHANGE.
Proof.
  pose proof (notify_iff_changed (SetModeFromController 2)
                (mk_switch_ctx 1 2 0 7 (Some 1%positive) 0) 1%positive 9 eq_refl)
    as [Hiff Hsame].
  split; [exact Hiff |].
  assert (Hwf : wf_switch (mk_switch_ctx 1 2 0 7 (Some 1%positive) 0))
    by (unfold wf_switch; simpl; lia).
  destruct (Hsame Hwf eq_refl) as (Hcalls & _ & Hret).
  split; [exact Hcalls | exact Hret].
Defined.

(** C5, as stated, fails: with controller-only set, a local mode request
    for the mode the context already holds is answered DENIED, not
    NOCHANGE. *)
Lemma set_mode_local_same_mode_not_nochange :
  wf_switch (mk_switch_ctx 0 1 1 0 (Some 1%positive) 0) /\
  arg_is_current (SetModeLocal 1) (mk_switch_ctx 0 1 1 0 (Some 1%positive) 0) /\
  ret_of (run_set_op (SetModeLocal 1)
            (Some (mk_switch_ctx 0 1 1 0 (Some 1%positive) 0)) 5) = AJ_SW_RET_DENIED /\
  ret_of (run_set_op (SetModeLocal 1)
            (Some (mk_switch_ctx 0 1 1 0 (Some 1%positive) 0)) 5) <> AJ_SW_RET_NOCHANGE.
Proof.
  unfold wf_switch, ret_of. simpl. repeat split; try lia; discriminate.
Qed.

(** C6: under the controller-only policy [aj_switch_set_mode_local], asked
    for any of the three modes, returns DENIED, leaves every field of the
    context as it was and does not invoke the notify callback. *)
Theorem set_mode_local_denied (c : aj_switch_ctx_t) (m : aj_switch_mode_t) (t : N) :
  controller_only c <> 0%N ->
  aj_switch_set_mode_local (Some c) (mode_code m) t = (AJ_SW_RET_DENIED, Some c, []).
Proof.
  intros Hco. unfold aj_switch_set_mode_local.
  rewrite mode_above_high_enum.
  apply N.eqb_neq in Hco. rewrite Hco. reflexivity.
Qed.

Lemma set_mode_local_denied_witness :
  aj_switch_set_mode_local
    (Some (mk_switch_ctx 1 0 1 3 (Some 1%positive) 0)) (mode_code AJ_SWITCH_MODE_HIGH) 8
  = (AJ_SW_RET_DENIED, Some (mk_switch_ctx 1 0 1 3 (Some 1%positive) 0), []).
Proof.
  apply (set_mode_local_denied (mk_switch_ctx 1 0 1 3 (Some 1%positive) 0)
           AJ_SWITCH_MODE_HIGH 8).
  simpl. discriminate.
Defined.




(** *** Further properties of the switch *)

Ltac unfold_setters :=
  unfold aj_switch_set_enabled, aj_switch_set_mode_local,
    aj_switch_set_mode_from_controller, aj_switch_request_enable_from_controller.

Lemma rc_read_us_clamped (ChannelData : list Z) (ch : Z) :
  1000 <= rc_read_us ChannelData ch <= 2000.
Proof.
  unfold rc_read_us. destruct ((ch <? 1) || (16 <? ch)); [lia |].
  set (us := Z.quot _ 1639 + 1000).
  destruct (Z.ltb_spec us 1000).
  - change (2000 <? 1000) with false. cbv iota. unfold u16.
    rewrite Z.mod_small; lia.
  - destruct (Z.ltb_spec 2000 us); unfold u16; rewrite Z.mod_small; lia.
Qed.

Lemma rc_read_us_value (ChannelData : list Z) (ch v : Z) :
  1 <= ch <= 16 -> ChannelData !! Z.to_nat (ch - 1) = Some v ->
  rc_read_us ChannelData ch
  = Z.max 1000 (Z.min 2000 (Z.quot ((v - 172) * 1000) 1639 + 1000)).
Proof.
  intros Hch Hv. unfold rc_read_us.
  destruct (Z.ltb_spec ch 1); [lia |]. destruct (Z.ltb_spec 16 ch); [lia |].
  cbn [orb]. rewrite Hv. cbn [default].
  set (us := Z.quot _ 1639 + 1000).
  destruct (Z.ltb_spec us 1000).
  - change (2000 <? 1000) with false. cbv iota. unfold u16.
    rewrite Z.mod_small; lia.
  - destruct (Z.ltb_spec 2000 us); unfold u16; rewrite Z.mod_small; lia.
Qed.

(** X1: [rc_read_us] always returns a pulse width between 1000 and 2000
    microseconds; an invalid channel number reads as the centre, 1500; on a
    valid channel every CRSF value up to 172 reads as 1000 and every value
    from 1811 on as 2000. *)
Theorem rc_read_us_bounds (ChannelData : list Z) (ch v : Z) :
  1000 <= rc_read_us ChannelData ch <= 2000 /\
  (ch < 1 \/ 16 < ch -> rc_read_us ChannelData ch = 1500) /\
  (1 <= ch <= 16 -> ChannelData !! Z.to_nat (ch - 1) = Some v ->
   (v <= 172 -> rc_read_us ChannelData ch = 1000) /\
   (1811 <= v -> rc_read_us ChannelData ch = 2000)).
Proof.
  split; [apply rc_read_us_clamped |]. split.
  - intros Hch. unfold rc_read_us.
    destruct (Z.ltb_spec ch 1); [reflexivity |].
    destruct (Z.ltb_spec 16 ch); [reflexivity | lia].
  - intros Hch Hv. rewrite (rc_read_us_value ChannelData ch v Hch Hv). split.
    + intros Hle.
      assert (H : Z.quot ((v - 172) * 1000) 1639 <= Z.quot 0 1639)
        by (apply Z.quot_le_mono; lia).
      rewrite Z.quot_0_l in H by lia. lia.
    + intros Hge.
      assert (H : Z.quot ((1811 - 172) * 1000) 1639 <= Z.quot ((v - 172) * 1000) 1639)
        by (apply Z.quot_le_mono; lia).
      change (Z.quot ((1811 - 172) * 1000) 1639) with 1000 in H. lia.
Qed.

Lemma rc_read_us_bounds_witness :
  rc_read_us [992; 100; 1811] 17 = 1500 /\
  rc_read_us [992; 100; 1811] 2 = 1000 /\
  rc_read_us [992; 1900; 1811] 2 = 2000.
Proof.
  split; [| split].
  - apply (proj1 (proj2 (rc_read_us_bounds [992; 100; 1811] 17 0))). lia.
  - apply (proj2 (proj2 (rc_read_us_bounds [992; 100; 1811] 2 100))
             ltac:(lia) eq_refl). lia.
  - apply (proj2 (proj2 (rc_read_us_bounds [992; 1900; 1811] 2 1900))
             ltac:(lia) eq_refl). lia.
Defined.

(** X2: on a valid channel [rc_read_us] is monotone in the CRSF value the
    channel holds. *)
Theorem rc_read_us_monotone (d1 d2 : list Z) (ch v1 v2 : Z) :
  1 <= ch <= 16 ->
  d1 !! Z.to_nat (ch - 1) = Some v1 -> d2 !! Z.to_nat (ch - 1) = Some v2 ->
  v1 <= v2 ->
  rc_read_us d1 ch <= rc_read_us d2 ch.
Proof.
  intros Hch H1 H2 Hle.
  rewrite (rc_read_us_value d1 ch v1 Hch H1), (rc_read_us_value d2 ch v2 Hch H2).
  assert (Z.quot ((v1 - 172) * 1000) 1639 <= Z.quot ((v2 - 172) * 1000) 1639)
    by (apply Z.quot_le_mono; lia).
  lia.
Qed.

Lemma rc_read_us_monotone_witness :
  rc_read_us [992; 172; 1811] 1 <= rc_read_us [1200; 0; 0] 1.
Proof.
  apply (rc_read_us_monotone [992; 172; 1811] [1200; 0; 0] 1 992 1200);
    [lia | reflexivity | reflexivity | lia].
Defined.

(** Every call of the API keeps [wf_switch]. *)
Lemma switch_do_call_wf (c c' : aj_switch_ctx_t) (k : switch_call) :
  mode_arg_nonneg k ->
  wf_switch c -> fst (switch_do_call (Some c) k) = Some c' -> wf_switch c'.
Proof.
  intros Harg Hwf. destruct k as [op t | v | | f u]; cbn [switch_do_call fst].
  - apply wf_switch_run_set_op; assumption.
  - apply wf_switch_set_controller_only, Hwf.
  - apply wf_switch_reset.
  - intros [= <-]. exact Hwf.
Qed.

Lemma switch_do_call_some (c : aj_switch_ctx_t) (k : switch_call) :
  exists c', fst (switch_do_call (Some c) k) = Some c'.
Proof.
  destruct k as [op t | v | | f u]; simpl; eauto.
  destruct op as [e | m | m | e]; simpl; unfold_setters;
    repeat match goal with
      | |- context [if ?b then _ else _] => destruct b
      end; unfold ctx_of; simpl; eauto.
Qed.

Lemma switch_do_calls_wf (ks : list switch_call) (c : aj_switch_ctx_t) :
  Forall mode_arg_nonneg ks -> wf_switch c ->
  exists c', fst (switch_do_calls (Some c) ks) = Some c' /\ wf_switch c'.
Proof.
  revert c. induction ks as [| k rest IH]; intros c Hks Hwf.
  - exists c. split; [reflexivity | exact Hwf].
  - inversion Hks as [| ? ? Hk Hrest]; subst. cbn [switch_do_calls].
    destruct (switch_do_call_some c k) as (c1 & Hc1).
    pose proof (switch_do_call_wf c c1 k Hk Hwf Hc1) as Hwf1.
    destruct (switch_do_call (Some c) k) as [o1 l1]. simpl in Hc1. subst o1.
    destruct (IH c1 Hrest Hwf1) as (c2 & Hc2 & Hwf2).
    destruct (switch_do_calls (Some c1) rest) as [o2 l2]. simpl in *.
    exists c2. auto.
Qed.

(** X3: after [aj_switch_init] and any sequence of API calls whose mode
    arguments are not negative as an [int] (codes below [2^31], the three
    enumerators among them), the context is there and holds [enabled] and
    [controller_only] in {0, 1} and one of the three modes.  The bound on
    the arguments is needed: the range check compares promoted [int]s, and a
    code with bit 31 set passes it and is stored. *)
Theorem switch_state_always_valid (ks : list switch_call) :
  Forall mode_arg_nonneg ks ->
  exists c,
    fst (switch_do_calls (Some aj_switch_init) ks) = Some c /\
    (enabled c = 0 \/ enabled c = 1)%N /\
    (controller_only c = 0 \/ controller_only c = 1)%N /\
    (exists m, mode c = mode_code m).
Proof.
  intros Hks.
  destruct (switch_do_calls_wf ks aj_switch_init Hks wf_switch_init)
    as (c & Hc & (He & Hm & Hco)).
  exists c. split; [exact Hc |]. repeat split; try lia.
  destruct (N.eq_dec (mode c) 0%N) as [H0 | H0];
    [exists AJ_SWITCH_MODE_AUTO; exact H0 |].
  destruct (N.eq_dec (mode c) 1%N) as [H1 | H1];
    [exists AJ_SWITCH_MODE_LOW; exact H1 |].
  exists AJ_SWITCH_MODE_HIGH. simpl. lia.
Qed.

Lemma switch_state_always_valid_witness :
  exists c,
    fst (switch_do_calls (Some aj_switch_init)
           [CallSet (SetModeLocal 2) 5; CallSet (SetModeFromController 7) 6;
            CallSetControllerOnly 9; CallSet (SetEnabled 4) 8]) = Some c /\
    (enabled c = 0 \/ enabled c = 1)%N /\
    (controller_only c = 0 \/ controller_only c = 1)%N /\
    (exists m, mode c = mode_code m).
Proof.
  apply (switch_state_always_valid
           [CallSet (SetModeLocal 2) 5; CallSet (SetModeFromController 7) 6;
            CallSetControllerOnly 9; CallSet (SetEnabled 4) 8]).
  repeat (apply List.Forall_cons; [simpl; try exact I; lia |]).
  apply List.Forall_nil.
Defined.

(** Without the bound the invariant is lost: both mode setters store the
    code [0xFFFFFFFF], which is none of the three modes. *)
Example sign_bit_mode_is_stored :
  fst (switch_do_calls (Some aj_switch_init) [CallSet (SetModeLocal 4294967295) 5])
    = Some (mk_switch_ctx 0 4294967295 0 5 None 0) /\
  fst (switch_do_calls (Some aj_switch_init)
         [CallSet (SetModeFromController 4294967295) 5])
    = Some (mk_switch_ctx 0 4294967295 0 5 None 0).
Proof. split; vm_compute; reflexivity. Qed.

(** X4: a set-operation returns OK exactly when it changed [enabled] or
    [mode]; then it stamps [last_change_ms] with the time of the call and
    leaves the policy bit and the callback registration alone; with any
    other return code the context is untouched. *)
Theorem set_op_ok_iff_changed (op : set_op) (c : aj_switch_ctx_t) (t : N) :
  (ret_of (run_set_op op (Some c) t) = AJ_SW_RET_OK <->
   changed c (run_set_op op (Some c) t)) /\
  (ret_of (run_set_op op (Some c) t) <> AJ_SW_RET_OK ->
   ctx_of (run_set_op op (Some c) t) = Some c) /\
  (ret_of (run_set_op op (Some c) t) = AJ_SW_RET_OK ->
   exists c', ctx_of (run_set_op op (Some c) t) = Some c' /\
              last_change_ms c' = t /\
              controller_only c' = controller_only c /\
              cb c' = cb c /\ cb_ctx c' = cb_ctx c).
Proof.
  destruct op as [e | m | m | e]; simpl; unfold_setters;
    repeat match goal with
      | |- context [if ?b then _ else _] => destruct b eqn:?
      end;
    unfold changed, ctx_of, ret_of; simpl;
    repeat match goal with
      | H : (_ =? _)%N = true |- _ => apply N.eqb_eq in H
      | H : (_ =? _)%N = false |- _ => apply N.eqb_neq in H
      end;
    (split; [split; [intros H; try discriminate; auto
                    | intros [H | H]; congruence] |]);
    (split; [intros H; congruence |]);
    intros H; try discriminate; eexists; repeat split.
Qed.

Lemma set_op_ok_iff_changed_witness :
  ret_of (run_set_op (SetEnabled 5) (Some (mk_switch_ctx 0 1 1 3 None 0)) 40)
    = AJ_SW_RET_OK /\
  ctx_of (run_set_op (SetEnabled 5) (Some (mk_switch_ctx 0 1 1 3 None 0)) 40)
    = Some (mk_switch_ctx 1 1 1 40 None 0) /\
  ctx_of (run_set_op (SetModeLocal 2) (Some (mk_switch_ctx 0 1 1 3 None 0)) 40)
    = Some (mk_switch_ctx 0 1 1 3 None 0).
Proof.
  pose proof (set_op_ok_iff_changed (SetEnabled 5) (mk_switch_ctx 0 1 1 3 None 0) 40)
    as (Hiff & _ & Hok).
  pose proof (set_op_ok_iff_changed (SetModeLocal 2) (mk_switch_ctx 0 1 1 3 None 0) 40)
    as (_ & Hsame & _).
  assert (Hret : ret_of (run_set_op (SetEnabled 5)
                           (Some (mk_switch_ctx 0 1 1 3 None 0)) 40) = AJ_SW_RET_OK).
  { apply Hiff. left. simpl. discriminate. }
  split; [exact Hret |]. split.
  - destruct (Hok Hret) as (c' & Hc' & _). reflexivity.
  - apply Hsame. simpl. discriminate.
Defined.

(** X5: the controller-originated operations take no notice of the
    controller-only policy: whatever [controller_only] holds, a mode that
    differs from the current one is set and an enable flag that differs
    from the current one is applied, both with OK, and the policy bit is
    not touched. *)
Theorem controller_requests_bypass_policy (c : aj_switch_ctx_t)
    (m : aj_switch_mode_t) (e t : N) :
  (mode c <> mode_code m ->
   ret_of (aj_switch_set_mode_from_controller (Some c) (mode_code m) t) = AJ_SW_RET_OK /\
   aj_switch_get_mode
     (ctx_of (aj_switch_set_mode_from_controller (Some c) (mode_code m) t))
     = mode_code m /\
   aj_switch_is_controller_only
     (ctx_of (aj_switch_set_mode_from_controller (Some c) (mode_code m) t))
     = controller_only c) /\
  (enabled c <> to_flag e ->
   ret_of (aj_switch_request_enable_from_controller (Some c) e t) = AJ_SW_RET_OK /\
   aj_switch_is_enabled
     (ctx_of (aj_switch_request_enable_from_controller (Some c) e t))
     = to_flag e /\
   aj_switch_is_controller_only
     (ctx_of (aj_switch_request_enable_from_controller (Some c) e t))
     = controller_only c).
Proof.
  split.
  - intros Hne. unfold aj_switch_set_mode_from_controller.
    rewrite mode_above_high_enum.
    apply N.eqb_neq in Hne. rewrite Hne. unfold ret_of, ctx_of. simpl. auto.
  - intros Hne. unfold aj_switch_request_enable_from_controller.
    apply N.eqb_neq in Hne. rewrite Hne. unfold ret_of, ctx_of. simpl. auto.
Qed.

Lemma controller_requests_bypass_policy_witness :
  ret_of (aj_switch_set_mode_from_controller
            (Some (mk_switch_ctx 0 0 1 0 None 0)) 2 9) = AJ_SW_RET_OK /\
  ret_of (aj_switch_request_enable_from_controller
            (Some (mk_switch_ctx 0 0 1 0 None 0)) 1 9) = AJ_SW_RET_OK.
Proof.
  pose proof (controller_requests_bypass_policy (mk_switch_ctx 0 0 1 0 None 0)
                AJ_SWITCH_MODE_HIGH 1 9) as [Hm He].
  split.
  - apply Hm. simpl. discriminate.
  - apply He. simpl. discriminate.
Defined.

(** X6: the local and the controller entry points differ in the policy
    check of [aj_switch_set_mode_local] and in nothing else:
    [aj_switch_set_enabled] behaves as
    [aj_switch_request_enable_from_controller] on every input, so the
    controller-only policy never blocks a local enable or disable; and
    while the policy is off [aj_switch_set_mode_local] behaves as
    [aj_switch_set_mode_from_controller]. *)
Theorem local_and_controller_entry_points (ctx : option aj_switch_ctx_t)
    (c : aj_switch_ctx_t) (v t : N) :
  aj_switch_set_enabled ctx v t = aj_switch_request_enable_from_controller ctx v t /\
  (controller_only c = 0%N ->
   aj_switch_set_mode_local (Some c) v t
   = aj_switch_set_mode_from_controller (Some c) v t).
Proof.
  split; [reflexivity |].
  intros Hco. unfold aj_switch_set_mode_local, aj_switch_set_mode_from_controller.
  rewrite Hco. simpl. reflexivity.
Qed.

Lemma local_and_controller_entry_points_witness :
  aj_switch_set_mode_local (Some (mk_switch_ctx 1 0 0 0 (Some 1%positive) 4)) 2 9
  = aj_switch_set_mode_from_controller
      (Some (mk_switch_ctx 1 0 0 0 (Some 1%positive) 4)) 2 9.
Proof.
  apply (proj2 (local_and_controller_entry_points None
                  (mk_switch_ctx 1 0 0 0 (Some 1%positive) 4) 2 9)).
  reflexivity.
Defined.

(** X7: what a setter is given is what the getters read back: after
    [aj_switch_set_enabled] the enabled flag is the normalised argument,
    whether the call changed anything or not; after
    [aj_switch_set_mode_from_controller] with one of the three modes the
    mode is that mode; after [aj_switch_set_controller_only] the policy
    bit is the normalised argument; and [aj_switch_get_status] reports the
    same four values as the getters and the context. *)
Theorem setters_read_back (c : aj_switch_ctx_t) (m : aj_switch_mode_t) (v t : N) :
  aj_switch_is_enabled (ctx_of (aj_switch_set_enabled (Some c) v t)) = to_flag v /\
  aj_switch_get_mode
    (ctx_of (aj_switch_set_mode_from_controller (Some c) (mode_code m) t))
    = mode_code m /\
  aj_switch_is_controller_only (aj_switch_set_controller_only (Some c) v) = to_flag v /\
  aj_switch_get_status (Some c)
  = Some (mk_switch_status (aj_switch_is_enabled (Some c)) (aj_switch_get_mode (Some c))
            (aj_switch_is_controller_only (Some c)) (last_change_ms c)).
Proof.
  split; [| split; [| split; reflexivity]].
  - unfold aj_switch_set_enabled.
    destruct (N.eqb_spec (enabled c) (to_flag v)) as [He | _];
      unfold ctx_of; simpl; auto.
  - unfold aj_switch_set_mode_from_controller.
    rewrite mode_above_high_enum.
    destruct (N.eqb_spec (mode c) (mode_code m)) as [He | _];
      unfold ctx_of; simpl; auto.
Qed.

(** X8: [aj_switch_reset] restores the defaults (disabled, AUTO, policy
    off, timestamp 0) and keeps the callback registration; the next local
    request for LOW or HIGH is therefore accepted and is notified to the
    callback that was registered before the reset. *)
Theorem reset_restores_defaults (c : aj_switch_ctx_t) (f : aj_switch_notify_cb_t)
    (m : aj_switch_mode_t) (t : N) :
  cb c = Some f ->
  m <> AJ_SWITCH_MODE_AUTO ->
  aj_switch_reset (Some c)
    = Some (mk_switch_ctx 0 (mode_code AJ_SWITCH_MODE_AUTO) 0 0 (Some f) (cb_ctx c)) /\
  aj_switch_set_mode_local (aj_switch_reset (Some c)) (mode_code m) t
    = (AJ_SW_RET_OK,
       Some (mk_switch_ctx 0 (mode_code m) 0 t (Some f) (cb_ctx c)),
       [mk_notify_call f 0 (mode_code m) t (cb_ctx c)]).
Proof.
  intros Hcb Hm. destruct c as [en md co lc cbf cx]. simpl in *. subst cbf.
  split; [reflexivity |].
  destruct m; [congruence | reflexivity | reflexivity].
Qed.

Lemma reset_restores_defaults_witness :
  aj_switch_set_mode_local
    (aj_switch_reset (Some (mk_switch_ctx 1 2 1 77 (Some 3%positive) 5)))
    (mode_code AJ_SWITCH_MODE_LOW) 80
  = (AJ_SW_RET_OK, Some (mk_switch_ctx 0 1 0 80 (Some 3%positive) 5),
     [mk_notify_call 3%positive 0 1 80 5]).
Proof.
  apply (proj2 (reset_restores_defaults (mk_switch_ctx 1 2 1 77 (Some 3%positive) 5)
                  3%positive AJ_SWITCH_MODE_LOW 80 eq_refl ltac:(discriminate))).
Defined.

(** X9: on a [NULL] context every setter returns INVALID without calling
    anything, the other operations do nothing, and the getters return
    their defaults: disabled, AUTO, policy off, no status. *)
Theorem null_context_is_rejected (op : set_op) (v t : N)
    (f : option aj_switch_notify_cb_t) :
  run_set_op op None t = (AJ_SW_RET_INVALID, None, []) /\
  aj_switch_set_controller_only None v = None /\
  aj_switch_reset None = None /\
  aj_switch_register_notify_cb None f v = None /\
  aj_switch_is_enabled None = 0%N /\
  aj_switch_get_mode None = mode_code AJ_SWITCH_MODE_AUTO /\
  aj_switch_is_controller_only None = 0%N /\
  aj_switch_get_status None = None.
Proof. destruct op; repeat split. Qed.

End SwitchProofs.

(* --------------------------------------------------------------------- *)
(** ** Frequency map and Glock                                            *)
(* --------------------------------------------------------------------- *)

Module FhssProofs.
Import Fhss.

Lemma FREQ_SPREAD_SCALE_pos (r : radio_class) : 1 <= FREQ_SPREAD_SCALE r <= 256.
Proof. destruct r; simpl; lia. Qed.

Lemma u32_le_self (x : Z) : 0 <= x -> 0 <= u32 x <= x.
Proof.
  intros H. unfold u32. split.
  - apply Z.mod_pos_bound. lia.
  - apply Z.mod_le; lia.
Qed.

(** The hop offset [spread * s / scale], computed in [uint32_t], stays
    within the width [d] of the band for every spread that does not exceed
    [d * scale / (n - 1)], whether or not the product wraps. *)
Lemma hop_offset_le (scale d n spread s : Z) :
  1 <= scale -> 0 <= d -> 2 <= n ->
  0 <= spread <= d * scale / (n - 1) ->
  0 <= s < n ->
  0 <= u32 (spread * s) / scale <= d.
Proof.
  intros Hsc Hd Hn Hsp Hs.
  assert (Hq : d * scale / (n - 1) * (n - 1) <= d * scale).
  { rewrite Z.mul_comm. apply Z.mul_div_le. lia. }
  assert (Hx : 0 <= spread * s <= d * scale) by nia.
  pose proof (u32_le_self (spread * s) (proj1 Hx)) as Hu.
  split.
  - apply Z.div_pos; lia.
  - transitivity (d * scale / scale).
    + apply Z.div_le_mono; lia.
    + rewrite Z.div_mul by lia. lia.
Qed.

(** The spread of section 4.B, as stored, is within that bound. *)
Lemma band_freq_spread_le (r : radio_class) (b : fhss_config_t) :
  band_ok b ->
  0 <= band_freq_spread r b
    <= (freq_stop b - freq_start b) * FREQ_SPREAD_SCALE r / (freq_count b - 1).
Proof.
  intros (Hs & He & Hc & Hle & Hn). unfold band_freq_spread, in_u32 in *.
  pose proof (FREQ_SPREAD_SCALE_pos r) as Hsc.
  rewrite (u32_small (freq_stop b - freq_start b)) by (unfold in_u32; lia).
  rewrite (u32_small (freq_count b - 1)) by (unfold in_u32; lia).
  set (d := freq_stop b - freq_start b) in *.
  pose proof (u32_le_self (d * FREQ_SPREAD_SCALE r) ltac:(nia)) as Hu.
  pose proof (u32_range (d * FREQ_SPREAD_SCALE r)) as Hr. unfold in_u32 in Hr.
  assert (Hq : 0 <= u32 (d * FREQ_SPREAD_SCALE r) / (freq_count b - 1)
               <= u32 (d * FREQ_SPREAD_SCALE r)).
  { split; [apply Z.div_pos; lia |]. apply Z.div_le_upper_bound; nia. }
  rewrite u32_small by (unfold in_u32; lia).
  split; [lia |]. apply Z.div_le_mono; lia.
Qed.

Lemma band_hop_in_band (r : radio_class) (b : fhss_config_t) (spread s : Z) :
  band_ok b ->
  spread = band_freq_spread r b ->
  0 <= s < freq_count b ->
  freq_start b <= u32 (freq_start b + u32 (spread * s) / FREQ_SPREAD_SCALE r)
    <= freq_stop b.
Proof.
  intros Hok -> Hs.
  pose proof (band_freq_spread_le r b Hok) as Hsp.
  destruct Hok as (Hst & He & Hc & Hle & Hn). unfold in_u32 in *.
  pose proof (FREQ_SPREAD_SCALE_pos r) as Hsc.
  pose proof (hop_offset_le (FREQ_SPREAD_SCALE r) (freq_stop b - freq_start b)
                (freq_count b) (band_freq_spread r b) s
                ltac:(lia) ltac:(lia) Hn Hsp Hs) as Hoff.
  rewrite u32_small by (unfold in_u32; lia). lia.
Qed.

(** C8: with zero frequency correction and the spread of section 4.B, the
    frequency map sends every sequence index whose channel is below the
    channel count of the band in use into [freq_start, freq_stop] of that
    band; so does the frequency [FHSSgetNextFreq] returns. *)
Theorem freq_in_band (r : radio_class) (g : fhss_globals) :
  band_ok (active_band g) ->
  active_spread g = band_freq_spread r (active_band g) ->
  FreqCorrection g = 0 ->
  (forall i : Z,
     0 <= seq_at (active_sequence g) i < freq_count (active_band g) ->
     freq_start (active_band g) <= freq_at r g i <= freq_stop (active_band g)) /\
  (0 <= seq_at (active_sequence g) (FHSSptr (fst (FHSSgetNextFreq r g)))
     < freq_count (active_band g) ->
   freq_start (active_band g) <= snd (FHSSgetNextFreq r g) <= freq_stop (active_band g)).
Proof.
  intros Hok Hspread Hcorr.
  assert (Hmap : forall i : Z,
     0 <= seq_at (active_sequence g) i < freq_count (active_band g) ->
     freq_start (active_band g) <= freq_at r g i <= freq_stop (active_band g)).
  { intros i Hi.
    unfold freq_at, active_band, active_spread, active_sequence in *.
    destruct (FHSSusePrimaryFreqBand g).
    - pose proof (band_hop_in_band r _ _ _ Hok Hspread Hi) as Hb.
      unfold primary_freq. rewrite Hcorr.
      destruct r; try exact Hb.
      rewrite Z.sub_0_r. rewrite (u32_small (u32 _)) by apply u32_range. exact Hb.
    - exact (band_hop_in_band r _ _ _ Hok Hspread Hi). }
  split; [exact Hmap |].
  intros Hi. destruct g; simpl in *.
  unfold freq_at in *; simpl in *. apply (Hmap _ Hi).
Qed.

Lemma freq_in_band_witness :
  2400 <= freq_at RADIO_LR1121
            (mk_fhss_globals 0 0 0 0 4 10 [0; 3; 1; 2] (mk_fhss_config 2400 2430 4 2415)
               true false 0 0 [] (mk_fhss_config 0 0 0 0) 0 0) 1 <= 2430.
Proof.
  refine (proj1 (freq_in_band RADIO_LR1121
            (mk_fhss_globals 0 0 0 0 4 10 [0; 3; 1; 2] (mk_fhss_config 2400 2430 4 2415)
               true false 0 0 [] (mk_fhss_config 0 0 0 0) 0 0) _ _ _) 1 _).
  - unfold band_ok, in_u32; simpl; lia.
  - reflexivity.
  - reflexivity.
  - simpl. unfold seq_at. simpl. lia.
Defined.

(** The first call of a cycle advances the cursor and disarms the barrier. *)
Lemma first_hop_advances (r : radio_class) (g : fhss_globals) (id : Z) :
  0 < FHSSgetSequenceCount g <= FHSS_SEQUENCE_LEN ->
  FHSSHopNextSynced r (FHSSBeginHopCycle g) id
  = (after_cycle g, synced_freq r (after_cycle g) id).
Proof.
  intros Hn. unfold FHSSHopNextSynced, after_cycle.
  assert (Hc : FHSSgetSequenceCount (FHSSBeginHopCycle g) = FHSSgetSequenceCount g)
    by reflexivity.
  assert (Hp : FHSSptrSynced (FHSSBeginHopCycle g) = FHSSptrSynced g) by reflexivity.
  assert (Ha : FHSSHopCycleArmed (FHSSBeginHopCycle g) = 1) by reflexivity.
  rewrite Ha, Hc, Hp. simpl (1 =? 0).
  rewrite u8_small; [reflexivity |].
  unfold in_u8, FHSS_SEQUENCE_LEN in *.
  pose proof (Z.mod_pos_bound (FHSSptrSynced g + 1) (FHSSgetSequenceCount g)). lia.
Qed.

(** Once the barrier is disarmed, calls leave the globals alone. *)
Lemma disarmed_hop_calls (r : radio_class) (g : fhss_globals) (ids : list Z) :
  FHSSHopCycleArmed g = 0 ->
  hop_calls r g ids = (g, map (synced_freq r g) ids).
Proof.
  intros Ha. induction ids as [| id rest IH]; cbn [hop_calls map]; [reflexivity |].
  assert (Hstep : FHSSHopNextSynced r g id = (g, synced_freq r g id)).
  { unfold FHSSHopNextSynced. rewrite Ha. reflexivity. }
  rewrite Hstep, IH. reflexivity.
Qed.

(** C1: whatever the number of [FHSSHopNextSynced] calls that follow one
    [FHSSBeginHopCycle], and whichever radios make them in whichever order,
    the synced cursor ends one step further, modulo the sequence length,
    and every call returns its radio's frequency at that advanced cursor. *)
Theorem glock_single_advance (r : radio_class) (g : fhss_globals) (ids : list Z) :
  0 < FHSSgetSequenceCount g <= FHSS_SEQUENCE_LEN ->
  ids <> [] ->
  FHSSptrSynced (after_cycle g) = (FHSSptrSynced g + 1) mod FHSSgetSequenceCount g /\
  FHSSGetSyncedIndex (fst (hop_calls r (FHSSBeginHopCycle g) ids))
    = (FHSSptrSynced g + 1) mod FHSSgetSequenceCount g /\
  hop_calls r (FHSSBeginHopCycle g) ids
    = (after_cycle g, map (synced_freq r (after_cycle g)) ids).
Proof.
  intros Hn Hne.
  assert (Hrun : hop_calls r (FHSSBeginHopCycle g) ids
                 = (after_cycle g, map (synced_freq r (after_cycle g)) ids)).
  { destruct ids as [| id rest]; [congruence |].
    cbn [hop_calls map]. rewrite (first_hop_advances r g id Hn).
    rewrite (disarmed_hop_calls r (after_cycle g) rest) by reflexivity.
    reflexivity. }
  split; [reflexivity |]. split; [| exact Hrun].
  rewrite Hrun. reflexivity.
Qed.

Lemma glock_single_advance_witness :
  hop_calls RADIO_SX128X
    (FHSSBeginHopCycle
       (mk_fhss_globals 0 0 0 0 4 256 [0; 3; 1; 2] (mk_fhss_config 1000 1003 4 1001)
          true false 0 0 [] (mk_fhss_config 0 0 0 0) 0 41))
    [1; 0; 0; 1]
  = (mk_fhss_globals 0 1 0 0 4 256 [0; 3; 1; 2] (mk_fhss_config 1000 1003 4 1001)
       true false 0 0 [] (mk_fhss_config 0 0 0 0) 0 42,
     [1003; 1003; 1003; 1003]).
Proof.
  refine (proj2 (proj2 (glock_single_advance RADIO_SX128X
            (mk_fhss_globals 0 0 0 0 4 256 [0; 3; 1; 2] (mk_fhss_config 1000 1003 4 1001)
               true false 0 0 [] (mk_fhss_config 0 0 0 0) 0 41)
            [1; 0; 0; 1] _ _))).
  - unfold FHSSgetSequenceCount, FHSS_SEQUENCE_LEN; simpl; lia.
  - discriminate.
Defined.

(** *** Further properties of the frequency map *)

(** X10: [FHSSsetCurrIndex] puts both cursors on the value reduced modulo
    the sequence count: the two cursors agree, lie within the sequence and
    are what [FHSSgetCurrIndex] and [FHSSGetSyncedIndex] return. *)
Theorem set_curr_index_syncs (g : fhss_globals) (value : Z) :
  0 < FHSSgetSequenceCount g <= FHSS_SEQUENCE_LEN ->
  FHSSgetCurrIndex (FHSSsetCurrIndex value g) = value mod FHSSgetSequenceCount g /\
  FHSSGetSyncedIndex (FHSSsetCurrIndex value g)
    = FHSSgetCurrIndex (FHSSsetCurrIndex value g) /\
  0 <= FHSSgetCurrIndex (FHSSsetCurrIndex value g)
    < FHSSgetSequenceCount (FHSSsetCurrIndex value g).
Proof.
  intros Hn. unfold FHSS_SEQUENCE_LEN in Hn.
  pose proof (Z.mod_pos_bound value (FHSSgetSequenceCount g) ltac:(lia)) as Hb.
  assert (Hp : FHSSgetCurrIndex (FHSSsetCurrIndex value g)
               = value mod FHSSgetSequenceCount g).
  { unfold FHSSgetCurrIndex, FHSSsetCurrIndex. simpl.
    apply u8_small. unfold in_u8. lia. }
  split; [exact Hp |]. split; [reflexivity |].
  rewrite Hp. change (FHSSgetSequenceCount (FHSSsetCurrIndex value g))
    with (FHSSgetSequenceCount g). exact Hb.
Qed.

Lemma set_curr_index_syncs_witness :
  FHSSgetCurrIndex
    (FHSSsetCurrIndex 205
       (mk_fhss_globals 7 3 0 0 80 256 [] (mk_fhss_config 0 0 0 0)
          true false 0 0 [] (mk_fhss_config 0 0 0 0) 0 0)) = 45.
Proof.
  refine (proj1 (set_curr_index_syncs
            (mk_fhss_globals 7 3 0 0 80 256 [] (mk_fhss_config 0 0 0 0)
               true false 0 0 [] (mk_fhss_config 0 0 0 0) 0 0) 205 _)).
  unfold FHSSgetSequenceCount, FHSS_SEQUENCE_LEN. simpl. lia.
Defined.

Lemma next_freq_step (r : radio_class) (g : fhss_globals) :
  0 < FHSSgetSequenceCount g <= FHSS_SEQUENCE_LEN ->
  FHSSgetNextFreq r g
  = (set_FHSSptr ((FHSSptr g + 1) mod FHSSgetSequenceCount g) g,
     freq_at r g ((FHSSptr g + 1) mod FHSSgetSequenceCount g)).
Proof.
  intros Hn. unfold FHSS_SEQUENCE_LEN in Hn. unfold FHSSgetNextFreq.
  pose proof (Z.mod_pos_bound (FHSSptr g + 1) (FHSSgetSequenceCount g) ltac:(lia)).
  rewrite u8_small by (unfold in_u8; lia). reflexivity.
Qed.

Lemma next_freqs_run (r : radio_class) (n : nat) (g : fhss_globals) :
  0 < FHSSgetSequenceCount g <= FHSS_SEQUENCE_LEN ->
  0 <= FHSSptr g < FHSSgetSequenceCount g ->
  next_freqs r g n
  = (set_FHSSptr ((FHSSptr g + Z.of_nat n) mod FHSSgetSequenceCount g) g,
     map (fun k => freq_at r g ((FHSSptr g + Z.of_nat k + 1) mod FHSSgetSequenceCount g))
         (seq 0 n)).
Proof.
  revert g. induction n as [| n IH]; intros g Hn Hp.
  - cbn [next_freqs seq map]. rewrite Z.add_0_r, Z.mod_small by lia.
    destruct g; reflexivity.
  - cbn [next_freqs]. rewrite (next_freq_step r g Hn).
    set (g1 := set_FHSSptr ((FHSSptr g + 1) mod FHSSgetSequenceCount g) g).
    assert (Hc : FHSSgetSequenceCount g1 = FHSSgetSequenceCount g) by reflexivity.
    assert (Hp1 : FHSSptr g1 = (FHSSptr g + 1) mod FHSSgetSequenceCount g) by reflexivity.
    rewrite (IH g1) by (rewrite ?Hc, ?Hp1; try assumption;
                        apply Z.mod_pos_bound; lia).
    rewrite Hc, Hp1. f_equal.
    + rewrite Zplus_mod_idemp_l.
      replace (FHSSptr g + 1 + Z.of_nat n) with (FHSSptr g + Z.of_nat (S n)) by lia.
      destruct g; reflexivity.
    + cbn [seq map]. f_equal.
      * rewrite Z.add_0_r. reflexivity.
      * rewrite <- List.seq_shift, List.map_map. apply List.map_ext. intros k.
        change (freq_at r g1) with (freq_at r g). f_equal.
        rewrite <- Z.add_assoc, Zplus_mod_idemp_l. f_equal. lia.
Qed.

(** X11: [n] calls of [FHSSgetNextFreq] move the cursor [n] steps round
    the sequence and return the frequencies of the [n] indices that follow
    the starting one, wrapping at the sequence count; the hop schedule
    therefore repeats with the sequence count as its period, and the synced
    cursor is never touched by this legacy path. *)
Theorem next_freq_walks_sequence (r : radio_class) (g : fhss_globals) (n : nat) :
  0 < FHSSgetSequenceCount g <= FHSS_SEQUENCE_LEN ->
  0 <= FHSSptr g < FHSSgetSequenceCount g ->
  FHSSgetCurrIndex (fst (next_freqs r g n))
    = (FHSSptr g + Z.of_nat n) mod FHSSgetSequenceCount g /\
  snd (next_freqs r g n)
    = map (fun k => freq_at r g ((FHSSptr g + Z.of_nat k + 1) mod FHSSgetSequenceCount g))
          (seq 0 n) /\
  FHSSGetSyncedIndex (fst (next_freqs r g n)) = FHSSGetSyncedIndex g /\
  (Z.of_nat n = FHSSgetSequenceCount g ->
   FHSSgetCurrIndex (fst (next_freqs r g n)) = FHSSptr g).
Proof.
  intros Hn Hp. rewrite (next_freqs_run r n g Hn Hp). cbn [fst snd].
  split; [reflexivity |]. split; [reflexivity |]. split; [reflexivity |].
  intros Hper. unfold FHSSgetCurrIndex. cbn [FHSSptr set_FHSSptr]. rewrite Hper.
  replace (FHSSptr g + FHSSgetSequenceCount g)
    with (FHSSptr g + 1 * FHSSgetSequenceCount g) by lia.
  rewrite Z.mod_add by lia. apply Z.mod_small. exact Hp.
Qed.

Lemma next_freq_walks_sequence_witness :
  snd (next_freqs RADIO_LR1121
         (mk_fhss_globals 2 0 0 0 4 10 [0; 3; 1; 2] (mk_fhss_config 2400 2430 4 2415)
            true false 0 0 [] (mk_fhss_config 0 0 0 0) 0 0) 5)
  = [2420; 2400; 2430; 2410; 2420].
Proof.
  refine (proj1 (proj2 (next_freq_walks_sequence RADIO_LR1121
            (mk_fhss_globals 2 0 0 0 4 10 [0; 3; 1; 2] (mk_fhss_config 2400 2430 4 2415)
               true false 0 0 [] (mk_fhss_config 0 0 0 0) 0 0) 5 _ _))).
  - unfold FHSSgetSequenceCount, FHSS_SEQUENCE_LEN. simpl. lia.
  - unfold FHSSgetSequenceCount. simpl. lia.
Defined.

(** Adding less than a full turn to an index never lands on it again. *)
Lemma offset_mod_ne (n i d : Z) :
  0 < n -> 0 <= i < n -> 0 < d < n -> (i + d) mod n <> i.
Proof.
  intros Hn Hi Hd Heq.
  pose proof (Z.div_mod (i + d) n ltac:(lia)) as Hdm. rewrite Heq in Hdm.
  assert (Hq : d = n * ((i + d) / n)) by lia.
  assert (0 < (i + d) / n < 1) by nia. lia.
Qed.

Lemma gemini_offset_value (g : fhss_globals) (idx : Z) :
  2 <= FHSSgetChannelCount g <= 256 -> 0 <= idx < FHSSgetChannelCount g ->
  gemini_offset_index g idx
  = (idx + FHSSgetChannelCount g / 2) mod FHSSgetChannelCount g.
Proof.
  intros Hn Hi. unfold gemini_offset_index.
  assert (Hh : 0 < FHSSgetChannelCount g / 2 < FHSSgetChannelCount g).
  { split; [apply Z.div_str_pos; lia | apply Z.div_lt; lia]. }
  rewrite u32_small by (unfold in_u32; lia).
  apply u8_small. unfold in_u8.
  pose proof (Z.mod_pos_bound (idx + FHSSgetChannelCount g / 2)
                (FHSSgetChannelCount g) ltac:(lia)). lia.
Qed.

(** X12: the channel [FHSSGeminiFreq] gives the second radio lies within
    the band's channels and is never the channel of the first radio; with
    an even channel count the offset is its own inverse, so the two radios
    of a pair see each other's channel. *)
Theorem gemini_channel_differs (g : fhss_globals) (idx : Z) :
  2 <= FHSSgetChannelCount g <= 256 ->
  0 <= idx < FHSSgetChannelCount g ->
  0 <= gemini_offset_index g idx < FHSSgetChannelCount g /\
  gemini_offset_index g idx <> idx /\
  (FHSSgetChannelCount g mod 2 = 0 ->
   gemini_offset_index g (gemini_offset_index g idx) = idx).
Proof.
  intros Hn Hi.
  assert (Hh : 0 < FHSSgetChannelCount g / 2 < FHSSgetChannelCount g).
  { split; [apply Z.div_str_pos; lia | apply Z.div_lt; lia]. }
  pose proof (Z.mod_pos_bound (idx + FHSSgetChannelCount g / 2)
                (FHSSgetChannelCount g) ltac:(lia)) as Hb.
  rewrite (gemini_offset_value g idx Hn Hi).
  split; [exact Hb |]. split.
  - apply offset_mod_ne; lia.
  - intros Heven.
    rewrite (gemini_offset_value g _ Hn Hb).
    rewrite Zplus_mod_idemp_l.
    pose proof (Z.div_mod (FHSSgetChannelCount g) 2 ltac:(lia)) as Hdm.
    replace (idx + FHSSgetChannelCount g / 2 + FHSSgetChannelCount g / 2)
      with (idx + 1 * FHSSgetChannelCount g) by lia.
    rewrite Z.mod_add by lia. apply Z.mod_small. exact Hi.
Qed.

Lemma gemini_channel_differs_witness :
  gemini_offset_index
    (mk_fhss_globals 0 0 0 0 80 0 [] (mk_fhss_config 0 0 80 0)
       true false 0 0 [] (mk_fhss_config 0 0 0 0) 0 0) 70 <> 70 /\
  gemini_offset_index
    (mk_fhss_globals 0 0 0 0 80 0 [] (mk_fhss_config 0 0 80 0)
       true false 0 0 [] (mk_fhss_config 0 0 0 0) 0 0)
    (gemini_offset_index
       (mk_fhss_globals 0 0 0 0 80 0 [] (mk_fhss_config 0 0 80 0)
          true false 0 0 [] (mk_fhss_config 0 0 0 0) 0 0) 70) = 70.
Proof.
  pose proof (gemini_channel_differs
                (mk_fhss_globals 0 0 0 0 80 0 [] (mk_fhss_config 0 0 80 0)
                   true false 0 0 [] (mk_fhss_config 0 0 0 0) 0 0) 70
                ltac:(unfold FHSSgetChannelCount; simpl; lia)
                ltac:(unfold FHSSgetChannelCount; simpl; lia)) as (_ & Hne & Hinv).
  split; [exact Hne | apply Hinv; reflexivity].
Defined.

(** The hop offset of a channel, whichever way round the product is
    written, keeps the frequency inside the band. *)
Lemma band_channel_in_band (r : radio_class) (b : fhss_config_t) (spread ch : Z) :
  band_ok b ->
  spread = band_freq_spread r b ->
  0 <= ch < freq_count b ->
  freq_start b <= u32 (freq_start b + u32 (ch * spread) / FREQ_SPREAD_SCALE r)
    <= freq_stop b.
Proof.
  intros Hok Hsp Hch. rewrite (Z.mul_comm ch spread).
  exact (band_hop_in_band r b spread ch Hok Hsp Hch).
Qed.

(** X13: with zero correction for the second radio and the spread of
    section 4.B, [FHSSGeminiFreq] returns a frequency inside the band in
    use for every channel of that band. *)
Theorem gemini_freq_in_band (r : radio_class) (g : fhss_globals) (idx : Z) :
  band_ok (active_band g) ->
  active_spread g = band_freq_spread r (active_band g) ->
  FreqCorrection_2 g = 0 ->
  freq_count (active_band g) <= 256 ->
  0 <= idx < freq_count (active_band g) ->
  freq_start (active_band g) <= FHSSGeminiFreq r g idx <= freq_stop (active_band g).
Proof.
  intros Hok Hspread Hcorr Hmax Hidx.
  assert (Hcount : FHSSgetChannelCount g = freq_count (active_band g))
    by (unfold FHSSgetChannelCount, active_band; destruct (FHSSusePrimaryFreqBand g);
        reflexivity).
  assert (Hn : 2 <= FHSSgetChannelCount g <= 256)
    by (rewrite Hcount; destruct Hok as (_ & _ & _ & _ & H2); lia).
  assert (Ho : 0 <= gemini_offset_index g idx < freq_count (active_band g)).
  { rewrite <- Hcount. rewrite (gemini_offset_value g idx Hn ltac:(lia)).
    apply Z.mod_pos_bound. lia. }
  unfold FHSSGeminiFreq, active_band, active_spread in *.
  destruct (FHSSusePrimaryFreqBand g).
  - pose proof (band_hop_in_band r _ _ _ Hok Hspread Ho) as Hb.
    rewrite Hcorr. destruct r; try exact Hb.
    rewrite Z.sub_0_r. rewrite (u32_small (u32 _)) by apply u32_range. exact Hb.
  - exact (band_hop_in_band r _ _ _ Hok Hspread Ho).
Qed.

Lemma gemini_freq_in_band_witness :
  2400 <= FHSSGeminiFreq RADIO_LR1121
            (mk_fhss_globals 0 0 0 0 4 10 [0; 3; 1; 2] (mk_fhss_config 2400 2430 4 2415)
               true false 0 0 [] (mk_fhss_config 0 0 0 0) 0 0) 3 <= 2430.
Proof.
  apply (gemini_freq_in_band RADIO_LR1121
           (mk_fhss_globals 0 0 0 0 4 10 [0; 3; 1; 2] (mk_fhss_config 2400 2430 4 2415)
              true false 0 0 [] (mk_fhss_config 0 0 0 0) 0 0) 3).
  - unfold band_ok, in_u32; simpl; lia.
  - reflexivity.
  - reflexivity.
  - simpl. lia.
  - simpl. lia.
Defined.

(** X14: while [FHSSonSyncChannel] holds, the frequency of the current
    sequence index is the initial (sync) frequency [FHSSgetInitialFreq]
    returns; and with no correction that frequency lies inside the band
    in use whenever the sync channel is one of the band's channels. *)
Theorem sync_channel_frequency (r : radio_class) (g : fhss_globals) (sy : fhss_sync) :
  (FHSSonSyncChannel g sy <> 0 ->
   freq_at r g (FHSSgetCurrIndex g) = FHSSgetInitialFreq r g sy) /\
  (band_ok (active_band g) ->
   active_spread g = band_freq_spread r (active_band g) ->
   FreqCorrection g = 0 ->
   0 <= (if FHSSusePrimaryFreqBand g then sync_channel sy else sync_channel_DualBand sy)
     < freq_count (active_band g) ->
   freq_start (active_band g) <= FHSSgetInitialFreq r g sy <= freq_stop (active_band g)).
Proof.
  split.
  - unfold FHSSonSyncChannel, freq_at, FHSSgetInitialFreq, FHSSgetCurrIndex,
      primary_freq, secondary_freq.
    destruct (FHSSusePrimaryFreqBand g).
    + destruct (Z.eqb_spec (seq_at (FHSSsequence g) (FHSSptr g)) (sync_channel sy))
        as [-> | _]; [| congruence].
      intros _. rewrite (Z.mul_comm (freq_spread g)). reflexivity.
    + destruct (Z.eqb_spec (seq_at (FHSSsequence_DualBand g) (FHSSptr g))
                  (sync_channel_DualBand sy)) as [-> | _]; [| congruence].
      intros _. rewrite (Z.mul_comm (freq_spread_DualBand g)). reflexivity.
  - intros Hok Hspread Hcorr Hsync.
    unfold FHSSgetInitialFreq, active_band, active_spread in *.
    destruct (FHSSusePrimaryFreqBand g).
    + pose proof (band_channel_in_band r _ _ _ Hok Hspread Hsync) as Hb.
      rewrite Hcorr. destruct r; try exact Hb.
      rewrite Z.sub_0_r. rewrite (u32_small (u32 _)) by apply u32_range. exact Hb.
    + exact (band_channel_in_band r _ _ _ Hok Hspread Hsync).
Qed.

Lemma sync_channel_frequency_witness :
  freq_at RADIO_SX128X
    (mk_fhss_globals 2 0 0 0 4 2560 [0; 3; 1; 2] (mk_fhss_config 2400 2430 4 2415)
       true false 0 0 [] (mk_fhss_config 0 0 0 0) 0 0) 2 = 2410 /\
  FHSSgetInitialFreq RADIO_SX128X
    (mk_fhss_globals 2 0 0 0 4 2560 [0; 3; 1; 2] (mk_fhss_config 2400 2430 4 2415)
       true false 0 0 [] (mk_fhss_config 0 0 0 0) 0 0) (mk_fhss_sync 1 0) = 2410 /\
  2400 <= FHSSgetInitialFreq RADIO_SX128X
            (mk_fhss_globals 2 0 0 0 4 2560 [0; 3; 1; 2] (mk_fhss_config 2400 2430 4 2415)
               true false 0 0 [] (mk_fhss_config 0 0 0 0) 0 0) (mk_fhss_sync 1 0)
    <= 2430.
Proof.
  pose proof (sync_channel_frequency RADIO_SX128X
                (mk_fhss_globals 2 0 0 0 4 2560 [0; 3; 1; 2]
                   (mk_fhss_config 2400 2430 4 2415)
                   true false 0 0 [] (mk_fhss_config 0 0 0 0) 0 0) (mk_fhss_sync 1 0))
    as [Hsync Hband].
  split; [reflexivity |]. split.
  - symmetry. apply Hsync. unfold FHSSonSyncChannel, seq_at. simpl. discriminate.
  - apply Hband.
    + unfold band_ok, in_u32; simpl; lia.
    + reflexivity.
    + reflexivity.
    + simpl. lia.
Defined.

End FhssProofs.

(* --------------------------------------------------------------------- *)
(** ** The anti-jam detector                                              *)
(* --------------------------------------------------------------------- *)

Module AntiJamProofs.
Import AntiJam.

(** Case analysis on every test of the goal. *)
Ltac break_if :=
  match goal with
  | |- context [if ?b then _ else _] => destruct b eqn:?
  end.

Ltac break_ifs := repeat break_if.

(** *** What the steps of a call leave alone *)

Lemma same_frame_refl (c : aj_ctx_t) : same_frame c c.
Proof. unfold same_frame. repeat split. Qed.

Lemma same_frame_trans (a b c : aj_ctx_t) :
  same_frame a b -> same_frame b c -> same_frame a c.
Proof. unfold same_frame. intuition congruence. Qed.

Lemma same_frame_pacing (c c' : aj_ctx_t) : same_frame c c' -> same_pacing c c'.
Proof. unfold same_frame, same_pacing. tauto. Qed.

Lemma same_pacing_trans (a b c : aj_ctx_t) :
  same_pacing a b -> same_pacing b c -> same_pacing a c.
Proof. unfold same_pacing. intuition congruence. Qed.

Lemma prune_step_frame (cutoff : Z) (c c' : aj_ctx_t) :
  prune_step cutoff c = Some c' -> same_frame c c'.
Proof.
  unfold prune_step. break_ifs; intros [= <-]; unfold same_frame; simpl; repeat split.
Qed.

Lemma prune_loop_frame (fuel : nat) (cutoff : Z) (c : aj_ctx_t) :
  same_frame c (prune_loop fuel cutoff c).
Proof.
  revert c. induction fuel as [| fuel IH]; intros c; simpl.
  - apply same_frame_refl.
  - destruct (prune_step cutoff c) as [c' |] eqn:Hs.
    + eapply same_frame_trans; [eapply prune_step_frame; eassumption | apply IH].
    + apply same_frame_refl.
Qed.

Lemma prune_old_by_time_frame (c : aj_ctx_t) (t : Z) :
  same_frame c (prune_old_by_time c t).
Proof.
  unfold prune_old_by_time. break_if.
  - apply prune_loop_frame.
  - apply same_frame_refl.
Qed.

Lemma ring_insert_frame (c : aj_ctx_t) (g t : Z) : same_frame c (ring_insert c g t).
Proof. unfold ring_insert. break_ifs; unfold same_frame; simpl; repeat split. Qed.

Ltac break_boundary :=
  repeat first
    [ break_if
    | match goal with
      | |- context [match state ?x with _ => _ end] => destruct (state x) eqn:?
      | |- context [let '(_, _) := calc_score ?x in _] =>
          destruct (calc_score x) as [[? ?] ?] eqn:?
      end ].

Lemma on_window_boundary_frame (c : aj_ctx_t) (t : Z) :
  same_frame c (on_window_boundary c t).
Proof.
  unfold on_window_boundary. break_boundary; unfold same_frame; simpl; repeat split.
Qed.

(** [maybe_fire_hop_callback] either does nothing, or records the time in
    [last_reco_ms] and makes one call; the latter only on a report that
    recommends a hop. *)
Lemma maybe_fire_cases (c : aj_ctx_t) (t : Z) :
  maybe_fire_hop_callback c t = (c, []) \/
  (exists f s,
     maybe_fire_hop_callback c t
       = (set_last_reco_ms t c, [mk_hop_call f s (hop_cb_ctx c) t]) /\
     hop_cb c = Some f /\ rpt_recommend_hop (last_report c) <> 0).
Proof.
  unfold maybe_fire_hop_callback.
  destruct (hop_cb c) as [f |]; [| left; reflexivity].
  destruct (Z.eqb_spec (rpt_recommend_hop (last_report c)) 0) as [He | Hne].
  - left; reflexivity.
  - right. eexists _, _. split; [reflexivity | auto].
Qed.

(** A report recommends a hop only if the time since the last
    recommendation has reached the configured minimum. *)
Lemma recommend_only_when_paced (c : aj_ctx_t) (t : Z) :
  rpt_recommend_hop (make_report c t) <> 0 ->
  min_time_between_reco_ms (cfg c) <= u32 (t - last_reco_ms c).
Proof.
  unfold make_report. destruct (calc_score c) as [[score total] bad]. simpl.
  destruct (Z.leb_spec (min_time_between_reco_ms (cfg c)) (u32 (t - last_reco_ms c)));
    [auto | congruence].
Qed.

(** The effect of a register call on the pacing fields. *)
Lemma register_call_cases (c : aj_ctx_t) (op : aj_call) (t : Z) :
  register_time op = Some t ->
  cfg (fst (do_call c op)) = cfg c /\
  ((snd (do_call c op) = [] /\ last_reco_ms (fst (do_call c op)) = last_reco_ms c) \/
   (fire_times (snd (do_call c op)) = [t] /\
    last_reco_ms (fst (do_call c op)) = t /\
    min_time_between_reco_ms (cfg c) <= u32 (t - last_reco_ms c))).
Proof.
  intros Ht.
  assert (Hmid : exists m, same_pacing c m /\
            do_call c op = maybe_fire_hop_callback (update_report m t) t).
  { destruct op as [g t' | t' | | | |]; simpl in Ht; try discriminate;
      injection Ht as ->; simpl.
    - unfold aj_register_packet.
      set (c1 := ring_insert (prune_old_by_time (set_last_now_ms t c) t) g t).
      assert (H1 : same_pacing c c1).
      { apply (same_pacing_trans _ (set_last_now_ms t c)); [split; reflexivity |].
        apply same_frame_pacing.
        eapply same_frame_trans; [apply prune_old_by_time_frame | apply ring_insert_frame]. }
      break_if.
      + eexists; split; [| reflexivity].
        eapply same_pacing_trans;
          [exact H1 | apply same_frame_pacing, on_window_boundary_frame].
      + eexists; split; [exact H1 | reflexivity].
    - unfold aj_register_external_jam. eexists; split; [| reflexivity].
      eapply same_pacing_trans;
        [| apply same_frame_pacing, prune_old_by_time_frame].
      split; reflexivity. }
  destruct Hmid as (m & (Hcfg & Hreco) & ->).
  destruct (maybe_fire_cases (update_report m t) t) as [-> | (f & s & -> & _ & Hrec)];
    simpl.
  - split; [exact Hcfg |]. left; auto.
  - split; [exact Hcfg |]. right. repeat split.
    apply recommend_only_when_paced in Hrec. congruence.
Qed.

(** *** Pacing of the callback *)

Lemma paced_run (ops : list aj_call) (c : aj_ctx_t) (lo : Z) :
  register_run lo ops ->
  paced (min_time_between_reco_ms (cfg c)) (fire_times (snd (do_calls c ops))) /\
  Forall (fun t => lo <= t /\ in_u32 t) (fire_times (snd (do_calls c ops))) /\
  match fire_times (snd (do_calls c ops)) with
  | t0 :: _ => min_time_between_reco_ms (cfg c) <= u32 (t0 - last_reco_ms c)
  | [] => True
  end.
Proof.
  revert c lo. induction ops as [| op rest IH]; intros c lo Hrun.
  - simpl. auto.
  - simpl in Hrun. destruct (register_time op) as [t |] eqn:Ht; [| contradiction].
    destruct Hrun as (Hlo & Hin & Hrest).
    destruct (register_call_cases c op t Ht) as (Hcfg & Hcase).
    cbn [do_calls]. destruct (do_call c op) as [c1 l1]. simpl in Hcfg, Hcase.
    specialize (IH c1 t Hrest). rewrite Hcfg in IH.
    destruct (do_calls c1 rest) as [c2 l2]. simpl in IH |- *.
    destruct IH as (Hp & Hall & Hhd).
    assert (Hall' : Forall (fun t0 => lo <= t0 /\ in_u32 t0) (fire_times l2)).
    { eapply Forall_impl; [exact Hall |]. simpl. intros a [Ha1 Ha2]. split; [lia | exact Ha2]. }
    unfold fire_times in *. rewrite map_app.
    destruct Hcase as [(-> & Hreco) | (Hl1 & Hreco & Hgap)].
    + simpl. rewrite Hreco in Hhd. auto.
    + rewrite Hl1. simpl. split; [| split].
      * destruct (map hc_now_ms l2) as [| t0 l2'] eqn:Hl2; [exact I |].
        split; [| exact Hp].
        rewrite Hreco in Hhd. inversion Hall as [| ? ? (Hge & Hr) _]; subst.
        rewrite u32_small in Hhd by (unfold in_u32 in *; lia). exact Hhd.
      * constructor; [split; [lia | exact Hin] | exact Hall'].
      * exact Hgap.
Qed.

(** C3: along any sequence of [aj_register_packet] and
    [aj_register_external_jam] calls whose times do not decrease, the times
    of two consecutive invocations of the hop callback differ by at least
    the [min_time_between_reco_ms] the context holds (the configured value,
    or 500 when 0 was configured). *)
Theorem callback_rate_limit (c : aj_ctx_t) (f : aj_hop_cb_t) (ops : list aj_call)
    (lo : Z) :
  hop_cb c = Some f ->
  register_run lo ops ->
  paced (min_time_between_reco_ms (cfg c)) (fire_times (snd (do_calls c ops))).
Proof.
  intros _ Hrun. exact (proj1 (paced_run ops c lo Hrun)).
Qed.

(** C9: on an empty ring the score is 0 whether or not the external-jam
    flag is set; in particular after [aj_register_external_jam] on an empty
    ring the flag is set and the reported score is 0. *)
Theorem empty_ring_score_zero (c : aj_ctx_t) :
  count c = 0 ->
  score_of c = 0 /\
  (forall t : Z,
     ext_jam_recent (fst (aj_register_external_jam c t)) = 1 /\
     count (fst (aj_register_external_jam c t)) = 0 /\
     rpt_score (last_report (fst (aj_register_external_jam c t))) = 0 /\
     rpt_score (aj_get_report (fst (aj_register_external_jam c t))) = 0).
Proof.
  intros Hc. split.
  - unfold score_of, calc_score. rewrite Hc. reflexivity.
  - intros t. unfold aj_register_external_jam, aj_get_report.
    set (c1 := set_ext_jam_since_ms t (set_ext_jam_recent 1 (set_last_now_ms t c))).
    assert (Hp : prune_old_by_time c1 t = c1).
    { unfold prune_old_by_time. break_if; [| reflexivity].
      replace (count c1) with 0 by (symmetry; exact Hc). reflexivity. }
    rewrite Hp.
    assert (Hs : rpt_score (make_report c1 t) = 0).
    { unfold make_report, calc_score.
      replace (count c1) with 0 by (symmetry; exact Hc). reflexivity. }
    destruct (maybe_fire_cases (update_report c1 t) t) as [-> | (f & s & -> & _)];
      simpl; auto.
Qed.

Lemma empty_ring_score_zero_witness :
  score_of (mk_ctx (scenario_cfg 0 0) 100 0 0 0 0 0 AJ_STATE_SUSPECT 0 0 1 0 0
              baseline_report None 0 (replicate 100 zero_entry)) = 0.
Proof.
  exact (proj1 (empty_ring_score_zero
           (mk_ctx (scenario_cfg 0 0) 100 0 0 0 0 0 AJ_STATE_SUSPECT 0 0 1 0 0
              baseline_report None 0 (replicate 100 zero_entry)) eq_refl)).
Defined.

(** By contrast, with packets in the window the flag lifts the score: ten
    good packets score 0, and 10 once an external jam is registered. *)
Example external_jam_bonus_with_packets :
  score_of (fst (do_calls (started 10 (mk_config 10 0 AJ_WINDOW_BY_COUNT 30 5 1 0 0 1))
                   (repeat (RegisterPacket 1 500) 10))) = 0 /\
  score_of (fst (do_calls (started 10 (mk_config 10 0 AJ_WINDOW_BY_COUNT 30 5 1 0 0 1))
                   (repeat (RegisterPacket 1 500) 10 ++ [RegisterExternalJam 500]))) = 10.
Proof. split; vm_compute; reflexivity. Qed.

(** *** Idempotence of the tick *)

Lemma on_window_boundary_ring (c : aj_ctx_t) (t : Z) :
  same_ring c (on_window_boundary c t).
Proof.
  unfold on_window_boundary. break_boundary; unfold same_ring; simpl; repeat split.
Qed.

(** Whether the pruning loop exits at once depends on the ring alone. *)
Lemma prune_step_none_ring (cutoff : Z) (c c' : aj_ctx_t) :
  same_ring c c' -> prune_step cutoff c = None -> prune_step cutoff c' = None.
Proof.
  intros (Hcap & Hcnt & Hhd & _ & Hes). unfold prune_step, tail_index.
  rewrite Hcap, Hcnt, Hhd, Hes. break_ifs; congruence.
Qed.

(** A turn of the pruning loop lowers [count]. *)
Lemma prune_step_count (cutoff : Z) (c c' : aj_ctx_t) :
  prune_step cutoff c = Some c' -> 0 <= count c' <= count c - 1.
Proof.
  unfold prune_step.
  destruct (Z.ltb_spec 0 (count c)) as [Hpos | _]; [| discriminate].
  assert (Hu : 0 <= u16 (count c - 1) <= count c - 1).
  { unfold u16. split; [apply Z.mod_pos_bound; lia | apply Z.mod_le; lia]. }
  break_ifs; intros [= <-]; simpl; exact Hu.
Qed.

(** [count] turns are enough: the loop has then reached its exit. *)
Lemma prune_loop_exits (fuel : nat) (cutoff : Z) (c : aj_ctx_t) :
  (Z.to_nat (count c) <= fuel)%nat ->
  prune_step cutoff (prune_loop fuel cutoff c) = None.
Proof.
  revert c. induction fuel as [| fuel IH]; intros c Hfuel; simpl.
  - unfold prune_step. destruct (Z.ltb_spec 0 (count c)); [lia | reflexivity].
  - destruct (prune_step cutoff c) as [c' |] eqn:Hs; [| exact Hs].
    apply IH. pose proof (prune_step_count _ _ _ Hs). lia.
Qed.

(** More turns than needed change nothing. *)
Lemma prune_loop_at_exit (fuel : nat) (cutoff : Z) (c : aj_ctx_t) :
  prune_step cutoff c = None -> prune_loop fuel cutoff c = c.
Proof. intros Hs. destruct fuel; simpl; [| rewrite Hs]; reflexivity. Qed.

Lemma window_dur_pos (c : aj_ctx_t) :
  0 <= window_duration_ms (cfg c) -> 0 < window_dur c.
Proof.
  unfold window_dur. destruct (Z.eqb_spec (window_duration_ms (cfg c)) 0); lia.
Qed.

(** After the window start has been moved forward by whole durations, less
    than one duration separates it from now. *)
Lemma window_advance (t ws dur : Z) :
  0 < dur ->
  dur <= u32 (t - ws) ->
  u32 (t - u32 (ws + u32 ((if u32 (t - ws) / dur =? 0 then 1 else u32 (t - ws) / dur)
                           * dur))) < dur.
Proof.
  intros Hdur Hle.
  pose proof (u32_range (t - ws)) as He. unfold in_u32 in He.
  set (e := u32 (t - ws)) in *.
  pose proof (Z.div_mod e dur ltac:(lia)) as Hdm.
  pose proof (Z.mod_pos_bound e dur Hdur) as Hr.
  assert (Hq : 1 <= e / dur) by (apply Z.div_le_lower_bound; lia).
  destruct (Z.eqb_spec (e / dur) 0) as [H0 | _]; [lia |].
  assert (Hprod : e / dur * dur = e - e mod dur) by lia.
  rewrite Hprod. rewrite (u32_small (e - e mod dur)) by (unfold in_u32; lia).
  unfold u32 at 1 2. rewrite Zminus_mod_idemp_r.
  replace (t - (ws + (e - e mod dur))) with ((t - ws) - (e - e mod dur)) by lia.
  rewrite <- Zminus_mod_idemp_l. fold (u32 (t - ws)). fold e.
  replace (e - (e - e mod dur)) with (e mod dur) by lia.
  rewrite Z.mod_small by lia. lia.
Qed.

Lemma tick_window_settled (c : aj_ctx_t) (t : Z) :
  0 <= window_duration_ms (cfg c) -> settled t (tick_window c t).
Proof.
  intros Hwd. unfold tick_window.
  destruct (is_by_time (window_mode (cfg c))) eqn:Hmode;
    [| unfold settled; congruence].
  set (c1 := prune_old_by_time c t).
  pose proof (prune_old_by_time_frame c t) as Hfr. fold c1 in Hfr.
  destruct Hfr as (Hcfg & _ & _ & _ & _ & Hws & _).
  assert (Hdur : window_dur c1 = window_dur c) by (unfold window_dur; rewrite Hcfg; reflexivity).
  assert (Hcut : prune_cutoff c1 t = prune_cutoff c t)
    by (unfold prune_cutoff; rewrite Hdur; reflexivity).
  assert (Hexit : prune_step (prune_cutoff c t) c1 = None).
  { unfold c1, prune_old_by_time. rewrite Hmode. apply prune_loop_exits. lia. }
  pose proof (window_dur_pos c Hwd) as Hpos.
  rewrite Hdur.
  destruct (Z.leb_spec (window_dur c) (u32 (t - window_start_ms c1))) as [Hle | Hlt].
  - set (c2 := set_window_start_ms _ c1).
    pose proof (on_window_boundary_frame c2 t) as (Hcfg3 & _ & _ & _ & _ & Hws3 & _).
    pose proof (on_window_boundary_ring c2 t) as Hring.
    intros _. split.
    + unfold prune_cutoff, window_dur. rewrite Hcfg3. fold (window_dur c2).
      fold (prune_cutoff c2 t).
      apply (prune_step_none_ring _ c2); [exact Hring |].
      apply (prune_step_none_ring _ c1); [unfold same_ring; simpl; repeat split |].
      change (prune_cutoff c2 t) with (prune_cutoff c1 t). rewrite Hcut. exact Hexit.
    + unfold window_dur at 1. rewrite Hcfg3. fold (window_dur c2).
      replace (window_dur c2) with (window_dur c) by (rewrite <- Hdur; reflexivity).
      rewrite Hws3. unfold c2. simpl.
      apply window_advance; assumption.
  - intros _. rewrite Hcut, Hdur. split; assumption.
Qed.

Lemma tick_window_fixed (c : aj_ctx_t) (t : Z) :
  settled t c -> tick_window c t = c.
Proof.
  unfold settled, tick_window. intros Hs.
  destruct (is_by_time (window_mode (cfg c))) eqn:Hmode; [| reflexivity].
  destruct (Hs eq_refl) as [Hexit Hlt].
  assert (Hp : prune_old_by_time c t = c).
  { unfold prune_old_by_time. rewrite Hmode. apply prune_loop_at_exit, Hexit. }
  rewrite Hp. destruct (Z.leb_spec (window_dur c) (u32 (t - window_start_ms c))); [lia |].
  reflexivity.
Qed.

(** Nothing is left for [tick_age_ext_jam] to do at time [t]. *)
Lemma tick_age_fixed (c : aj_ctx_t) (t : Z) :
  tick_age_ext_jam (tick_age_ext_jam c t) t = tick_age_ext_jam c t.
Proof.
  assert (H : tick_age_ext_jam c t = c \/
              tick_age_ext_jam c t = set_ext_jam_recent 0 c).
  { unfold tick_age_ext_jam. break_ifs; auto. }
  destruct H as [H | H]; rewrite H; [exact H | reflexivity].
Qed.

Lemma set_last_now_ms_same (c : aj_ctx_t) (t : Z) :
  last_now_ms c = t -> set_last_now_ms t c = c.
Proof. destruct c. simpl. intros <-. reflexivity. Qed.

Lemma tick_age_frame (c : aj_ctx_t) (t : Z) :
  cfg (tick_age_ext_jam c t) = cfg c /\
  last_now_ms (tick_age_ext_jam c t) = last_now_ms c /\
  window_start_ms (tick_age_ext_jam c t) = window_start_ms c /\
  same_ring c (tick_age_ext_jam c t).
Proof. unfold tick_age_ext_jam, same_ring. break_ifs; simpl; repeat split. Qed.

Lemma settled_ext (t : Z) (c c' : aj_ctx_t) :
  cfg c' = cfg c -> window_start_ms c' = window_start_ms c -> same_ring c c' ->
  settled t c -> settled t c'.
Proof.
  unfold settled, prune_cutoff, window_dur. intros Hcfg Hws Hring Hs.
  rewrite Hcfg, Hws. intros Hmode. destruct (Hs Hmode) as [Hexit Hlt].
  split; [| exact Hlt]. eapply prune_step_none_ring; eassumption.
Qed.

Lemma tick_window_shape (c : aj_ctx_t) (t : Z) :
  tick_window c t = c \/ tick_window c t = prune_old_by_time c t \/
  exists ws,
    tick_window c t
    = on_window_boundary (set_window_start_ms ws (prune_old_by_time c t)) t.
Proof.
  unfold tick_window.
  destruct (is_by_time (window_mode (cfg c))); [| auto].
  destruct (window_dur (prune_old_by_time c t)
            <=? u32 (t - window_start_ms (prune_old_by_time c t))); eauto.
Qed.

Lemma tick_window_now (c : aj_ctx_t) (t : Z) :
  last_now_ms (tick_window c t) = last_now_ms c.
Proof.
  pose proof (prune_old_by_time_frame c t) as (_ & _ & _ & _ & Hp & _).
  destruct (tick_window_shape c t) as [-> | [-> | (ws & ->)]]; auto.
  pose proof (on_window_boundary_frame
                (set_window_start_ms ws (prune_old_by_time c t)) t)
    as (_ & _ & _ & _ & Hn & _).
  rewrite Hn. exact Hp.
Qed.

(** The whole context is a fixed point of a second tick at the same time. *)
Lemma aj_tick_fixed (c : aj_ctx_t) (t : Z) :
  0 <= window_duration_ms (cfg c) ->
  aj_tick (aj_tick c t) t = aj_tick c t.
Proof.
  intros Hwd.
  set (w := tick_window (set_last_now_ms t c) t).
  set (a := tick_age_ext_jam w t).
  assert (Ha : aj_tick c t = update_report a t) by reflexivity.
  destruct (tick_age_frame w t) as (Hcfg & Hnow & Hws & Hring). fold a in Hcfg, Hnow, Hws, Hring.
  assert (Hnow' : last_now_ms (update_report a t) = t).
  { simpl. rewrite Hnow. unfold w. rewrite tick_window_now. reflexivity. }
  assert (Hset : settled t (update_report a t)).
  { apply (settled_ext t w).
    - simpl. exact Hcfg.
    - simpl. exact Hws.
    - destruct Hring as (? & ? & ? & ? & ?). unfold same_ring. simpl. auto.
    - apply tick_window_settled. exact Hwd. }
  rewrite Ha. unfold aj_tick at 1.
  rewrite (set_last_now_ms_same _ _ Hnow').
  rewrite (tick_window_fixed _ _ Hset).
  assert (Haged : tick_age_ext_jam a t = a) by apply tick_age_fixed.
  assert (Hage : tick_age_ext_jam (update_report a t) t = update_report a t).
  { unfold tick_age_ext_jam in Haged |- *. simpl.
    destruct (ext_jam_recent a =? 0) eqn:He; [reflexivity |].
    break_if; [| reflexivity].
    apply (f_equal ext_jam_recent) in Haged. simpl in Haged.
    rewrite <- Haged in He. discriminate. }
  rewrite Hage. reflexivity.
Qed.

(** C7: a second [aj_tick] with the same timestamp leaves the report (and
    the rest of the context) as the first one left it. *)
Theorem tick_idempotent (c : aj_ctx_t) (t : Z) :
  in_u32 (window_duration_ms (cfg c)) ->
  aj_get_report (aj_tick (aj_tick c t) t) = aj_get_report (aj_tick c t) /\
  aj_tick (aj_tick c t) t = aj_tick c t.
Proof.
  intros [Hwd _]. rewrite (aj_tick_fixed c t Hwd). split; reflexivity.
Qed.

(** *** The ring and its bad-packet count *)

Lemma bad_of_cons (e : aj_pkt_entry_t) (l : list aj_pkt_entry_t) :
  bad_of (e :: l) = (if is_bad e then 1 else 0) + bad_of l.
Proof. unfold bad_of. simpl. destruct (is_bad e); simpl; lia. Qed.

Lemma bad_of_snoc (l : list aj_pkt_entry_t) (e : aj_pkt_entry_t) :
  bad_of (l ++ [e]) = bad_of l + (if is_bad e then 1 else 0).
Proof.
  unfold bad_of. rewrite List.filter_app, List.length_app. simpl.
  destruct (is_bad e); simpl; lia.
Qed.

Lemma bad_of_bounds (l : list aj_pkt_entry_t) :
  0 <= bad_of l <= Z.of_nat (length l).
Proof. unfold bad_of. pose proof (List.filter_length_le is_bad l). lia. Qed.

Lemma ring_view_length (es : list aj_pkt_entry_t) (cap hd cnt : Z) :
  length (ring_view es cap hd cnt) = Z.to_nat cnt.
Proof. unfold ring_view. rewrite List.length_map, List.length_seq. reflexivity. Qed.

(** Where the ring is well-shaped the tail is the mathematical remainder. *)
Lemma tail_of_mod (cap hd cnt : Z) :
  1 <= cap <= 65535 -> 0 <= cnt <= cap -> 0 <= hd < cap ->
  tail_of cap hd cnt = (hd + cap - cnt) mod cap.
Proof.
  intros Hcap Hcnt Hhd. unfold tail_of.
  rewrite Z.rem_mod_nonneg by lia.
  apply u16_small. unfold in_u16.
  pose proof (Z.mod_pos_bound (hd + cap - cnt) cap). lia.
Qed.

(** Dropping the oldest entry. *)
Lemma ring_view_pop (es : list aj_pkt_entry_t) (cap hd cnt : Z) :
  1 <= cap <= 65535 -> 0 < cnt <= cap -> 0 <= hd < cap ->
  ring_view es cap hd cnt
  = entry_at es (tail_of cap hd cnt) :: ring_view es cap hd (cnt - 1).
Proof.
  intros Hcap Hcnt Hhd. unfold ring_view.
  replace (Z.to_nat cnt) with (S (Z.to_nat (cnt - 1))) by lia.
  cbn [seq map]. rewrite <- List.seq_shift, List.map_map.
  rewrite !tail_of_mod by lia. f_equal.
  - rewrite Z.add_0_r, Z.mod_mod by lia. reflexivity.
  - apply List.map_ext. intros k. f_equal.
    rewrite !Zplus_mod_idemp_l. f_equal. lia.
Qed.

(** Two slots of a ring that are less than a capacity apart are distinct. *)
Lemma slot_not_head (cap hd d : Z) :
  0 < cap -> 0 <= hd < cap -> 0 < d < cap -> (hd + d) mod cap <> hd.
Proof.
  intros Hcap Hhd Hd Heq.
  pose proof (Z.div_mod (hd + d) cap ltac:(lia)) as Hdm. rewrite Heq in Hdm.
  assert (Hq : d = cap * ((hd + d) / cap)) by lia.
  assert (0 < (hd + d) / cap < 1) by nia. lia.
Qed.

(** Appending at the head of a ring that is not full. *)
Lemma ring_view_push (es : list aj_pkt_entry_t) (cap hd cnt : Z) (e : aj_pkt_entry_t) :
  1 <= cap <= 65535 -> 0 <= cnt < cap -> 0 <= hd < cap ->
  cap <= Z.of_nat (length es) ->
  ring_view (store_entry es hd e) cap ((hd + 1) mod cap) (cnt + 1)
  = ring_view es cap hd cnt ++ [e].
Proof.
  intros Hcap Hcnt Hhd Hlen. unfold ring_view.
  pose proof (Z.mod_pos_bound (hd + 1) cap ltac:(lia)) as Hh1.
  replace (Z.to_nat (cnt + 1)) with (S (Z.to_nat cnt)) by lia.
  rewrite List.seq_S, List.map_app. cbn [map Nat.add].
  rewrite !tail_of_mod by lia.
  assert (Htail : ((hd + 1) mod cap + cap - (cnt + 1)) mod cap = (hd + cap - cnt) mod cap).
  { replace ((hd + 1) mod cap + cap - (cnt + 1))
      with ((hd + 1) mod cap + (cap - cnt - 1)) by lia.
    rewrite Zplus_mod_idemp_l. f_equal. lia. }
  rewrite Htail. f_equal.
  - apply List.map_ext_in. intros k Hk. apply List.in_seq in Hk.
    unfold entry_at, store_entry. rewrite list_lookup_insert_ne; [reflexivity |].
    rewrite Zplus_mod_idemp_l.
    replace (hd + cap - cnt + Z.of_nat k) with (hd + (cap - cnt + Z.of_nat k)) by lia.
    pose proof (slot_not_head cap hd (cap - cnt + Z.of_nat k) ltac:(lia) Hhd ltac:(lia)).
    pose proof (Z.mod_pos_bound (hd + (cap - cnt + Z.of_nat k)) cap ltac:(lia)).
    lia.
  - f_equal. rewrite Zplus_mod_idemp_l.
    replace (hd + cap - cnt + Z.of_nat (Z.to_nat cnt)) with (hd + 1 * cap) by lia.
    rewrite Z.mod_add, Z.mod_small by lia.
    unfold entry_at, store_entry. rewrite list_lookup_insert_eq by lia. reflexivity.
Qed.

Lemma ring_ok_ext (c c' : aj_ctx_t) : same_ring c c' -> ring_ok c -> ring_ok c'.
Proof.
  unfold same_ring, ring_ok, bad_in_ring, ring_entries.
  intros (-> & -> & -> & -> & ->). auto.
Qed.

(** In a consistent ring the bad count is at most the number of entries. *)
Lemma ring_ok_bad_le (c : aj_ctx_t) : ring_ok c -> 0 <= bad_count c <= count c.
Proof.
  unfold ring_ok, bad_in_ring, ring_entries. intros (_ & _ & Hcnt & _ & ->).
  pose proof (bad_of_bounds (ring_view (entries c) (capacity c) (head c) (count c))) as H.
  rewrite ring_view_length in H. lia.
Qed.

Lemma prune_step_ok (cutoff : Z) (c c' : aj_ctx_t) :
  ring_ok c -> prune_step cutoff c = Some c' ->
  ring_ok c' /\ length (entries c') = length (entries c).
Proof.
  intros Hok Hstep. pose proof (ring_ok_bad_le c Hok) as Hble.
  destruct Hok as (Hcap & Hlen & Hcnt & Hhd & Hbad).
  unfold prune_step in Hstep.
  destruct (Z.ltb_spec 0 (count c)) as [Hpos | _]; [| discriminate].
  destruct (cutoff <=? ts (entry_at (entries c) (tail_index c))); [discriminate |].
  unfold bad_in_ring, ring_entries in Hbad.
  rewrite (ring_view_pop (entries c) (capacity c) (head c) (count c) Hcap ltac:(lia) Hhd),
    bad_of_cons in Hbad.
  fold (tail_index c) in Hbad. unfold is_bad in Hbad.
  pose proof (bad_of_bounds (ring_view (entries c) (capacity c) (head c) (count c - 1))) as Hb.
  assert (Hc1 : u16 (count c - 1) = count c - 1) by (apply u16_small; unfold in_u16; lia).
  destruct (Z.eqb_spec (good (entry_at (entries c) (tail_index c))) 0) as [Hg | Hg].
  - destruct (Z.ltb_spec 0 (bad_count c)) as [_ | Hz]; [| lia].
    simpl in Hstep. injection Hstep as <-.
    unfold ring_ok, bad_in_ring, ring_entries. simpl. rewrite Hc1.
    rewrite u16_small by (unfold in_u16; lia).
    repeat split; lia.
  - simpl in Hstep. injection Hstep as <-.
    unfold ring_ok, bad_in_ring, ring_entries. simpl. rewrite Hc1.
    repeat split; lia.
Qed.

Lemma prune_loop_ok (fuel : nat) (cutoff : Z) (c : aj_ctx_t) :
  ring_ok c ->
  ring_ok (prune_loop fuel cutoff c) /\
  length (entries (prune_loop fuel cutoff c)) = length (entries c).
Proof.
  revert c. induction fuel as [| fuel IH]; intros c Hok; simpl; [auto |].
  destruct (prune_step cutoff c) as [c' |] eqn:Hs; [| auto].
  destruct (prune_step_ok _ _ _ Hok Hs) as [Hok' Hlen].
  destruct (IH c' Hok') as [Hok'' Hlen'']. split; [assumption | congruence].
Qed.

Lemma prune_old_by_time_ok (c : aj_ctx_t) (t : Z) :
  ring_ok c ->
  ring_ok (prune_old_by_time c t) /\
  length (entries (prune_old_by_time c t)) = length (entries c).
Proof.
  intros Hok. unfold prune_old_by_time. break_if; [| auto].
  apply prune_loop_ok, Hok.
Qed.

Lemma ring_insert_ok (c : aj_ctx_t) (g t : Z) :
  ring_ok c ->
  ring_ok (ring_insert c g t) /\
  length (entries (ring_insert c g t)) = length (entries c).
Proof.
  intros Hok. pose proof (ring_ok_bad_le c Hok) as Hble.
  destruct Hok as (Hcap & Hlen & Hcnt & Hhd & Hbad).
  pose proof (Z.mod_pos_bound (head c + 1) (capacity c) ltac:(lia)) as Hh1.
  assert (Hhead : u16 (u32 (head c + 1) mod capacity c) = (head c + 1) mod capacity c).
  { rewrite (u32_small (head c + 1)) by (unfold in_u32; lia).
    apply u16_small. unfold in_u16. lia. }
  set (e := mk_entry (if g =? 0 then 0 else 1) t).
  unfold bad_in_ring, ring_entries in Hbad.
  unfold ring_insert. fold e.
  destruct (Z.eqb_spec (count c) (capacity c)) as [Hfull | Hroom].
  - (* full: the entry at [head] is the oldest and is overwritten *)
    assert (Htl : tail_of (capacity c) (head c) (count c) = head c).
    { rewrite tail_of_mod by lia. rewrite Hfull.
      replace (head c + capacity c - capacity c) with (head c) by lia.
      apply Z.mod_small. lia. }
    rewrite (ring_view_pop (entries c) (capacity c) (head c) (count c) Hcap ltac:(lia) Hhd),
      bad_of_cons, Htl in Hbad.
    pose proof (ring_view_push (entries c) (capacity c) (head c) (count c - 1) e
                  Hcap ltac:(lia) Hhd Hlen) as Hpush.
    replace (count c - 1 + 1) with (count c) in Hpush by lia.
    pose proof (bad_of_bounds (ring_view (entries c) (capacity c) (head c) (count c - 1)))
      as Hb.
    rewrite ring_view_length in Hb.
    unfold is_bad in Hbad.
    destruct (Z.eqb_spec (good (entry_at (entries c) (head c))) 0) as [Hg | Hg].
    + destruct (Z.ltb_spec 0 (bad_count c)) as [_ | Hz]; [| lia].
      cbn [andb]. destruct (Z.eqb_spec (good e) 0) as [He | He];
        unfold ring_ok, bad_in_ring, ring_entries; simpl; rewrite Hhead, Hpush, bad_of_snoc;
        unfold is_bad, store_entry; rewrite ?length_insert.
      * rewrite He. simpl.
        rewrite (u16_small (bad_count c - 1)) by (unfold in_u16; lia).
        rewrite u16_small by (unfold in_u16; lia).
        repeat split; lia.
      * destruct (Z.eqb_spec (good e) 0); [contradiction |].
        rewrite (u16_small (bad_count c - 1)) by (unfold in_u16; lia).
        repeat split; lia.
    + cbn [andb]. destruct (Z.eqb_spec (good e) 0) as [He | He];
        unfold ring_ok, bad_in_ring, ring_entries; simpl; rewrite Hhead, Hpush, bad_of_snoc;
        unfold is_bad, store_entry; rewrite ?length_insert.
      * rewrite He. simpl.
        rewrite u16_small by (unfold in_u16; lia).
        repeat split; lia.
      * destruct (Z.eqb_spec (good e) 0); [contradiction |].
        repeat split; lia.
  - (* room left: the ring grows by one *)
    pose proof (ring_view_push (entries c) (capacity c) (head c) (count c) e
                  Hcap ltac:(lia) Hhd Hlen) as Hpush.
    assert (Hc1 : u16 (count c + 1) = count c + 1) by (apply u16_small; unfold in_u16; lia).
    destruct (Z.eqb_spec (good e) 0) as [He | He];
      unfold ring_ok, bad_in_ring, ring_entries; simpl; rewrite Hhead, Hc1, Hpush, bad_of_snoc;
      unfold is_bad, store_entry; rewrite ?length_insert.
    + rewrite He. simpl.
      rewrite u16_small by (unfold in_u16; lia).
      repeat split; lia.
    + destruct (Z.eqb_spec (good e) 0); [contradiction |].
      repeat split; lia.
Qed.

(** The steps that do not touch the ring. *)
Lemma update_report_ring (c : aj_ctx_t) (t : Z) : same_ring c (update_report c t).
Proof. unfold same_ring. simpl. repeat split. Qed.

Lemma maybe_fire_ring (c : aj_ctx_t) (t : Z) :
  same_ring c (fst (maybe_fire_hop_callback c t)).
Proof.
  destruct (maybe_fire_cases c t) as [-> | (f & s & -> & _)];
    unfold same_ring; simpl; repeat split.
Qed.

Lemma same_ring_length (c c' : aj_ctx_t) :
  same_ring c c' -> length (entries c') = length (entries c).
Proof. intros (_ & _ & _ & _ & ->). reflexivity. Qed.

Lemma same_ring_trans (a b c : aj_ctx_t) :
  same_ring a b -> same_ring b c -> same_ring a c.
Proof. unfold same_ring. intuition congruence. Qed.

Lemma ring_fits_ext (slots : nat) (c c' : aj_ctx_t) :
  same_ring c c' -> ring_fits slots c -> ring_fits slots c'.
Proof.
  intros Hr [Hok Hlen]. split.
  - eapply ring_ok_ext; eassumption.
  - rewrite (same_ring_length _ _ Hr). exact Hlen.
Qed.

Lemma prune_old_by_time_fits (slots : nat) (c : aj_ctx_t) (t : Z) :
  ring_fits slots c -> ring_fits slots (prune_old_by_time c t).
Proof.
  intros [Hok Hlen]. destruct (prune_old_by_time_ok c t Hok) as [Hok' Hlen'].
  split; [assumption | congruence].
Qed.

Lemma aj_register_packet_fits (slots : nat) (c : aj_ctx_t) (g t : Z) :
  ring_fits slots c -> ring_fits slots (fst (aj_register_packet c g t)).
Proof.
  intros Hfit. unfold aj_register_packet.
  set (c1 := set_last_now_ms t c).
  assert (H1 : ring_fits slots c1)
    by (apply (ring_fits_ext slots c); [unfold same_ring; simpl; repeat split | exact Hfit]).
  apply (prune_old_by_time_fits slots c1 t) in H1.
  set (c2 := prune_old_by_time c1 t) in *.
  assert (H3 : ring_fits slots (ring_insert c2 g t)).
  { destruct H1 as [Hok Hlen]. destruct (ring_insert_ok c2 g t Hok) as [Hok' Hlen'].
    split; [assumption | congruence]. }
  set (c3 := ring_insert c2 g t) in *.
  eapply ring_fits_ext; [apply maybe_fire_ring |].
  eapply ring_fits_ext; [apply update_report_ring |].
  break_if; [| exact H3].
  eapply ring_fits_ext; [apply on_window_boundary_ring | exact H3].
Qed.

Lemma aj_register_external_jam_fits (slots : nat) (c : aj_ctx_t) (t : Z) :
  ring_fits slots c -> ring_fits slots (fst (aj_register_external_jam c t)).
Proof.
  intros Hfit. unfold aj_register_external_jam.
  eapply ring_fits_ext; [apply maybe_fire_ring |].
  eapply ring_fits_ext; [apply update_report_ring |].
  apply prune_old_by_time_fits.
  apply (ring_fits_ext slots c); [unfold same_ring; simpl; repeat split | exact Hfit].
Qed.

Lemma tick_window_fits (slots : nat) (c : aj_ctx_t) (t : Z) :
  ring_fits slots c -> ring_fits slots (tick_window c t).
Proof.
  intros Hfit. pose proof (prune_old_by_time_fits slots c t Hfit) as Hp.
  destruct (tick_window_shape c t) as [-> | [-> | (ws & ->)]]; auto.
  eapply ring_fits_ext; [apply on_window_boundary_ring |].
  eapply ring_fits_ext; [| exact Hp]. unfold same_ring. simpl. repeat split.
Qed.

Lemma aj_tick_fits (slots : nat) (c : aj_ctx_t) (t : Z) :
  ring_fits slots c -> ring_fits slots (aj_tick c t).
Proof.
  intros Hfit. unfold aj_tick.
  eapply ring_fits_ext; [apply update_report_ring |].
  eapply ring_fits_ext; [apply (tick_age_frame _ t) |].
  apply tick_window_fits.
  apply (ring_fits_ext slots c); [unfold same_ring; simpl; repeat split | exact Hfit].
Qed.

(** An empty ring is consistent whatever the storage holds. *)
Lemma empty_ring_fits (slots : nat) (c : aj_ctx_t) :
  1 <= capacity c <= 65535 -> capacity c <= Z.of_nat slots ->
  length (entries c) = slots ->
  count c = 0 -> head c = 0 -> bad_count c = 0 ->
  ring_fits slots c.
Proof.
  intros Hcap Hslots Hlen Hcnt Hhd Hbad.
  unfold ring_fits, ring_ok, bad_in_ring, ring_entries, ring_view.
  rewrite Hcnt, Hhd, Hbad, Hlen. simpl. repeat split; lia.
Qed.

Lemma aj_reset_fits (slots : nat) (c : aj_ctx_t) :
  ring_fits slots c -> ring_fits slots (aj_reset c).
Proof.
  intros [(Hcap & Hlen & _) Hslots].
  apply empty_ring_fits; simpl; try reflexivity; try assumption. lia.
Qed.

Lemma cfg_capacity_range (k : aj_config_t) :
  in_u16 (window_size_packets k) -> 1 <= cfg_capacity k <= 65535.
Proof.
  unfold in_u16, cfg_capacity. destruct (Z.eqb_spec (window_size_packets k) 0); lia.
Qed.

(** [aj_internal_apply_cfg] sets the capacity and leaves the rest of the
    ring alone. *)
Lemma apply_cfg_ring (c : aj_ctx_t) (k : aj_config_t) :
  capacity (aj_internal_apply_cfg c k) = cfg_capacity k /\
  count (aj_internal_apply_cfg c k) = count c /\
  head (aj_internal_apply_cfg c k) = head c /\
  bad_count (aj_internal_apply_cfg c k) = bad_count c /\
  entries (aj_internal_apply_cfg c k) = entries c.
Proof. unfold aj_internal_apply_cfg. break_ifs; simpl; repeat split. Qed.

Lemma aj_configure_fits (slots : nat) (c : aj_ctx_t) (k : aj_config_t) :
  in_u16 (window_size_packets k) -> cfg_capacity k <= Z.of_nat slots ->
  ring_fits slots c -> ring_fits slots (aj_configure c k).
Proof.
  intros Hk Hslots Hfit. pose proof (cfg_capacity_range k Hk) as Hrange.
  destruct (apply_cfg_ring c k) as (Hcap & Hcnt & Hhd & Hbad & Hes).
  unfold aj_configure.
  destruct (Z.eqb_spec (capacity (aj_internal_apply_cfg c k)) (capacity c)) as [Heq | Hne].
  - apply (ring_fits_ext slots c); [| exact Hfit].
    unfold same_ring. simpl. auto.
  - destruct Hfit as [_ Hlen].
    apply empty_ring_fits; simpl; rewrite ?Hcap, ?Hes; try reflexivity; try lia;
      exact Hlen.
Qed.

Lemma aj_init_fits (slots : nat) (k : aj_config_t) (c : aj_ctx_t) :
  in_u16 (window_size_packets k) -> aj_init slots k = Some c -> ring_fits slots c.
Proof.
  intros Hk. pose proof (cfg_capacity_range k Hk) as Hrange. unfold aj_init.
  destruct (Z.ltb_spec (Z.of_nat slots) (cfg_capacity k)) as [| Hge]; [discriminate |].
  intros [= <-].
  destruct (apply_cfg_ring (zeroed_ctx slots) k) as (Hcap & _ & _ & _ & Hes).
  apply empty_ring_fits; simpl; rewrite ?Hcap, ?Hes; try reflexivity; try lia.
  simpl. apply length_replicate.
Qed.

Lemma do_call_fits (slots : nat) (c : aj_ctx_t) (op : aj_call) :
  call_fits slots op -> ring_fits slots c -> ring_fits slots (fst (do_call c op)).
Proof.
  intros Hop Hfit. destruct op as [g t | t | t | | k | f u]; simpl.
  - apply aj_register_packet_fits, Hfit.
  - apply aj_register_external_jam_fits, Hfit.
  - apply aj_tick_fits, Hfit.
  - apply aj_reset_fits, Hfit.
  - destruct Hop as [Hk Hslots]. apply aj_configure_fits; assumption.
  - apply (ring_fits_ext slots c); [unfold same_ring; simpl; repeat split | exact Hfit].
Qed.

Lemma do_calls_fits (slots : nat) (ops : list aj_call) (c : aj_ctx_t) :
  Forall (call_fits slots) ops -> ring_fits slots c ->
  ring_fits slots (fst (do_calls c ops)).
Proof.
  revert c. induction ops as [| op rest IH]; intros c Hops Hfit; [exact Hfit |].
  inversion Hops as [| ? ? Hop Hrest]; subst.
  cbn [do_calls]. pose proof (do_call_fits slots c op Hop Hfit) as H1.
  destruct (do_call c op) as [c1 l1]. simpl in H1.
  specialize (IH c1 Hrest H1). destruct (do_calls c1 rest) as [c2 l2]. exact IH.
Qed.

(** C2: from [aj_init] on, after any sequence of [aj_register_packet],
    [aj_register_external_jam], [aj_tick], [aj_reset] and [aj_configure]
    calls (and changes of the callback), [bad_count] is the number of
    entries of the ring whose [good] flag is 0 and [count] does not exceed
    [capacity]; reconfigurations are within the capacity the buffer was
    sized for, as [aj_configure] requires of its caller. *)
Theorem bad_count_invariant (slots : nat) (k : aj_config_t) (c0 : aj_ctx_t)
    (ops : list aj_call) :
  in_u16 (window_size_packets k) ->
  aj_init slots k = Some c0 ->
  Forall (call_fits slots) ops ->
  bad_count (fst (do_calls c0 ops)) = bad_in_ring (fst (do_calls c0 ops)) /\
  count (fst (do_calls c0 ops)) <= capacity (fst (do_calls c0 ops)).
Proof.
  intros Hk Hinit Hops.
  pose proof (do_calls_fits slots ops c0 Hops (aj_init_fits slots k c0 Hk Hinit))
    as [(_ & _ & Hcnt & _ & Hbad) _].
  split; [exact Hbad | lia].
Qed.

(** *** The detection-threshold scenario *)

Lemma do_calls_app (c : aj_ctx_t) (l1 l2 : list aj_call) :
  do_calls c (l1 ++ l2)
  = (fst (do_calls (fst (do_calls c l1)) l2),
     snd (do_calls c l1) ++ snd (do_calls (fst (do_calls c l1)) l2)).
Proof.
  revert c. induction l1 as [| op l1 IH]; intros c.
  - simpl. destruct (do_calls c l2); reflexivity.
  - cbn [do_calls app]. destruct (do_call c op) as [c1 a]. rewrite IH.
    destruct (do_calls c1 l1) as [c2 b]. simpl.
    destruct (do_calls c2 l2) as [c3 d]. simpl. rewrite app_assoc. reflexivity.
Qed.

Lemma bad_packets_cons (p : Z * Z) (l : list (Z * Z)) :
  bad_packets (p :: l) = (if fst p =? 0 then 1 else 0) + bad_packets l.
Proof. unfold bad_packets. simpl. destruct (fst p =? 0); simpl; lia. Qed.

Lemma bad_packets_snoc (l : list (Z * Z)) (p : Z * Z) :
  bad_packets (l ++ [p]) = bad_packets l + (if fst p =? 0 then 1 else 0).
Proof.
  unfold bad_packets. rewrite List.filter_app, List.length_app. simpl.
  destruct (fst p =? 0); simpl; lia.
Qed.

Lemma bad_packets_bounds (l : list (Z * Z)) :
  0 <= bad_packets l <= Z.of_nat (length l).
Proof.
  unfold bad_packets. pose proof (List.filter_length_le (fun p => fst p =? 0) l). lia.
Qed.

Lemma no_fire_not_jammed (c : aj_ctx_t) (t : Z) :
  state c = AJ_STATE_NOT_JAMMED ->
  maybe_fire_hop_callback (update_report c t) t = (update_report c t, []).
Proof.
  intros Hstate.
  assert (Hrec : rpt_recommend_hop (make_report c t) = 0).
  { unfold make_report. destruct (calc_score c) as [[sc tot] bd].
    rewrite Hstate. simpl. break_if; reflexivity. }
  unfold maybe_fire_hop_callback, update_report.
  cbn [hop_cb last_report set_last_report]. rewrite Hrec.
  destruct (hop_cb c); reflexivity.
Qed.

Lemma fill_step (c : aj_ctx_t) (g t : Z) :
  window_mode (cfg c) = AJ_WINDOW_BY_COUNT ->
  state c = AJ_STATE_NOT_JAMMED ->
  head c = count c -> 0 <= count c -> 0 <= bad_count c <= count c ->
  count c + 1 < capacity c <= 65535 ->
  exists c', aj_register_packet c g t = (c', []) /\
             filled c c' 1 (if g =? 0 then 1 else 0).
Proof.
  destruct c as [k cap cnt hd bad ws lnow st streak ljc ext exts lreco rpt cb cbx es].
  simpl. intros Hmode -> -> Hcnt Hbad Hcap.
  unfold aj_register_packet, prune_old_by_time, ring_insert. simpl. rewrite Hmode. simpl.
  destruct (Z.eqb_spec cnt cap) as [Heq | _]; [lia |]. simpl.
  rewrite (u16_small (cnt + 1)) by (unfold in_u16; lia).
  destruct (g =? 0); simpl; rewrite ?Hmode; simpl;
    rewrite (u32_small (cnt + 1)) by (unfold in_u32; lia);
    rewrite (Z.mod_small (cnt + 1)) by lia;
    rewrite (u16_small (cnt + 1)) by (unfold in_u16; lia);
    (destruct (Z.eqb_spec (cnt + 1) cap) as [Heq | _]; [lia |]); simpl;
    (eexists; split; [apply no_fire_not_jammed; reflexivity |]);
    unfold filled; simpl; repeat split; try lia.
  apply u16_small. unfold in_u16. lia.
Qed.

Lemma fill_run (pkts : list (Z * Z)) (c : aj_ctx_t) :
  window_mode (cfg c) = AJ_WINDOW_BY_COUNT ->
  state c = AJ_STATE_NOT_JAMMED ->
  head c = count c -> 0 <= count c -> 0 <= bad_count c <= count c ->
  count c + Z.of_nat (length pkts) < capacity c <= 65535 ->
  exists c', do_calls c (register_all pkts) = (c', []) /\
             filled c c' (Z.of_nat (length pkts)) (bad_packets pkts).
Proof.
  revert c. induction pkts as [| [g t] rest IH]; intros c Hmode Hstate Hhd Hcnt Hbad Hcap.
  - exists c. split; [reflexivity |]. unfold filled, bad_packets. simpl.
    repeat split; try lia; assumption.
  - cbn [length] in Hcap.
    destruct (fill_step c g t Hmode Hstate Hhd Hcnt Hbad ltac:(lia)) as (c1 & Hrun1 & Hf1).
    destruct Hf1 as (Hc1 & Hh1 & Hb1 & Hcfg1 & Hcap1 & Hr1 & Hcb1 & Hcx1 & He1 & Hs1 & Hj1).
    destruct (IH c1) as (c2 & Hrun2 & Hf2); try congruence; try lia.
    { destruct (g =? 0); lia. }
    destruct Hf2 as (Hc2 & Hh2 & Hb2 & Hcfg2 & Hcap2 & Hr2 & Hcb2 & Hcx2 & He2 & Hs2 & Hj2).
    exists c2. split.
    + cbn [register_all map do_calls do_call fst snd].
      rewrite Hrun1. fold (register_all rest). rewrite Hrun2. reflexivity.
    + rewrite bad_packets_cons. cbn [fst length]. unfold filled.
      repeat split; try congruence; try lia.
Qed.

(** The packet that fills a BY_COUNT window wraps [head] to 0. *)
Lemma ring_insert_closing (c : aj_ctx_t) (g t : Z) :
  count c + 1 = capacity c -> head c = count c -> 0 <= count c ->
  capacity c <= 65535 -> 0 <= bad_count c <= count c ->
  count (ring_insert c g t) = capacity c /\
  head (ring_insert c g t) = 0 /\
  bad_count (ring_insert c g t) = bad_count c + (if g =? 0 then 1 else 0) /\
  state (ring_insert c g t) = state c /\
  jam_streak (ring_insert c g t) = jam_streak c.
Proof.
  destruct c as [k cap cnt hd bad ws lnow st streak ljc ext exts lreco rpt cb cbx es].
  simpl. intros Hcap -> Hcnt Hmax Hbad. unfold ring_insert. simpl.
  destruct (Z.eqb_spec cnt cap) as [Heq | _]; [lia |]. simpl.
  rewrite (u16_small (cnt + 1)) by (unfold in_u16; lia).
  destruct (g =? 0); simpl;
    rewrite (u32_small (cnt + 1)) by (unfold in_u32; lia);
    rewrite Hcap, Z.mod_same by lia; repeat split; try reflexivity; try lia.
  rewrite u16_small by (unfold in_u16; lia). lia.
Qed.

Lemma scenario_score (c : aj_ctx_t) :
  count c = 100 -> bad_count c = 30 -> ext_jam_recent c = 0 ->
  calc_score c = (30, 100, 30).
Proof. intros Hc Hb He. unfold calc_score. rewrite Hc, Hb, He. reflexivity. Qed.

(** With 30 bad packets in 100 the window is jammy, and one jammy window
    is all the scenario asks for. *)
Lemma scenario_boundary (c : aj_ctx_t) (d a t : Z) :
  cfg c = scenario_cfg_stored d a ->
  count c = 100 -> bad_count c = 30 -> ext_jam_recent c = 0 ->
  jam_streak c = 0 -> state c = AJ_STATE_NOT_JAMMED ->
  on_window_boundary c t
  = set_last_jam_change_ms t (set_state AJ_STATE_JAMMED (set_jam_streak 1 c)).
Proof.
  intros Hcfg Hc Hb He Hj Hs.
  unfold on_window_boundary, is_window_jammy.
  rewrite (scenario_score c Hc Hb He), Hcfg, Hj.
  cbn [min_bad_packets jam_threshold_percent scenario_cfg_stored].
  change (30 <? 5) with false. change (30 <=? 30) with true.
  change (0 <? 255) with true. change (u8 (0 + 1)) with 1. cbv iota.
  cbn [cfg set_jam_streak jam_streak state]. rewrite Hcfg, Hs. reflexivity.
Qed.

Lemma scenario_report (c : aj_ctx_t) (d a t : Z) :
  cfg c = scenario_cfg_stored d a ->
  count c = 100 -> bad_count c = 30 -> ext_jam_recent c = 0 ->
  state c = AJ_STATE_JAMMED -> last_reco_ms c = 0 -> in_u32 t ->
  make_report c t
  = mk_report AJ_STATE_JAMMED 30 (if 500 <=? t then 1 else 0) 50 t 76.
Proof.
  intros Hcfg Hc Hb He Hs Hr Ht.
  unfold make_report. rewrite (scenario_score c Hc Hb He), Hcfg, Hs, Hr.
  rewrite Z.sub_0_r, (u32_small t Ht). reflexivity.
Qed.

(** The hundredth packet of the scenario closes the first window with 30
    bad packets among its 100. *)
Lemma closing_packet (c : aj_ctx_t) (d a g t : Z) (f : aj_hop_cb_t) :
  cfg c = scenario_cfg_stored d a -> capacity c = 100 ->
  count c = 99 -> head c = 99 ->
  bad_count c + (if g =? 0 then 1 else 0) = 30 ->
  state c = AJ_STATE_NOT_JAMMED -> jam_streak c = 0 ->
  last_reco_ms c = 0 -> ext_jam_recent c = 0 -> hop_cb c = Some f ->
  in_u32 t ->
  state (fst (aj_register_packet c g t)) = AJ_STATE_JAMMED /\
  last_report (fst (aj_register_packet c g t))
    = mk_report AJ_STATE_JAMMED 30 (if 500 <=? t then 1 else 0) 50 t 76 /\
  snd (aj_register_packet c g t)
    = if 500 <=? t
      then [mk_hop_call f (mk_suggestion 1 50 0 76 0 0) (hop_cb_ctx c) t]
      else [].
Proof.
  intros Hcfg Hcap Hcnt Hhd Hbad Hst Hjs Hreco Hext Hcb Ht.
  unfold aj_register_packet.
  assert (Hp : prune_old_by_time (set_last_now_ms t c) t = set_last_now_ms t c).
  { unfold prune_old_by_time. cbn [cfg set_last_now_ms]. rewrite Hcfg. reflexivity. }
  rewrite Hp. set (c0 := set_last_now_ms t c).
  assert (Hbad0 : 0 <= bad_count c <= 99) by (destruct (g =? 0); lia).
  destruct (ring_insert_closing c0 g t) as (Hc1 & Hh1 & Hb1 & Hs1 & Hj1);
    try (unfold c0; cbn [count capacity head bad_count set_last_now_ms]; lia).
  destruct (ring_insert_frame c0 g t)
    as (Hcfg1 & Hr1 & Hcb1 & Hcx1 & _ & _ & He1 & _ & Hcap1).
  set (c1 := ring_insert c0 g t) in *.
  assert (Hcfg1' : cfg c1 = scenario_cfg_stored d a) by (rewrite Hcfg1; exact Hcfg).
  assert (Hc1' : count c1 = 100) by (rewrite Hc1; exact Hcap).
  assert (Hb1' : bad_count c1 = 30) by (rewrite Hb1; exact Hbad).
  assert (He1' : ext_jam_recent c1 = 0) by (rewrite He1; exact Hext).
  assert (Hbnd : negb (is_by_time (window_mode (cfg c1))) && (count c1 =? capacity c1)
                 && (head c1 =? 0) = true).
  { rewrite Hcfg1', Hc1', Hcap1, Hh1. unfold c0. cbn [capacity set_last_now_ms].
    rewrite Hcap. reflexivity. }
  rewrite Hbnd.
  rewrite (scenario_boundary c1 d a t Hcfg1' Hc1' Hb1' He1'
             ltac:(rewrite Hj1; exact Hjs) ltac:(rewrite Hs1; exact Hst)).
  set (c2 := set_last_jam_change_ms t (set_state AJ_STATE_JAMMED (set_jam_streak 1 c1))).
  assert (Hrep : make_report c2 t
                 = mk_report AJ_STATE_JAMMED 30 (if 500 <=? t then 1 else 0) 50 t 76).
  { apply (scenario_report c2 d a t); try assumption; try reflexivity.
    unfold c2. cbn [last_reco_ms set_last_jam_change_ms set_state set_jam_streak].
    rewrite Hr1. exact Hreco. }
  unfold maybe_fire_hop_callback, update_report.
  cbn [hop_cb last_report set_last_report cfg ext_jam_recent hop_cb_ctx
       set_last_jam_change_ms set_state set_jam_streak c2].
  rewrite Hrep, Hcb1, Hcfg1', He1', Hcx1.
  unfold c0. cbn [hop_cb hop_cb_ctx set_last_now_ms rpt_recommend_hop rpt_score
                  rpt_confidence rpt_hop_aggressiveness_hint]. rewrite Hcb.
  destruct (500 <=? t).
  - change (1 =? 0) with false. cbv iota.
    change (80 <=? 30) with false. change (0 =? 0) with true.
    cbn [negb orb]. rewrite andb_false_r.
    cbn [fst snd state last_report set_last_reco_ms set_last_report
         set_last_jam_change_ms set_state]. auto.
  - change (0 =? 0) with true. cbv iota.
    cbn [fst snd state last_report set_last_report set_last_jam_change_ms set_state].
    auto.
Qed.

(** C4, as amended: in the detection-threshold scenario, whatever the
    positions of the 30 bad packets among the 100 and whatever the
    timestamps of the first 99, the context is JAMMED after the hundredth
    packet and reports score 30; the callback is invoked exactly once, by
    the hundredth packet, when that packet's timestamp is at least 500 ms,
    and is not invoked at all when it is earlier, since the configured
    minimum of 0 ms between recommendations is stored as 500 ms and is
    measured from time 0. *)
Theorem detection_threshold_scenario (slots : nat) (d a u : Z) (f : aj_hop_cb_t)
    (pkts : list (Z * Z)) (g t : Z) :
  (100 <= slots)%nat ->
  length pkts = 99%nat ->
  bad_packets (pkts ++ [(g, t)]) = 30 ->
  in_u32 t ->
  exists c,
    detection_run slots d a f u (pkts ++ [(g, t)])
    = Some (c, if 500 <=? t
               then [mk_hop_call f (mk_suggestion 1 50 0 76 0 0) u t]
               else []) /\
    state c = AJ_STATE_JAMMED /\
    aj_is_jammed c = 1 /\
    aj_get_report c
    = mk_report AJ_STATE_JAMMED 30 (if 500 <=? t then 1 else 0) 50 t 76.
Proof.
  intros Hslots Hlen Hbad Ht.
  unfold detection_run, aj_init.
  change (cfg_capacity (scenario_cfg d a)) with 100.
  destruct (Z.ltb_spec (Z.of_nat slots) 100) as [Hlt | _]; [lia |].
  match goal with
  | |- context [aj_set_hop_callback ?x (Some f) u] =>
      set (c1 := aj_set_hop_callback x (Some f) u)
  end.
  assert (H1 : cfg c1 = scenario_cfg_stored d a /\ capacity c1 = 100 /\
               count c1 = 0 /\ head c1 = 0 /\ bad_count c1 = 0 /\
               state c1 = AJ_STATE_NOT_JAMMED /\ jam_streak c1 = 0 /\
               last_reco_ms c1 = 0 /\ ext_jam_recent c1 = 0 /\
               hop_cb c1 = Some f /\ hop_cb_ctx c1 = u)
    by (repeat split; reflexivity).
  destruct H1 as (Hcfg & Hcap & Hcnt & Hhd & Hb0 & Hst & Hjs & Hreco & Hext & Hcb & Hcx).
  clearbody c1.
  destruct (fill_run pkts c1) as (c2 & Hrun & Hfill);
    try (rewrite ?Hcfg, ?Hcap, ?Hcnt, ?Hhd, ?Hb0, ?Hlen; (reflexivity || lia || assumption)).
  destruct Hfill as (Hc2 & Hh2 & Hb2 & Hcfg2 & Hcap2 & Hr2 & Hcb2 & Hcx2 & He2 & Hs2 & Hj2).
  rewrite bad_packets_snoc in Hbad. cbn [fst] in Hbad.
  destruct (closing_packet c2 d a g t f) as (Hstate & Hrep & Hcalls);
    try congruence; try lia.
  unfold register_all. rewrite List.map_app. fold (register_all pkts).
  rewrite do_calls_app, Hrun. cbn [fst snd map do_calls do_call app].
  destruct (aj_register_packet c2 g t) as [c3 l3]. cbn [fst snd] in *.
  exists c3. rewrite app_nil_r, Hcalls, Hcx2, Hcx.
  repeat split; try assumption.
  unfold aj_is_jammed. rewrite Hstate. reflexivity.
Qed.

Lemma detection_threshold_scenario_witness :
  exists c,
    detection_run 100 0 0 1%positive 0 (firstn 99 uniform_packets ++ [(0, 1000)])
    = Some (c, [mk_hop_call 1%positive (mk_suggestion 1 50 0 76 0 0) 0 1000]) /\
    state c = AJ_STATE_JAMMED /\
    aj_is_jammed c = 1 /\
    aj_get_report c = mk_report AJ_STATE_JAMMED 30 1 50 1000 76.
Proof.
  apply (detection_threshold_scenario 100 0 0 0 1%positive
           (firstn 99 uniform_packets) 0 1000).
  - lia.
  - reflexivity.
  - reflexivity.
  - unfold in_u32. lia.
Defined.

(** C4, as stated, fails: with the hundred packets one millisecond apart
    the hundredth arrives at 100 ms, before the 500 ms that the stored
    configuration demands since time 0; the context is JAMMED with score
    30, but the callback has not been invoked. *)
Lemma detection_threshold_callback_not_fired :
  length uniform_packets = 100%nat /\
  bad_packets uniform_packets = 30 /\
  run_summary (detection_run 100 0 0 1%positive 0 uniform_packets)
  = Some (AJ_STATE_JAMMED, 30, 0%nat).
Proof. repeat split; vm_compute; reflexivity. Qed.

(** *** The properties on sample inputs *)

Lemma callback_rate_limit_witness :
  register_run 0 sample_burst /\
  paced (min_time_between_reco_ms
           (cfg (aj_set_hop_callback (started 2 sample_count_cfg) (Some 1%positive) 7)))
    (fire_times
       (snd (do_calls
               (aj_set_hop_callback (started 2 sample_count_cfg) (Some 1%positive) 7)
               sample_burst))).
Proof.
  assert (Hrun : register_run 0 sample_burst)
    by (simpl; unfold in_u32; repeat split; lia).
  split; [exact Hrun |].
  exact (callback_rate_limit
           (aj_set_hop_callback (started 2 sample_count_cfg) (Some 1%positive) 7)
           1%positive sample_burst 0 eq_refl Hrun).
Defined.

(** On that input the callback is invoked twice, 110 ms apart, with a
    minimum of 100 ms in force. *)
Example sample_burst_fires :
  fire_times
    (snd (do_calls
            (aj_set_hop_callback (started 2 sample_count_cfg) (Some 1%positive) 7)
            sample_burst)) = [150; 260] /\
  min_time_between_reco_ms
    (cfg (aj_set_hop_callback (started 2 sample_count_cfg) (Some 1%positive) 7)) = 100.
Proof. split; vm_compute; reflexivity. Qed.

Lemma tick_idempotent_witness :
  aj_get_report
    (aj_tick (aj_tick (fst (do_calls (started 4 sample_time_cfg)
                              (firstn 5 sample_session))) 120) 120)
  = aj_get_report
      (aj_tick (fst (do_calls (started 4 sample_time_cfg)
                       (firstn 5 sample_session))) 120).
Proof.
  refine (proj1 (tick_idempotent
                   (fst (do_calls (started 4 sample_time_cfg) (firstn 5 sample_session)))
                   120 _)).
  change (in_u32 100). unfold in_u32. lia.
Defined.

(** On that input the tick is not a no-op: it processes a window boundary
    and declares the link jammed. *)
Example sample_tick_changes_state :
  state (fst (do_calls (started 4 sample_time_cfg) (firstn 5 sample_session)))
    = AJ_STATE_NOT_JAMMED /\
  state (aj_tick (fst (do_calls (started 4 sample_time_cfg)
                         (firstn 5 sample_session))) 120)
    = AJ_STATE_JAMMED.
Proof. split; vm_compute; reflexivity. Qed.

Lemma bad_count_invariant_witness :
  bad_count (fst (do_calls (started 4 sample_time_cfg) sample_session))
    = bad_in_ring (fst (do_calls (started 4 sample_time_cfg) sample_session)) /\
  count (fst (do_calls (started 4 sample_time_cfg) sample_session))
    <= capacity (fst (do_calls (started 4 sample_time_cfg) sample_session)).
Proof.
  apply (bad_count_invariant 4 sample_time_cfg (started 4 sample_time_cfg)
           sample_session).
  - unfold in_u16. simpl. lia.
  - reflexivity.
  - unfold sample_session.
    repeat (apply List.Forall_cons;
            [simpl; try exact I;
             unfold in_u16, cfg_capacity, sample_count_cfg; simpl; lia |]).
    apply List.Forall_nil.
Defined.

(** The ring of that session half-way: three packets were registered into
    a ring of three, one more overwrote the oldest, and a later packet
    pruned two that had left the time window. *)
Example sample_session_ring :
  ring_entries (fst (do_calls (started 4 sample_time_cfg) (firstn 7 sample_session)))
    = [mk_entry 0 40; mk_entry 1 135] /\
  bad_count (fst (do_calls (started 4 sample_time_cfg) (firstn 7 sample_session))) = 1.
Proof. split; vm_compute; reflexivity. Qed.

(** *** The stored configuration *)

Ltac reflect_tests :=
  repeat match goal with
    | H : (_ =? _) = true |- _ => apply Z.eqb_eq in H
    | H : (_ =? _) = false |- _ => apply Z.eqb_neq in H
    | H : (_ <? _) = true |- _ => apply Z.ltb_lt in H
    | H : (_ <? _) = false |- _ => apply Z.ltb_ge in H
    | H : (_ <=? _) = true |- _ => apply Z.leb_le in H
    | H : (_ <=? _) = false |- _ => apply Z.leb_gt in H
    end.

Lemma apply_cfg_hardened (c : aj_ctx_t) (k : aj_config_t) :
  cfg_in_range k ->
  cfg_hardened (cfg (aj_internal_apply_cfg c k)) /\
  capacity (aj_internal_apply_cfg c k) = cfg_capacity (cfg (aj_internal_apply_cfg c k)) /\
  1 <= capacity (aj_internal_apply_cfg c k) <= 65535 /\
  (cfg_hardened k -> cfg (aj_internal_apply_cfg c k) = k).
Proof.
  destruct k as [wsp dur md thr mb cw hold mt allow].
  unfold cfg_in_range, cfg_hardened, in_u8, in_u16, in_u32. simpl.
  intros (Hwsp & Hdur & Hthr & Hmb & Hcw & Hhold & Hmt & Hallow).
  unfold aj_internal_apply_cfg, cfg_capacity. simpl.
  destruct md; simpl;
    repeat (break_if; simpl); simpl in *; reflect_tests;
    repeat split; try lia; try discriminate; try (intros; lia);
    try (intros (? & ? & ? & Hd); try specialize (Hd eq_refl); (reflexivity || lia)).
Qed.

(** The calls that do not reconfigure leave configuration and capacity
    alone. *)
Lemma tick_window_frame (c : aj_ctx_t) (t : Z) :
  cfg (tick_window c t) = cfg c /\ last_reco_ms (tick_window c t) = last_reco_ms c /\
  hop_cb (tick_window c t) = hop_cb c /\ hop_cb_ctx (tick_window c t) = hop_cb_ctx c /\
  ext_jam_recent (tick_window c t) = ext_jam_recent c /\
  ext_jam_since_ms (tick_window c t) = ext_jam_since_ms c /\
  capacity (tick_window c t) = capacity c.
Proof.
  pose proof (prune_old_by_time_frame c t)
    as (Hc & Hr & Hcb & Hcx & _ & _ & He & Hes & Hcap).
  destruct (tick_window_shape c t) as [-> | [-> | (ws & ->)]];
    [repeat split | repeat split; assumption |].
  pose proof (on_window_boundary_frame
                (set_window_start_ms ws (prune_old_by_time c t)) t)
    as (Hc' & Hr' & Hcb' & Hcx' & _ & _ & He' & Hes' & Hcap').
  simpl in *. repeat split; congruence.
Qed.

Lemma aj_tick_frame (c : aj_ctx_t) (t : Z) :
  cfg (aj_tick c t) = cfg c /\ last_reco_ms (aj_tick c t) = last_reco_ms c /\
  hop_cb (aj_tick c t) = hop_cb c /\ hop_cb_ctx (aj_tick c t) = hop_cb_ctx c /\
  capacity (aj_tick c t) = capacity c.
Proof.
  unfold aj_tick.
  pose proof (tick_window_frame (set_last_now_ms t c) t)
    as (Hc & Hr & Hcb & Hcx & _ & _ & Hcap).
  set (w := tick_window (set_last_now_ms t c) t) in *.
  assert (Ha : cfg (tick_age_ext_jam w t) = cfg w /\
               last_reco_ms (tick_age_ext_jam w t) = last_reco_ms w /\
               hop_cb (tick_age_ext_jam w t) = hop_cb w /\
               hop_cb_ctx (tick_age_ext_jam w t) = hop_cb_ctx w /\
               capacity (tick_age_ext_jam w t) = capacity w)
    by (unfold tick_age_ext_jam; break_ifs; simpl; repeat split).
  destruct Ha as (Hc' & Hr' & Hcb' & Hcx' & Hcap').
  simpl in *. repeat split; congruence.
Qed.

(** A register call is: some bookkeeping that leaves configuration,
    callback and pacing clock alone, then a fresh report, then the
    callback decision. *)
Lemma register_call_shape (c : aj_ctx_t) (op : aj_call) (t : Z) :
  register_time op = Some t ->
  exists m,
    do_call c op = maybe_fire_hop_callback (update_report m t) t /\
    cfg m = cfg c /\ last_reco_ms m = last_reco_ms c /\
    hop_cb m = hop_cb c /\ hop_cb_ctx m = hop_cb_ctx c /\ capacity m = capacity c.
Proof.
  intros Ht.
  destruct op as [g t' | t' | | | |]; simpl in Ht; try discriminate;
    injection Ht as ->; simpl.
  - unfold aj_register_packet.
    set (c1 := ring_insert (prune_old_by_time (set_last_now_ms t c) t) g t).
    assert (H1 : same_frame (set_last_now_ms t c) c1)
      by (eapply same_frame_trans;
          [apply prune_old_by_time_frame | apply ring_insert_frame]).
    break_if.
    + pose proof (on_window_boundary_frame c1 t) as H2.
      pose proof (same_frame_trans _ _ _ H1 H2)
        as (Hc & Hr & Hcb & Hcx & _ & _ & _ & _ & Hcap).
      eexists; split; [reflexivity |]. simpl in *. auto.
    + destruct H1 as (Hc & Hr & Hcb & Hcx & _ & _ & _ & _ & Hcap).
      eexists; split; [reflexivity |]. simpl in *. auto.
  - unfold aj_register_external_jam.
    pose proof (prune_old_by_time_frame
                  (set_ext_jam_since_ms t (set_ext_jam_recent 1 (set_last_now_ms t c))) t)
      as (Hc & Hr & Hcb & Hcx & _ & _ & _ & _ & Hcap).
    eexists; split; [reflexivity |]. simpl in *. auto.
Qed.

Lemma do_call_keeps_cfg (c : aj_ctx_t) (op : aj_call) :
  (forall k, op <> Configure k) ->
  cfg (fst (do_call c op)) = cfg c /\ capacity (fst (do_call c op)) = capacity c.
Proof.
  intros Hop.
  destruct op as [g t | t | t | | k | f u].
  - destruct (register_call_shape c (RegisterPacket g t) t eq_refl)
      as (m & -> & Hc & _ & _ & _ & Hcap).
    destruct (maybe_fire_cases (update_report m t) t) as [-> | (f & s & -> & _)];
      simpl; auto.
  - destruct (register_call_shape c (RegisterExternalJam t) t eq_refl)
      as (m & -> & Hc & _ & _ & _ & Hcap).
    destruct (maybe_fire_cases (update_report m t) t) as [-> | (f & s & -> & _)];
      simpl; auto.
  - simpl. destruct (aj_tick_frame c t) as (Hc & _ & _ & _ & Hcap). auto.
  - simpl. auto.
  - exfalso. exact (Hop k eq_refl).
  - simpl. auto.
Qed.

Lemma do_calls_hardened (slots : nat) (ops : list aj_call) (c : aj_ctx_t) :
  Forall (call_in_range slots) ops ->
  cfg_hardened (cfg c) -> capacity c = cfg_capacity (cfg c) -> 1 <= capacity c <= 65535 ->
  cfg_hardened (cfg (fst (do_calls c ops))) /\
  capacity (fst (do_calls c ops)) = cfg_capacity (cfg (fst (do_calls c ops))) /\
  1 <= capacity (fst (do_calls c ops)) <= 65535.
Proof.
  revert c. induction ops as [| op rest IH]; intros c Hops Hh Hcap Hrange; [auto |].
  inversion Hops as [| ? ? Hop Hrest]; subst.
  cbn [do_calls].
  assert (H1 : cfg_hardened (cfg (fst (do_call c op))) /\
               capacity (fst (do_call c op)) = cfg_capacity (cfg (fst (do_call c op))) /\
               1 <= capacity (fst (do_call c op)) <= 65535).
  { destruct op as [g t | t | t | | k | f u];
      try (match goal with
           | |- context [do_call c ?o] =>
               destruct (do_call_keeps_cfg c o ltac:(intros k'; discriminate))
                 as [-> ->]
           end; auto; fail).
    destruct Hop as [Hk _]. cbn [do_call fst]. unfold aj_configure.
    destruct (apply_cfg_hardened c k Hk) as (H1 & H2 & H3 & _).
    break_if; simpl; auto. }
  destruct (do_call c op) as [c1 l1]. simpl in H1. destruct H1 as (Hh1 & Hcap1 & Hr1).
  specialize (IH c1 Hrest Hh1 Hcap1 Hr1).
  destruct (do_calls c1 rest) as [c2 l2]. exact IH.
Qed.

(** X15: whatever values of the C types a configuration holds, the
    configuration a context stores after [aj_init] and any sequence of API
    calls has a threshold between 1 and 100, at least one window to jam, a
    positive minimum time between recommendations and, in BY_TIME mode, a
    positive window duration; [capacity] is always the stored window size,
    or 1 where that is 0; and a configuration that already meets these
    conditions is stored unchanged by [aj_configure]. *)
Theorem stored_config_is_hardened (slots : nat) (k : aj_config_t) (c0 : aj_ctx_t)
    (ops : list aj_call) (c : aj_ctx_t) (k' : aj_config_t) :
  cfg_in_range k ->
  aj_init slots k = Some c0 ->
  Forall (call_in_range slots) ops ->
  cfg_hardened (cfg (fst (do_calls c0 ops))) /\
  capacity (fst (do_calls c0 ops)) = cfg_capacity (cfg (fst (do_calls c0 ops))) /\
  1 <= capacity (fst (do_calls c0 ops)) <= 65535 /\
  (cfg_in_range k' -> cfg_hardened k' -> cfg (aj_configure c k') = k').
Proof.
  intros Hk Hinit Hops.
  assert (H0 : cfg_hardened (cfg c0) /\ capacity c0 = cfg_capacity (cfg c0) /\
               1 <= capacity c0 <= 65535).
  { unfold aj_init in Hinit.
    destruct (Z.of_nat slots <? cfg_capacity k); [discriminate |].
    injection Hinit as <-. simpl.
    destruct (apply_cfg_hardened (zeroed_ctx slots) k Hk) as (H1 & H2 & H3 & _). auto. }
  destruct H0 as (Hh & Hcap & Hr).
  destruct (do_calls_hardened slots ops c0 Hops Hh Hcap Hr) as (H1 & H2 & H3).
  split; [exact H1 |]. split; [exact H2 |]. split; [exact H3 |].
  intros Hk' Hh'. unfold aj_configure.
  destruct (apply_cfg_hardened c k' Hk') as (_ & _ & _ & Hid).
  break_if; simpl; apply Hid, Hh'.
Qed.

Lemma stored_config_is_hardened_witness :
  cfg_hardened (cfg (fst (do_calls (started 4 sample_time_cfg) sample_session))) /\
  capacity (fst (do_calls (started 4 sample_time_cfg) sample_session))
  = cfg_capacity (cfg (fst (do_calls (started 4 sample_time_cfg) sample_session))).
Proof.
  assert (Hk : cfg_in_range sample_time_cfg)
    by (unfold cfg_in_range, in_u8, in_u16, in_u32; simpl; repeat split; lia).
  assert (Hops : Forall (call_in_range 4) sample_session).
  { unfold sample_session.
    repeat (apply List.Forall_cons;
            [simpl; try exact I;
             unfold cfg_in_range, in_u8, in_u16, in_u32, cfg_capacity, sample_count_cfg;
             simpl; repeat split; lia |]).
    apply List.Forall_nil. }
  destruct (stored_config_is_hardened 4 sample_time_cfg (started 4 sample_time_cfg)
              sample_session (started 4 sample_time_cfg) sample_count_cfg
              Hk eq_refl Hops) as (H1 & H2 & _).
  split; [exact H1 | exact H2].
Defined.


(** *** The report *)

Lemma u32_clamp_range (x lo hi : Z) : lo <= hi -> lo <= u32_clamp x lo hi <= hi.
Proof.
  intros H. unfold u32_clamp.
  destruct (Z.ltb_spec x lo); [lia |]. destruct (Z.ltb_spec hi x); lia.
Qed.

Lemma score_bounds (c : aj_ctx_t) : ring_ok c -> 0 <= score_of c <= 100.
Proof.
  intros Hok. pose proof (ring_ok_bad_le c Hok) as Hb.
  destruct Hok as (Hcap & _ & Hcnt & _).
  unfold score_of, calc_score. cbn [fst].
  destruct (Z.ltb_spec 0 (count c)) as [Hpos | _]; [| lia].
  rewrite (u32_small (bad_count c * 100)) by (unfold in_u32; lia).
  assert (Hpct : 0 <= bad_count c * 100 / count c <= 100).
  { split; [apply Z.div_pos; lia | apply Z.div_le_upper_bound; lia]. }
  destruct (ext_jam_recent c =? 0).
  - rewrite u8_small by (unfold in_u8; lia). exact Hpct.
  - pose proof (u32_clamp_range (u32 (bad_count c * 100 / count c + 10)) 0 100
                  ltac:(lia)) as Hcl.
    rewrite u8_small by (unfold in_u8; lia). exact Hcl.
Qed.

Lemma make_report_fields (c : aj_ctx_t) (t : Z) :
  rpt_state (make_report c t) = state c /\
  rpt_score (make_report c t) = score_of c /\
  rpt_when (make_report c t) = t /\
  rpt_hop_aggressiveness_hint (make_report c t) = u8 (u32 (score_of c * 255) / 100) /\
  (rpt_recommend_hop (make_report c t) = 0 \/
   rpt_recommend_hop (make_report c t) = 1 /\
   min_time_between_reco_ms (cfg c) <= u32 (t - last_reco_ms c) /\
   (state c = AJ_STATE_JAMMED \/
    state c = AJ_STATE_SUSPECT /\
    u8 (u32_clamp (u32 (jam_threshold_percent (cfg c) + 10)) 0 100) <= score_of c)).
Proof.
  unfold make_report, score_of. destruct (calc_score c) as [[score total] bad].
  cbn [fst rpt_state rpt_score rpt_when rpt_hop_aggressiveness_hint rpt_recommend_hop].
  do 4 (split; [reflexivity |]).
  destruct (Z.leb_spec (min_time_between_reco_ms (cfg c)) (u32 (t - last_reco_ms c)));
    [| left; reflexivity].
  destruct (state c); [left; reflexivity | | right; auto].
  destruct (Z.leb_spec (u8 (u32_clamp (u32 (jam_threshold_percent (cfg c) + 10)) 0 100))
              score); [right; auto | left; reflexivity].
Qed.

Lemma make_report_in_range (c : aj_ctx_t) (t : Z) :
  ring_ok c -> report_in_range (make_report c t).
Proof.
  intros Hok. pose proof (score_bounds c Hok) as Hs.
  destruct (make_report_fields c t) as (_ & Hscore & _ & Hhint & Hrec).
  unfold report_in_range. rewrite Hscore, Hhint.
  rewrite (u32_small (score_of c * 255)) by (unfold in_u32; lia).
  assert (Hh : 0 <= score_of c * 255 / 100 <= 255).
  { split; [apply Z.div_pos; lia | apply Z.div_le_upper_bound; lia]. }
  rewrite u8_small by (unfold in_u8; lia).
  split; [exact Hs |]. split.
  - unfold make_report. destruct (calc_score c) as [[score total] bad].
    cbn [rpt_confidence]. destruct (0 <? total); [| lia].
    pose proof (u32_clamp_range
                  (u32 (u32_clamp total 0 100 / 2
                        + (if jam_threshold_percent (cfg c) <? score
                           then u32 (score - jam_threshold_percent (cfg c)) else 0)))
                  0 100 ltac:(lia)) as Hcl.
    rewrite u8_small by (unfold in_u8; lia). exact Hcl.
  - split; [exact Hh |]. split; [reflexivity |]. tauto.
Qed.

(** Every timed call ends by storing a report made from a context with the
    ring of the result. *)
Lemma timed_call_report (c : aj_ctx_t) (op : aj_call) (t : Z) :
  call_time op = Some t ->
  exists m, same_ring m (fst (do_call c op)) /\
            last_report (fst (do_call c op)) = make_report m t.
Proof.
  intros Ht. destruct op as [g t' | t' | t' | | |]; simpl in Ht; try discriminate;
    injection Ht as ->.
  - destruct (register_call_shape c (RegisterPacket g t) t eq_refl) as (m & -> & _).
    exists m. destruct (maybe_fire_cases (update_report m t) t) as [-> | (f & s & -> & _)];
      simpl; split; try reflexivity; unfold same_ring; simpl; repeat split.
  - destruct (register_call_shape c (RegisterExternalJam t) t eq_refl) as (m & -> & _).
    exists m. destruct (maybe_fire_cases (update_report m t) t) as [-> | (f & s & -> & _)];
      simpl; split; try reflexivity; unfold same_ring; simpl; repeat split.
  - simpl. unfold aj_tick. eexists. split; [| reflexivity].
    unfold same_ring. simpl. repeat split.
Qed.

Lemma apply_cfg_report (c : aj_ctx_t) (k : aj_config_t) :
  last_report (aj_internal_apply_cfg c k) = last_report c.
Proof. unfold aj_internal_apply_cfg. break_ifs; reflexivity. Qed.

Lemma same_ring_sym (c c' : aj_ctx_t) : same_ring c c' -> same_ring c' c.
Proof. unfold same_ring. intuition congruence. Qed.

Lemma do_call_report_in_range (slots : nat) (c : aj_ctx_t) (op : aj_call) :
  call_fits slots op -> ring_fits slots c -> report_in_range (last_report c) ->
  report_in_range (last_report (fst (do_call c op))).
Proof.
  intros Hop Hfit Hrep.
  pose proof (do_call_fits slots c op Hop Hfit) as [Hok' _].
  destruct (call_time op) as [t |] eqn:Ht.
  - destruct (timed_call_report c op t Ht) as (m & Hring & ->).
    apply make_report_in_range.
    apply (ring_ok_ext _ m (same_ring_sym _ _ Hring)). exact Hok'.
  - destruct op as [g t | t | t | | k | f u]; simpl in Ht; try discriminate.
    + cbn [do_call fst]. unfold aj_reset. cbn [last_report set_last_report].
      unfold report_in_range. simpl. repeat split; lia.
    + cbn [do_call fst]. unfold aj_configure. break_if; simpl;
        rewrite apply_cfg_report; exact Hrep.
    + exact Hrep.
Qed.

Lemma do_calls_report_in_range (slots : nat) (ops : list aj_call) (c : aj_ctx_t) :
  Forall (call_fits slots) ops -> ring_fits slots c ->
  report_in_range (last_report c) ->
  report_in_range (last_report (fst (do_calls c ops))).
Proof.
  revert c. induction ops as [| op rest IH]; intros c Hops Hfit Hrep; [exact Hrep |].
  inversion Hops as [| ? ? Hop Hrest]; subst.
  cbn [do_calls].
  pose proof (do_call_fits slots c op Hop Hfit) as Hfit1.
  pose proof (do_call_report_in_range slots c op Hop Hfit Hrep) as Hrep1.
  destruct (do_call c op) as [c1 l1]. simpl in Hfit1, Hrep1.
  specialize (IH c1 Hrest Hfit1 Hrep1). destruct (do_calls c1 rest) as [c2 l2].
  exact IH.
Qed.

(** X16: from [aj_init] on, after any sequence of API calls, the report
    [aj_get_report] returns has a score and a confidence between 0 and
    100, a hop-aggressiveness hint between 0 and 255 that is the score
    scaled by 255/100, and a recommendation flag that is 0 or 1. *)
Theorem report_fields_in_range (slots : nat) (k : aj_config_t) (c0 : aj_ctx_t)
    (ops : list aj_call) :
  in_u16 (window_size_packets k) ->
  aj_init slots k = Some c0 ->
  Forall (call_fits slots) ops ->
  report_in_range (aj_get_report (fst (do_calls c0 ops))).
Proof.
  intros Hk Hinit Hops. unfold aj_get_report.
  apply (do_calls_report_in_range slots); [exact Hops | |].
  - exact (aj_init_fits slots k c0 Hk Hinit).
  - unfold aj_init in Hinit.
    destruct (Z.of_nat slots <? cfg_capacity k); [discriminate |].
    injection Hinit as <-. cbn [last_report set_hop_cb set_last_report].
    unfold report_in_range. simpl. repeat split; lia.
Qed.

Lemma report_fields_in_range_witness :
  report_in_range
    (aj_get_report (fst (do_calls (started 4 sample_time_cfg) sample_session))).
Proof.
  apply (report_fields_in_range 4 sample_time_cfg (started 4 sample_time_cfg)
           sample_session).
  - unfold in_u16. simpl. lia.
  - reflexivity.
  - unfold sample_session.
    repeat (apply List.Forall_cons;
            [simpl; try exact I;
             unfold in_u16, cfg_capacity, sample_count_cfg; simpl; lia |]).
    apply List.Forall_nil.
Defined.

(** *** The callback and [aj_evaluate_hop] *)

Lemma register_call_suggestion (c : aj_ctx_t) (op : aj_call) (t : Z) :
  register_time op = Some t ->
  snd (do_call c op) = [] \/
  exists f,
    hop_cb c = Some f /\
    snd (do_call c op)
    = [mk_hop_call f (aj_evaluate_hop (fst (do_call c op))) (hop_cb_ctx c) t] /\
    recommend (aj_evaluate_hop (fst (do_call c op))) = 1 /\
    rpt_recommend_hop (aj_get_report (fst (do_call c op))) = 1 /\
    state (fst (do_call c op)) <> AJ_STATE_NOT_JAMMED.
Proof.
  intros Ht.
  destruct (register_call_shape c op t Ht) as (m & -> & Hcfg & _ & Hcb & Hcx & _).
  destruct (maybe_fire_cases (update_report m t) t) as [-> | (f & s & Hfire & Hf & Hrec)];
    [left; reflexivity |].
  right. exists f. cbn [hop_cb update_report set_last_report] in Hf.
  split; [congruence |].
  cbn [last_report update_report set_last_report] in Hrec.
  destruct (make_report_fields m t) as (_ & Hscore & _ & _ & [H0 | (H1 & _ & Hst)]);
    [contradiction |].
  assert (Heval : aj_evaluate_hop (set_last_reco_ms t (update_report m t))
                  = mk_suggestion 1 (rpt_confidence (make_report m t))
                      (if negb (allow_group_switch_suggestions (cfg m) =? 0)
                          && ((80 <=? rpt_score (make_report m t))
                              || negb (ext_jam_recent m =? 0))
                       then 1 else 0)
                      (rpt_hop_aggressiveness_hint (make_report m t)) 0 0).
  { unfold aj_evaluate_hop.
    cbn [state last_report cfg ext_jam_recent set_last_reco_ms update_report
         set_last_report].
    rewrite Hscore.
    destruct Hst as [-> | [-> Hle]]; [reflexivity |].
    destruct (Z.leb_spec (u8 (u32_clamp (u32 (jam_threshold_percent (cfg m) + 10)) 0 100))
                (score_of m)); [reflexivity | lia]. }
  assert (Hcall : maybe_fire_hop_callback (update_report m t) t
                  = (set_last_reco_ms t (update_report m t),
                     [mk_hop_call f
                        (aj_evaluate_hop (set_last_reco_ms t (update_report m t)))
                        (hop_cb_ctx m) t])).
  { rewrite Heval. unfold maybe_fire_hop_callback.
    cbn [hop_cb last_report cfg ext_jam_recent hop_cb_ctx update_report set_last_report].
    rewrite Hf. destruct (Z.eqb_spec (rpt_recommend_hop (make_report m t)) 0);
      [contradiction | reflexivity]. }
  rewrite Hcall. cbn [fst snd]. rewrite Hcx.
  split; [reflexivity |]. split; [rewrite Heval; reflexivity |].
  split; [exact H1 |].
  cbn [state set_last_reco_ms update_report set_last_report].
  destruct Hst as [-> | [-> _]]; discriminate.
Qed.

(** X17: a register call invokes the hop callback at most once; when it
    does, the suggestion it hands over is the one [aj_evaluate_hop]
    computes on the context the call leaves behind, it recommends the hop,
    the stored report recommends it too, and the context is not in state
    NOT_JAMMED. *)
Theorem callback_receives_evaluated_suggestion (c : aj_ctx_t) (op : aj_call) (t : Z) :
  register_time op = Some t ->
  snd (do_call c op) = [] \/
  exists f,
    hop_cb c = Some f /\
    snd (do_call c op)
    = [mk_hop_call f (aj_evaluate_hop (fst (do_call c op))) (hop_cb_ctx c) t] /\
    recommend (aj_evaluate_hop (fst (do_call c op))) = 1 /\
    rpt_recommend_hop (aj_get_report (fst (do_call c op))) = 1 /\
    state (fst (do_call c op)) <> AJ_STATE_NOT_JAMMED.
Proof. apply register_call_suggestion. Qed.

Lemma callback_receives_evaluated_suggestion_witness :
  snd (do_call
         (fst (do_calls
                 (aj_set_hop_callback (started 2 sample_count_cfg) (Some 1%positive) 7)
                 (firstn 2 sample_burst)))
         (RegisterPacket 0 150)) = [] \/
  exists f,
    hop_cb (fst (do_calls
                   (aj_set_hop_callback (started 2 sample_count_cfg) (Some 1%positive) 7)
                   (firstn 2 sample_burst))) = Some f /\
    snd (do_call
           (fst (do_calls
                   (aj_set_hop_callback (started 2 sample_count_cfg) (Some 1%positive) 7)
                   (firstn 2 sample_burst)))
           (RegisterPacket 0 150))
    = [mk_hop_call f (mk_suggestion 1 51 0 255 0 0) 7 150] /\
    1 = 1 /\ 1 = 1 /\ AJ_STATE_JAMMED <> AJ_STATE_NOT_JAMMED.
Proof.
  exact (callback_receives_evaluated_suggestion
           (fst (do_calls
                   (aj_set_hop_callback (started 2 sample_count_cfg) (Some 1%positive) 7)
                   (firstn 2 sample_burst)))
           (RegisterPacket 0 150) 150 eq_refl).
Defined.

(** On that input the callback is invoked. *)
Example sample_callback_invoked :
  snd (do_call
         (fst (do_calls
                 (aj_set_hop_callback (started 2 sample_count_cfg) (Some 1%positive) 7)
                 (firstn 2 sample_burst)))
         (RegisterPacket 0 150))
  = [mk_hop_call 1%positive (mk_suggestion 1 51 0 255 0 0) 7 150].
Proof. vm_compute. reflexivity. Qed.

(** *** The state machine *)

(** X18: the transitions of [on_window_boundary].  JAMMED is entered only
    at a jammy window that brings the streak to the configured number of
    consecutive windows; JAMMED is left only for SUSPECT, only at a window
    that is not jammy and only once the hold time has elapsed since the
    last change; a window that is not jammy keeps NOT_JAMMED and resets
    the streak, a jammy one adds one to it up to 255; the time of the last
    change is set exactly when the state changes. *)
Theorem boundary_transitions (c : aj_ctx_t) (t : Z) :
  (state (on_window_boundary c t) = AJ_STATE_JAMMED ->
   state c = AJ_STATE_JAMMED \/
   is_window_jammy c = true /\
   consecutive_windows_to_jam (cfg c) <= jam_streak (on_window_boundary c t)) /\
  (state c = AJ_STATE_JAMMED ->
   state (on_window_boundary c t) = AJ_STATE_JAMMED \/
   state (on_window_boundary c t) = AJ_STATE_SUSPECT /\
   is_window_jammy c = false /\
   jam_state_hold_time_ms (cfg c) <= u32 (t - last_jam_change_ms c)) /\
  (is_window_jammy c = false ->
   jam_streak (on_window_boundary c t) = 0 /\
   (state c = AJ_STATE_NOT_JAMMED ->
    state (on_window_boundary c t) = AJ_STATE_NOT_JAMMED)) /\
  (is_window_jammy c = true ->
   jam_streak (on_window_boundary c t)
   = (if jam_streak c <? 255 then u8 (jam_streak c + 1) else jam_streak c) /\
   state (on_window_boundary c t) <> AJ_STATE_NOT_JAMMED) /\
  (last_jam_change_ms (on_window_boundary c t)
   = if state_eqb (state (on_window_boundary c t)) (state c)
     then last_jam_change_ms c else t).
Proof.
  unfold on_window_boundary.
  destruct (is_window_jammy c) eqn:Hj.
  - destruct (jam_streak c <? 255);
      cbn [cfg jam_streak state set_jam_streak];
      match goal with |- context [?a <=? ?b] => destruct (Z.leb_spec a b) end;
      destruct (state c) eqn:Hs;
      cbn [negb state_eqb state jam_streak last_jam_change_ms set_state
           set_last_jam_change_ms set_jam_streak];
      rewrite ?Hs; cbn [state_eqb];
      repeat split; try discriminate; try (intros; discriminate); auto.
  - cbn [state set_jam_streak]. destruct (state c) eqn:Hs.
    + cbn [state jam_streak last_jam_change_ms set_jam_streak]. rewrite Hs.
      cbn [state_eqb]. repeat split; try discriminate; try (intros; discriminate); auto.
    + destruct (calc_score (set_jam_streak 0 c)) as [[score total] bad].
      break_if;
        cbn [state jam_streak last_jam_change_ms set_jam_streak set_state
             set_last_jam_change_ms]; rewrite ?Hs; cbn [state_eqb];
        repeat split; try discriminate; try (intros; discriminate); auto.
    + cbn [cfg last_jam_change_ms set_jam_streak].
      destruct (Z.leb_spec (jam_state_hold_time_ms (cfg c))
                  (u32 (t - last_jam_change_ms c)));
        cbn [state jam_streak last_jam_change_ms set_jam_streak set_state
             set_last_jam_change_ms]; rewrite ?Hs; cbn [state_eqb];
        repeat split; try discriminate; try (intros; discriminate); auto.
Qed.

Lemma boundary_transitions_witness :
  state (on_window_boundary
           (fst (do_calls (started 4 sample_time_cfg) (firstn 5 sample_session))) 120)
    = AJ_STATE_JAMMED /\
  jam_streak (on_window_boundary
                (fst (do_calls (started 4 sample_time_cfg) (firstn 5 sample_session)))
                120) = 1.
Proof.
  pose proof (boundary_transitions
                (fst (do_calls (started 4 sample_time_cfg) (firstn 5 sample_session)))
                120) as (_ & _ & _ & Hjam & _).
  assert (Hj : is_window_jammy
                 (fst (do_calls (started 4 sample_time_cfg) (firstn 5 sample_session)))
               = true) by (vm_compute; reflexivity).
  destruct (Hjam Hj) as [Hstreak _].
  split; [vm_compute; reflexivity |].
  rewrite Hstreak. vm_compute. reflexivity.
Defined.

(** *** Pacing across ticks *)

Lemma timed_call_cases (c : aj_ctx_t) (op : aj_call) (t : Z) :
  call_time op = Some t ->
  cfg (fst (do_call c op)) = cfg c /\
  ((snd (do_call c op) = [] /\ last_reco_ms (fst (do_call c op)) = last_reco_ms c) \/
   (fire_times (snd (do_call c op)) = [t] /\
    last_reco_ms (fst (do_call c op)) = t /\
    min_time_between_reco_ms (cfg c) <= u32 (t - last_reco_ms c))).
Proof.
  intros Ht. destruct op as [g t' | t' | t' | | |]; simpl in Ht; try discriminate;
    injection Ht as ->.
  - apply register_call_cases. reflexivity.
  - apply register_call_cases. reflexivity.
  - cbn [do_call fst snd]. destruct (aj_tick_frame c t) as (Hc & Hr & _).
    split; [exact Hc |]. left. split; [reflexivity | exact Hr].
Qed.

Lemma paced_timed_run (ops : list aj_call) (c : aj_ctx_t) (lo : Z) :
  timed_run lo ops ->
  paced (min_time_between_reco_ms (cfg c)) (fire_times (snd (do_calls c ops))) /\
  Forall (fun t => lo <= t /\ in_u32 t) (fire_times (snd (do_calls c ops))) /\
  match fire_times (snd (do_calls c ops)) with
  | t0 :: _ => min_time_between_reco_ms (cfg c) <= u32 (t0 - last_reco_ms c)
  | [] => True
  end.
Proof.
  revert c lo. induction ops as [| op rest IH]; intros c lo Hrun.
  - simpl. auto.
  - simpl in Hrun. destruct (call_time op) as [t |] eqn:Ht; [| contradiction].
    destruct Hrun as (Hlo & Hin & Hrest).
    destruct (timed_call_cases c op t Ht) as (Hcfg & Hcase).
    cbn [do_calls]. destruct (do_call c op) as [c1 l1]. simpl in Hcfg, Hcase.
    specialize (IH c1 t Hrest). rewrite Hcfg in IH.
    destruct (do_calls c1 rest) as [c2 l2]. simpl in IH |- *.
    destruct IH as (Hp & Hall & Hhd).
    assert (Hall' : Forall (fun t0 => lo <= t0 /\ in_u32 t0) (fire_times l2)).
    { eapply Forall_impl; [exact Hall |]. simpl. intros a [Ha1 Ha2].
      split; [lia | exact Ha2]. }
    unfold fire_times in *. rewrite map_app.
    destruct Hcase as [(-> & Hreco) | (Hl1 & Hreco & Hgap)].
    + simpl. rewrite Hreco in Hhd. auto.
    + rewrite Hl1. simpl. split; [| split].
      * destruct (map hc_now_ms l2) as [| t0 l2'] eqn:Hl2; [exact I |].
        split; [| exact Hp].
        rewrite Hreco in Hhd. inversion Hall as [| ? ? (Hge & Hr) _]; subst.
        rewrite u32_small in Hhd by (unfold in_u32 in *; lia). exact Hhd.
      * constructor; [split; [lia | exact Hin] | exact Hall'].
      * exact Hgap.
Qed.

(** X19: ticks between the register calls do not disturb the pacing: along
    any sequence of [aj_register_packet], [aj_register_external_jam] and
    [aj_tick] calls with non-decreasing times, two consecutive invocations
    of the hop callback are at least the stored
    [min_time_between_reco_ms] apart, and the first one comes at least
    that long after the context's [last_reco_ms]. *)
Theorem callback_paced_across_ticks (c : aj_ctx_t) (ops : list aj_call) (lo : Z) :
  timed_run lo ops ->
  paced (min_time_between_reco_ms (cfg c)) (fire_times (snd (do_calls c ops))) /\
  match fire_times (snd (do_calls c ops)) with
  | t0 :: _ => min_time_between_reco_ms (cfg c) <= u32 (t0 - last_reco_ms c)
  | [] => True
  end.
Proof.
  intros Hrun. destruct (paced_timed_run ops c lo Hrun) as (Hp & _ & Hhd). auto.
Qed.

Lemma callback_paced_across_ticks_witness :
  timed_run 0 sample_ticks /\
  paced (min_time_between_reco_ms
           (cfg (aj_set_hop_callback (started 2 sample_count_cfg) (Some 1%positive) 7)))
    (fire_times
       (snd (do_calls
               (aj_set_hop_callback (started 2 sample_count_cfg) (Some 1%positive) 7)
               sample_ticks))).
Proof.
  assert (Hrun : timed_run 0 sample_ticks)
    by (simpl; unfold in_u32; repeat split; lia).
  split; [exact Hrun |].
  destruct (callback_paced_across_ticks
              (aj_set_hop_callback (started 2 sample_count_cfg) (Some 1%positive) 7)
              sample_ticks 0 Hrun) as [Hp _].
  exact Hp.
Defined.

(** On that input the callback is invoked at 150 ms and at 250 ms; the
    packet at 245 ms, 95 ms after the first invocation, is passed over. *)
Example sample_ticks_fires :
  fire_times
    (snd (do_calls
            (aj_set_hop_callback (started 2 sample_count_cfg) (Some 1%positive) 7)
            sample_ticks)) = [150; 250].
Proof. vm_compute. reflexivity. Qed.

(** *** The external-jam flag *)

Lemma maybe_fire_ext (c : aj_ctx_t) (t : Z) :
  ext_jam_recent (fst (maybe_fire_hop_callback c t)) = ext_jam_recent c /\
  ext_jam_since_ms (fst (maybe_fire_hop_callback c t)) = ext_jam_since_ms c /\
  cfg (fst (maybe_fire_hop_callback c t)) = cfg c.
Proof.
  destruct (maybe_fire_cases c t) as [-> | (f & s & -> & _)]; simpl; auto.
Qed.

Lemma external_jam_fields (c : aj_ctx_t) (t0 : Z) :
  ext_jam_recent (fst (aj_register_external_jam c t0)) = 1 /\
  ext_jam_since_ms (fst (aj_register_external_jam c t0)) = t0 /\
  cfg (fst (aj_register_external_jam c t0)) = cfg c.
Proof.
  unfold aj_register_external_jam.
  pose proof (prune_old_by_time_frame
                (set_ext_jam_since_ms t0 (set_ext_jam_recent 1 (set_last_now_ms t0 c)))
                t0) as (Hc & _ & _ & _ & _ & _ & He & Hes & _).
  match goal with
  | |- context [maybe_fire_hop_callback ?x t0] =>
      destruct (maybe_fire_ext x t0) as (-> & -> & ->)
  end.
  cbn [update_report set_last_report ext_jam_recent ext_jam_since_ms cfg].
  rewrite He, Hes, Hc. split; [reflexivity |]. split; reflexivity.
Qed.

Lemma tick_ext_flag (c : aj_ctx_t) (t : Z) :
  ext_jam_recent (aj_tick c t)
  = if ext_jam_recent c =? 0 then ext_jam_recent c
    else if ext_jam_limit c <=? u32 (t - ext_jam_since_ms c) then 0
         else ext_jam_recent c.
Proof.
  unfold aj_tick. cbn [ext_jam_recent update_report set_last_report].
  pose proof (tick_window_frame (set_last_now_ms t c) t)
    as (Hcw & _ & _ & _ & Hew & Hesw & _).
  cbn [cfg ext_jam_recent ext_jam_since_ms set_last_now_ms] in Hcw, Hew, Hesw.
  unfold tick_age_ext_jam, ext_jam_limit. rewrite Hew, Hesw, Hcw.
  repeat break_if; cbn [ext_jam_recent set_ext_jam_recent]; auto.
Qed.

Lemma tick_ext_since (c : aj_ctx_t) (t : Z) :
  ext_jam_since_ms (aj_tick c t) = ext_jam_since_ms c /\
  ext_jam_limit (aj_tick c t) = ext_jam_limit c.
Proof.
  destruct (aj_tick_frame c t) as (Hc & _).
  split; [| unfold ext_jam_limit; rewrite Hc; reflexivity].
  unfold aj_tick. cbn [ext_jam_since_ms update_report set_last_report].
  pose proof (tick_window_frame (set_last_now_ms t c) t)
    as (_ & _ & _ & _ & _ & Hesw & _).
  cbn [ext_jam_since_ms set_last_now_ms] in Hesw.
  unfold tick_age_ext_jam.
  repeat break_if; cbn [ext_jam_since_ms set_ext_jam_recent]; exact Hesw.
Qed.

(** Over a sequence of ticks a raised flag is up as long as no tick came
    late, and a flag that is down stays down. *)
Lemma ticks_ext_flag (times : list Z) (c : aj_ctx_t) :
  ext_jam_recent c = 0 \/ ext_jam_recent c = 1 ->
  ext_jam_recent (aj_ticks c times)
  = if ext_jam_recent c =? 0 then 0
    else if some_tick_late (ext_jam_limit c) (ext_jam_since_ms c) times then 0 else 1.
Proof.
  revert c. induction times as [| t rest IH]; intros c Hflag.
  - cbn [aj_ticks fold_left some_tick_late existsb]. destruct Hflag as [-> | ->]; reflexivity.
  - unfold aj_ticks. cbn [fold_left]. fold (aj_ticks (aj_tick c t) rest).
    destruct (tick_ext_since c t) as [Hs Hl].
    pose proof (tick_ext_flag c t) as Hstep.
    assert (Hflag' : ext_jam_recent (aj_tick c t) = 0 \/ ext_jam_recent (aj_tick c t) = 1).
    { rewrite Hstep. destruct Hflag as [-> | ->]; [left; reflexivity |].
      change (1 =? 0) with false. cbv iota.
      destruct (ext_jam_limit c <=? u32 (t - ext_jam_since_ms c)); auto. }
    rewrite (IH (aj_tick c t) Hflag'), Hs, Hl, Hstep.
    cbn [some_tick_late existsb]. fold (some_tick_late (ext_jam_limit c)
                                          (ext_jam_since_ms c) rest).
    destruct Hflag as [-> | ->]; [reflexivity |].
    change (1 =? 0) with false. cbv iota.
    destruct (ext_jam_limit c <=? u32 (t - ext_jam_since_ms c)); reflexivity.
Qed.

(** X20: the external-jam flag set by [aj_register_external_jam] at time
    [t0] ages out over the ticks that follow.  After any sequence of
    [aj_tick] calls made on the context the register call leaves, the flag
    is still 1 if every one of these ticks came less than one window
    duration after [t0] (1000 ms in BY_COUNT mode, or when the stored
    duration is 0), and it is 0 if any of them came at least that much
    later, the age being measured in wrapping [uint32_t] arithmetic: the
    flag survives every early tick, the first late tick clears it, and no
    tick raises it again. *)
Theorem external_jam_flag_ages_out (c : aj_ctx_t) (t0 : Z) (times : list Z) :
  ext_jam_recent (fst (aj_register_external_jam c t0)) = 1 /\
  ext_jam_recent (aj_ticks (fst (aj_register_external_jam c t0)) times)
  = (if some_tick_late (ext_jam_limit c) t0 times then 0 else 1).
Proof.
  destruct (external_jam_fields c t0) as (He & Hes & Hc).
  split; [exact He |].
  rewrite ticks_ext_flag by (right; exact He).
  rewrite He, Hes. unfold ext_jam_limit. rewrite Hc. reflexivity.
Qed.

(** Three ticks after an external jam at 45 ms in a 100 ms time window:
    the flag is up after the ticks at 60 and 140 ms and down after the one
    at 150 ms; a later tick at 155 ms, again less than a window after some
    earlier tick, leaves it down. *)
Example sample_external_jam_ageing :
  map (fun times =>
         ext_jam_recent
           (aj_ticks (fst (aj_register_external_jam (started 4 sample_time_cfg) 45))
              times))
      [[60]; [60; 140]; [60; 140; 150]; [60; 140; 150; 155]]
  = [1; 1; 0; 0].
Proof. vm_compute. reflexivity. Qed.

Lemma do_call_packet (c : aj_ctx_t) (g t : Z) :
  do_call c (RegisterPacket g t) = aj_register_packet c g t.
Proof. reflexivity. Qed.

Lemma do_call_external_jam (c : aj_ctx_t) (t : Z) :
  do_call c (RegisterExternalJam t) = aj_register_external_jam c t.
Proof. reflexivity. Qed.

(** *** The contents of the window *)

Lemma keep_last_short {A : Type} (n : nat) (l : list A) :
  (length l <= n)%nat -> keep_last n l = l.
Proof.
  intros H. unfold keep_last. replace (length l - n)%nat with 0%nat by lia. reflexivity.
Qed.

Lemma keep_last_app {A : Type} (n : nat) (l m : list A) :
  keep_last n (keep_last n l ++ m) = keep_last n (l ++ m).
Proof.
  destruct (Nat.le_gt_cases (length l) n) as [Hle | Hgt].
  - rewrite (keep_last_short n l Hle). reflexivity.
  - unfold keep_last. rewrite !length_app, length_drop.
    destruct (Nat.le_gt_cases (length m) n) as [Hm | Hm].
    + rewrite !drop_app_le by (rewrite ?length_drop; lia).
      rewrite drop_drop. do 2 f_equal. lia.
    + rewrite !drop_app_ge by (rewrite ?length_drop; lia).
      rewrite length_drop. f_equal. lia.
Qed.

Lemma same_ring_entries (c c' : aj_ctx_t) :
  same_ring c c' -> ring_entries c' = ring_entries c.
Proof. unfold ring_entries. intros (-> & -> & -> & _ & ->). reflexivity. Qed.

Lemma ring_insert_fields (c : aj_ctx_t) (g t : Z) :
  ring_ok c ->
  entries (ring_insert c g t)
  = store_entry (entries c) (head c) (mk_entry (if g =? 0 then 0 else 1) t) /\
  capacity (ring_insert c g t) = capacity c /\
  head (ring_insert c g t) = (head c + 1) mod capacity c /\
  count (ring_insert c g t) = (if count c =? capacity c then count c else count c + 1).
Proof.
  intros (Hcap & Hlen & Hcnt & Hhd & Hbad).
  pose proof (Z.mod_pos_bound (head c + 1) (capacity c) ltac:(lia)) as Hh1.
  assert (Hhead : u16 (u32 (head c + 1) mod capacity c) = (head c + 1) mod capacity c).
  { rewrite (u32_small (head c + 1)) by (unfold in_u32; lia).
    apply u16_small. unfold in_u16. lia. }
  unfold ring_insert.
  destruct (Z.eqb_spec (count c) (capacity c)) as [Hfull | Hroom].
  - repeat break_if; simpl; rewrite Hhead; repeat split.
  - assert (Hc1 : u16 (count c + 1) = count c + 1) by (apply u16_small; unfold in_u16; lia).
    repeat break_if; simpl; rewrite Hhead, Hc1; repeat split.
Qed.

(** One insert: the ring holds the last [capacity] of what it held and the
    new entry. *)
Lemma ring_insert_entries (c : aj_ctx_t) (g t : Z) :
  ring_ok c ->
  ring_entries (ring_insert c g t)
  = keep_last (Z.to_nat (capacity c))
      (ring_entries c ++ [mk_entry (if g =? 0 then 0 else 1) t]).
Proof.
  intros Hok. destruct (ring_insert_fields c g t Hok) as (Hes & Hcp & Hhd' & Hcnt').
  destruct Hok as (Hcap & Hlen & Hcnt & Hhd & Hbad).
  set (e := mk_entry (if g =? 0 then 0 else 1) t) in *.
  unfold ring_entries. rewrite Hes, Hcp, Hhd', Hcnt'.
  destruct (Z.eqb_spec (count c) (capacity c)) as [Hfull | Hroom].
  - pose proof (ring_view_push (entries c) (capacity c) (head c) (count c - 1) e
                  Hcap ltac:(lia) Hhd Hlen) as Hpush.
    replace (count c - 1 + 1) with (count c) in Hpush by lia.
    rewrite Hpush.
    rewrite (ring_view_pop (entries c) (capacity c) (head c) (count c) Hcap ltac:(lia) Hhd).
    unfold keep_last. cbn [app length]. rewrite length_app, ring_view_length. cbn [length].
    replace (S (Z.to_nat (count c - 1) + 1) - Z.to_nat (capacity c))%nat with 1%nat by lia.
    reflexivity.
  - rewrite (ring_view_push (entries c) (capacity c) (head c) (count c) e
               Hcap ltac:(lia) Hhd Hlen).
    symmetry. apply keep_last_short.
    rewrite length_app, ring_view_length. cbn [length]. lia.
Qed.

Lemma set_last_now_ring (c : aj_ctx_t) (t : Z) : same_ring c (set_last_now_ms t c).
Proof. unfold same_ring. simpl. repeat split. Qed.

(** A register call prunes, inserts, and leaves the ring alone after
    that. *)
Lemma register_packet_entries (c : aj_ctx_t) (g t : Z) :
  ring_ok c ->
  ring_entries (fst (aj_register_packet c g t))
  = keep_last (Z.to_nat (capacity c))
      (ring_entries (prune_old_by_time (set_last_now_ms t c) t)
       ++ [mk_entry (if g =? 0 then 0 else 1) t]).
Proof.
  intros Hok. unfold aj_register_packet.
  set (c1 := set_last_now_ms t c).
  assert (Hok1 : ring_ok c1) by (apply (ring_ok_ext c); [apply set_last_now_ring | exact Hok]).
  destruct (prune_old_by_time_ok c1 t Hok1) as [Hok2 _].
  pose proof (prune_old_by_time_frame c1 t) as (_ & _ & _ & _ & _ & _ & _ & _ & Hcap2).
  set (c2 := prune_old_by_time c1 t) in *.
  rewrite (same_ring_entries _ _ (maybe_fire_ring _ t)).
  rewrite (same_ring_entries _ _ (update_report_ring _ t)).
  assert (Hins : ring_entries (ring_insert c2 g t)
                 = keep_last (Z.to_nat (capacity c))
                     (ring_entries c2 ++ [mk_entry (if g =? 0 then 0 else 1) t])).
  { rewrite ring_insert_entries by exact Hok2. rewrite Hcap2. reflexivity. }
  break_if; [| exact Hins].
  rewrite (same_ring_entries _ _ (on_window_boundary_ring _ t)). exact Hins.
Qed.

Lemma register_all_entries (pkts : list (Z * Z)) (c : aj_ctx_t) :
  ring_ok c -> is_by_time (window_mode (cfg c)) = false ->
  ring_entries (fst (do_calls c (register_all pkts)))
  = keep_last (Z.to_nat (capacity c)) (ring_entries c ++ map packet_entry pkts) /\
  ring_ok (fst (do_calls c (register_all pkts))).
Proof.
  revert c. induction pkts as [| [g t] rest IH]; intros c Hok Hmode.
  - simpl. rewrite app_nil_r. split; [| exact Hok].
    symmetry. apply keep_last_short. unfold ring_entries. rewrite ring_view_length.
    destruct Hok as (_ & _ & Hcnt & _). lia.
  - cbn [register_all map do_calls fst snd]. rewrite do_call_packet.
    change (map (fun p => RegisterPacket (fst p) (snd p)) rest) with (register_all rest).
    pose proof (register_packet_entries c g t Hok) as Hent.
    destruct (aj_register_packet_fits (length (entries c)) c g t (conj Hok eq_refl))
      as [Hok1 _].
    destruct (do_call_keeps_cfg c (RegisterPacket g t) ltac:(intros k'; discriminate))
      as [Hcfg Hcap].
    rewrite do_call_packet in Hcfg, Hcap.
    assert (Hprune : prune_old_by_time (set_last_now_ms t c) t = set_last_now_ms t c).
    { unfold prune_old_by_time. cbn [cfg set_last_now_ms]. rewrite Hmode. reflexivity. }
    rewrite Hprune, (same_ring_entries _ _ (set_last_now_ring c t)) in Hent.
    destruct (aj_register_packet c g t) as [c1 l1]. cbn [fst] in *.
    assert (Hmode1 : is_by_time (window_mode (cfg c1)) = false) by (rewrite Hcfg; exact Hmode).
    destruct (IH c1 Hok1 Hmode1) as [IHe IHok].
    destruct (do_calls c1 (register_all rest)) as [c2 l2]. cbn [fst] in *.
    split; [| exact IHok].
    rewrite IHe, Hent, Hcap, keep_last_app, <- app_assoc. reflexivity.
Qed.

(** X21: in BY_COUNT mode the ring is a sliding window: after any list of
    packets has been registered into a consistent ring, the ring holds,
    oldest first, the last [capacity] entries of what it held before
    followed by the registered packets, each with its good flag reduced to
    0 or 1 and its time stamp. *)
Theorem count_window_contents (c : aj_ctx_t) (pkts : list (Z * Z)) :
  ring_ok c -> is_by_time (window_mode (cfg c)) = false ->
  ring_entries (fst (do_calls c (register_all pkts)))
  = keep_last (Z.to_nat (capacity c)) (ring_entries c ++ map packet_entry pkts).
Proof. intros Hok Hmode. apply register_all_entries; assumption. Qed.

Lemma count_window_contents_witness :
  ring_entries
    (fst (do_calls (started 2 sample_count_cfg)
            (register_all [(0, 10); (5, 20); (0, 30)])))
  = keep_last (Z.to_nat (capacity (started 2 sample_count_cfg)))
      (ring_entries (started 2 sample_count_cfg)
       ++ map packet_entry [(0, 10); (5, 20); (0, 30)]).
Proof.
  apply (count_window_contents (started 2 sample_count_cfg) [(0, 10); (5, 20); (0, 30)]).
  - apply (aj_init_fits 2 sample_count_cfg); [unfold in_u16; simpl; lia | reflexivity].
  - reflexivity.
Defined.

(** On that input the ring of two ends with the second and third packet. *)
Example sample_count_window :
  ring_entries
    (fst (do_calls (started 2 sample_count_cfg)
            (register_all [(0, 10); (5, 20); (0, 30)])))
  = [mk_entry 1 20; mk_entry 0 30].
Proof. vm_compute. reflexivity. Qed.

(** *** Pruning *)

Lemma prune_step_entries (cutoff : Z) (c : aj_ctx_t) :
  ring_ok c ->
  match prune_step cutoff c with
  | None => drop_older cutoff (ring_entries c) = ring_entries c
  | Some c' => drop_older cutoff (ring_entries c) = drop_older cutoff (ring_entries c')
  end.
Proof.
  intros (Hcap & Hlen & Hcnt & Hhd & Hbad). unfold prune_step.
  destruct (Z.ltb_spec 0 (count c)) as [Hpos | Hz].
  - assert (Hpop : ring_entries c
                   = entry_at (entries c) (tail_index c)
                     :: ring_view (entries c) (capacity c) (head c) (count c - 1))
      by (apply ring_view_pop; lia).
    assert (Hc1 : u16 (count c - 1) = count c - 1) by (apply u16_small; unfold in_u16; lia).
    destruct (cutoff <=? ts (entry_at (entries c) (tail_index c))) eqn:Hts.
    + rewrite Hpop. cbn [drop_older]. rewrite Hts. reflexivity.
    + rewrite Hpop. cbn [drop_older]. rewrite Hts.
      unfold ring_entries. break_if; simpl; rewrite Hc1; reflexivity.
  - unfold ring_entries, ring_view. replace (Z.to_nat (count c)) with 0%nat by lia.
    reflexivity.
Qed.

Lemma prune_loop_entries (fuel : nat) (cutoff : Z) (c : aj_ctx_t) :
  ring_ok c -> count c <= Z.of_nat fuel ->
  ring_entries (prune_loop fuel cutoff c) = drop_older cutoff (ring_entries c).
Proof.
  revert c. induction fuel as [| fuel IH]; intros c Hok Hfuel.
  - simpl. destruct Hok as (_ & _ & Hcnt & _).
    unfold ring_entries, ring_view. replace (Z.to_nat (count c)) with 0%nat by lia.
    reflexivity.
  - cbn [prune_loop]. pose proof (prune_step_entries cutoff c Hok) as Hstep.
    destruct (prune_step cutoff c) as [c' |] eqn:Hs; [| congruence].
    destruct (prune_step_ok cutoff c c' Hok Hs) as [Hok' _].
    pose proof (prune_step_count cutoff c c' Hs) as Hc.
    rewrite Hstep. apply IH; [exact Hok' |].
    destruct Hok as (_ & _ & Hcnt & _). lia.
Qed.

Lemma prune_old_by_time_entries (c : aj_ctx_t) (t : Z) :
  ring_ok c ->
  ring_entries (prune_old_by_time c t)
  = if is_by_time (window_mode (cfg c))
    then drop_older (prune_cutoff c t) (ring_entries c)
    else ring_entries c.
Proof.
  intros Hok. unfold prune_old_by_time. break_if; [| reflexivity].
  apply prune_loop_entries; [exact Hok |].
  destruct Hok as (_ & _ & Hcnt & _). lia.
Qed.

(** X22: what [prune_old_by_time] does to the ring.  In BY_TIME mode it
    removes from the old end exactly the leading entries whose time stamp
    is below the cut-off and stops at the first entry that is not; entries
    behind that one stay whatever their time stamp.  In BY_COUNT mode it
    removes nothing. *)
Theorem prune_drops_older_prefix (c : aj_ctx_t) (t : Z) :
  ring_ok c ->
  ring_entries (prune_old_by_time c t)
  = if is_by_time (window_mode (cfg c))
    then drop_older (prune_cutoff c t) (ring_entries c)
    else ring_entries c.
Proof. apply prune_old_by_time_entries. Qed.

Lemma prune_drops_older_prefix_witness :
  ring_entries
    (prune_old_by_time
       (fst (do_calls (started 4 sample_time_cfg) (firstn 4 sample_session))) 135)
  = if is_by_time
         (window_mode
            (cfg (fst (do_calls (started 4 sample_time_cfg) (firstn 4 sample_session)))))
    then drop_older
           (prune_cutoff
              (fst (do_calls (started 4 sample_time_cfg) (firstn 4 sample_session))) 135)
           (ring_entries
              (fst (do_calls (started 4 sample_time_cfg) (firstn 4 sample_session))))
    else ring_entries
           (fst (do_calls (started 4 sample_time_cfg) (firstn 4 sample_session))).
Proof.
  apply (prune_drops_older_prefix
           (fst (do_calls (started 4 sample_time_cfg) (firstn 4 sample_session))) 135).
  apply (do_calls_fits 4 (firstn 4 sample_session) (started 4 sample_time_cfg)).
  - repeat (apply List.Forall_cons; [exact I |]). apply List.Forall_nil.
  - apply (aj_init_fits 4 sample_time_cfg); [unfold in_u16; simpl; lia | reflexivity].
Defined.

(** An entry that is older than the cut-off survives behind a newer one:
    the loop stops at the first entry it keeps. *)
Example prune_stops_at_first_kept :
  ring_entries
    (prune_old_by_time
       (fst (do_calls (started 4 sample_time_cfg)
               [RegisterPacket 1 50; RegisterPacket 1 20]))
       140)
  = [mk_entry 1 50; mk_entry 1 20].
Proof. vm_compute. reflexivity. Qed.

(** *** The time window *)

Lemma ts_sorted_drop (n : nat) (l : list aj_pkt_entry_t) :
  ts_sorted l -> ts_sorted (drop n l).
Proof.
  revert l. induction n as [| n IH]; intros l Hs; [rewrite drop_0; exact Hs |].
  destruct l as [| e rest]; [exact I |]. cbn [drop]. apply IH. apply Hs.
Qed.

Lemma ts_sorted_snoc (l : list aj_pkt_entry_t) (e : aj_pkt_entry_t) :
  ts_sorted l -> Forall (fun x => ts x <= ts e) l -> ts_sorted (l ++ [e]).
Proof.
  induction l as [| a rest IH]; intros Hs Hle.
  - simpl. split; [constructor | exact I].
  - destruct Hs as [Ha Hrest]. inversion Hle as [| ? ? Hae Hre]; subst.
    cbn [app ts_sorted]. split; [| apply IH; assumption].
    apply Forall_app. split; [exact Ha |]. constructor; [exact Hae | constructor].
Qed.

Lemma drop_older_is_drop (k : Z) (l : list aj_pkt_entry_t) :
  exists n, drop_older k l = drop n l.
Proof.
  induction l as [| e rest [n IH]]; [exists 0%nat; reflexivity |].
  cbn [drop_older]. destruct (k <=? ts e).
  - exists 0%nat. reflexivity.
  - exists (S n). exact IH.
Qed.

Lemma drop_older_ge (k : Z) (l : list aj_pkt_entry_t) :
  ts_sorted l -> Forall (fun e => k <= ts e) (drop_older k l).
Proof.
  induction l as [| e rest IH]; intros Hs; [constructor |].
  destruct Hs as [He Hrest]. cbn [drop_older].
  destruct (Z.leb_spec k (ts e)) as [Hk | Hk]; [| apply IH; exact Hrest].
  constructor; [exact Hk |].
  eapply Forall_impl; [exact He |]. simpl. intros x Hx. lia.
Qed.

Lemma prune_cutoff_le (c : aj_ctx_t) (t : Z) :
  0 <= window_duration_ms (cfg c) -> in_u32 t -> prune_cutoff c t <= t.
Proof.
  intros Hd Ht. pose proof (window_dur_pos c Hd) as Hpos. unfold prune_cutoff.
  destruct (Z.ltb_spec (window_dur c) t) as [Hlt | Hge].
  - rewrite u32_small by (unfold in_u32 in *; lia). lia.
  - unfold in_u32 in Ht. lia.
Qed.

Lemma tick_window_ring (c : aj_ctx_t) (t : Z) :
  is_by_time (window_mode (cfg c)) = true ->
  same_ring (prune_old_by_time c t) (tick_window c t).
Proof.
  intros Hmode. unfold tick_window. rewrite Hmode. break_if.
  - eapply same_ring_trans; [| apply on_window_boundary_ring].
    unfold same_ring. simpl. repeat split.
  - unfold same_ring. repeat split.
Qed.

(** What a call that carries a time leaves in a BY_TIME ring. *)
Lemma timed_call_entries (c : aj_ctx_t) (op : aj_call) (t : Z) :
  ring_ok c -> is_by_time (window_mode (cfg c)) = true -> call_time op = Some t ->
  ring_entries (fst (do_call c op))
  = match op with
    | RegisterPacket g _ =>
        keep_last (Z.to_nat (capacity c))
          (drop_older (prune_cutoff c t) (ring_entries c)
           ++ [mk_entry (if g =? 0 then 0 else 1) t])
    | _ => drop_older (prune_cutoff c t) (ring_entries c)
    end.
Proof.
  intros Hok Hmode Ht.
  destruct op as [g t' | t' | t' | | |]; simpl in Ht; try discriminate; injection Ht as ->;
    cbn [do_call fst].
  - rewrite register_packet_entries by exact Hok.
    rewrite prune_old_by_time_entries
      by (apply (ring_ok_ext c); [apply set_last_now_ring | exact Hok]).
    cbn [cfg set_last_now_ms]. rewrite Hmode.
    rewrite (same_ring_entries _ _ (set_last_now_ring c t)). reflexivity.
  - unfold aj_register_external_jam.
    rewrite (same_ring_entries _ _ (maybe_fire_ring _ t)).
    rewrite (same_ring_entries _ _ (update_report_ring _ t)).
    set (c1 := set_ext_jam_since_ms t (set_ext_jam_recent 1 (set_last_now_ms t c))).
    assert (Hr : same_ring c c1) by (unfold same_ring; simpl; repeat split).
    rewrite prune_old_by_time_entries by (apply (ring_ok_ext c); assumption).
    change (cfg c1) with (cfg c). rewrite Hmode.
    rewrite (same_ring_entries _ _ Hr). reflexivity.
  - unfold aj_tick.
    rewrite (same_ring_entries _ _ (update_report_ring _ t)).
    destruct (tick_age_frame (tick_window (set_last_now_ms t c) t) t) as (_ & _ & _ & Hr).
    rewrite (same_ring_entries _ _ Hr).
    rewrite (same_ring_entries _ _ (tick_window_ring (set_last_now_ms t c) t Hmode)).
    rewrite prune_old_by_time_entries
      by (apply (ring_ok_ext c); [apply set_last_now_ring | exact Hok]).
    cbn [cfg set_last_now_ms]. rewrite Hmode.
    rewrite (same_ring_entries _ _ (set_last_now_ring c t)). reflexivity.
Qed.

Lemma timed_call_window (c : aj_ctx_t) (op : aj_call) (lo t : Z) :
  ring_ok c -> is_by_time (window_mode (cfg c)) = true ->
  0 <= window_duration_ms (cfg c) -> ring_in_order lo c ->
  call_time op = Some t -> lo <= t -> in_u32 t ->
  ring_in_order t (fst (do_call c op)) /\
  Forall (fun e => prune_cutoff c t <= ts e) (ring_entries (fst (do_call c op))).
Proof.
  intros Hok Hmode Hd [Hs Hhi] Ht Hlo Hin. unfold ring_in_order.
  rewrite (timed_call_entries c op t Hok Hmode Ht).
  pose proof (prune_cutoff_le c t Hd Hin) as Hk.
  destruct (drop_older_is_drop (prune_cutoff c t) (ring_entries c)) as [n Hn].
  pose proof (drop_older_ge (prune_cutoff c t) (ring_entries c) Hs) as Hge.
  assert (Hs' : ts_sorted (drop_older (prune_cutoff c t) (ring_entries c)))
    by (rewrite Hn; apply ts_sorted_drop, Hs).
  assert (Hhi' : Forall (fun e => ts e <= t)
                   (drop_older (prune_cutoff c t) (ring_entries c))).
  { rewrite Hn. apply Forall_drop. eapply Forall_impl; [exact Hhi |].
    simpl. intros x Hx. lia. }
  destruct op as [g t' | t' | t' | | |]; simpl in Ht; try discriminate; auto.
  unfold keep_last.
  split; [split |].
  - apply ts_sorted_drop, ts_sorted_snoc; [exact Hs' |].
    eapply Forall_impl; [exact Hhi' |]. simpl. intros x Hx. exact Hx.
  - apply Forall_drop, Forall_app. split; [exact Hhi' |].
    constructor; [simpl; lia | constructor].
  - apply Forall_drop, Forall_app. split; [exact Hge |].
    constructor; [simpl; lia | constructor].
Qed.

Lemma timed_run_window (ops : list aj_call) (c : aj_ctx_t) (op : aj_call) (lo t : Z) :
  ring_ok c -> is_by_time (window_mode (cfg c)) = true ->
  0 <= window_duration_ms (cfg c) -> ring_in_order lo c ->
  timed_run lo (ops ++ [op]) -> call_time op = Some t ->
  ring_in_order t (fst (do_calls c (ops ++ [op]))) /\
  Forall (fun e => prune_cutoff c t <= ts e)
    (ring_entries (fst (do_calls c (ops ++ [op])))).
Proof.
  revert c lo. induction ops as [| o rest IH]; intros c lo Hok Hmode Hd Hord Hrun Ht.
  - cbn [app timed_run] in Hrun. rewrite Ht in Hrun. destruct Hrun as (Hlo & Hin & _).
    pose proof (timed_call_window c op lo t Hok Hmode Hd Hord Ht Hlo Hin) as H.
    cbn [app do_calls]. destruct (do_call c op) as [c1 l1]. exact H.
  - cbn [app timed_run] in Hrun.
    destruct (call_time o) as [t1 |] eqn:Ht1; [| contradiction].
    destruct Hrun as (Hlo & Hin & Hrest).
    destruct (timed_call_window c o lo t1 Hok Hmode Hd Hord Ht1 Hlo Hin) as [Hord1 _].
    assert (Hne : forall k, o <> Configure k)
      by (intros k ->; discriminate).
    destruct (do_call_keeps_cfg c o Hne) as [Hcfg _].
    assert (Hcall : call_fits (length (entries c)) o)
      by (destruct o; try exact I; discriminate).
    destruct (do_call_fits (length (entries c)) c o Hcall (conj Hok eq_refl)) as [Hok1 _].
    cbn [app do_calls]. destruct (do_call c o) as [c1 l1]. cbn [fst] in *.
    assert (Hmode1 : is_by_time (window_mode (cfg c1)) = true) by (rewrite Hcfg; exact Hmode).
    assert (Hd1 : 0 <= window_duration_ms (cfg c1)) by (rewrite Hcfg; exact Hd).
    specialize (IH c1 t1 Hok1 Hmode1 Hd1 Hord1 Hrest Ht).
    assert (Hcut : prune_cutoff c1 t = prune_cutoff c t)
      by (unfold prune_cutoff, window_dur; rewrite Hcfg; reflexivity).
    rewrite Hcut in IH.
    destruct (do_calls c1 (rest ++ [op])) as [c2 l2]. exact IH.
Qed.

(** X23: the BY_TIME window holds recent packets only.  Start from a
    consistent ring whose entries are in time order, and make any sequence
    of [aj_register_packet], [aj_register_external_jam] and [aj_tick] calls
    with non-decreasing [uint32_t] times.  After the last call, at time
    [t], every entry of the ring has a time stamp between the cut-off
    [t - window_duration_ms] (0 while [t] does not exceed the duration) and
    [t], and the entries are still in time order. *)
Theorem time_window_holds_recent (c : aj_ctx_t) (ops : list aj_call) (op : aj_call)
    (lo t : Z) :
  ring_ok c -> is_by_time (window_mode (cfg c)) = true ->
  0 <= window_duration_ms (cfg c) -> ring_in_order lo c ->
  timed_run lo (ops ++ [op]) -> call_time op = Some t ->
  Forall (fun e => prune_cutoff c t <= ts e <= t)
    (ring_entries (fst (do_calls c (ops ++ [op])))) /\
  ts_sorted (ring_entries (fst (do_calls c (ops ++ [op])))).
Proof.
  intros Hok Hmode Hd Hord Hrun Ht.
  destruct (timed_run_window ops c op lo t Hok Hmode Hd Hord Hrun Ht) as [[Hs Hhi] Hge].
  split; [| exact Hs].
  apply Forall_forall. intros e He.
  rewrite Forall_forall in Hhi, Hge. split; [apply Hge | apply Hhi]; exact He.
Qed.

Lemma time_window_holds_recent_witness :
  Forall (fun e => prune_cutoff (started 4 sample_time_cfg) 135 <= ts e <= 135)
    (ring_entries
       (fst (do_calls (started 4 sample_time_cfg)
               (firstn 6 sample_session ++ [RegisterPacket 1 135])))) /\
  ts_sorted
    (ring_entries
       (fst (do_calls (started 4 sample_time_cfg)
               (firstn 6 sample_session ++ [RegisterPacket 1 135])))).
Proof.
  apply (time_window_holds_recent (started 4 sample_time_cfg) (firstn 6 sample_session)
           (RegisterPacket 1 135) 0 135).
  - apply (aj_init_fits 4 sample_time_cfg); [unfold in_u16; simpl; lia | reflexivity].
  - reflexivity.
  - simpl. lia.
  - split; [exact I | constructor].
  - simpl. unfold in_u32. repeat split; lia.
  - reflexivity.
Defined.

(** *** The report and the state *)

Lemma do_call_report_state (c : aj_ctx_t) (op : aj_call) :
  rpt_state (last_report c) = state c ->
  rpt_state (last_report (fst (do_call c op))) = state (fst (do_call c op)).
Proof.
  intros Hagree. destruct op as [g t | t | t | | k | f u].
  - destruct (register_call_shape c (RegisterPacket g t) t eq_refl) as (m & -> & _).
    destruct (maybe_fire_cases (update_report m t) t) as [-> | (f & s & -> & _)];
      reflexivity.
  - destruct (register_call_shape c (RegisterExternalJam t) t eq_refl) as (m & -> & _).
    destruct (maybe_fire_cases (update_report m t) t) as [-> | (f & s & -> & _)];
      reflexivity.
  - reflexivity.
  - reflexivity.
  - cbn [do_call fst]. unfold aj_configure.
    pose proof (apply_cfg_report c k) as Hr.
    assert (Hs : state (aj_internal_apply_cfg c k) = state c)
      by (unfold aj_internal_apply_cfg; break_ifs; reflexivity).
    break_if; cbn [last_report state set_jam_streak set_window_start_ms set_bad_count
                   set_head set_count]; rewrite Hs, Hr; exact Hagree.
  - exact Hagree.
Qed.

Lemma do_calls_report_state (ops : list aj_call) (c : aj_ctx_t) :
  rpt_state (last_report c) = state c ->
  rpt_state (last_report (fst (do_calls c ops))) = state (fst (do_calls c ops)).
Proof.
  revert c. induction ops as [| op rest IH]; intros c Hagree; [exact Hagree |].
  cbn [do_calls]. pose proof (do_call_report_state c op Hagree) as H1.
  destruct (do_call c op) as [c1 l1]. cbn [fst] in H1.
  specialize (IH c1 H1). destruct (do_calls c1 rest) as [c2 l2]. exact IH.
Qed.

(** X24: the report never disagrees with the detector about the state:
    from [aj_init] on, after any sequence of API calls, reconfigurations
    and resets included, the state in the report [aj_get_report] copies out
    is the state of the context, so [aj_is_jammed] returns 1 exactly when
    the report says JAMMED. *)
Theorem report_state_agrees (slots : nat) (k : aj_config_t) (c0 : aj_ctx_t)
    (ops : list aj_call) :
  aj_init slots k = Some c0 ->
  rpt_state (aj_get_report (fst (do_calls c0 ops))) = state (fst (do_calls c0 ops)) /\
  (aj_is_jammed (fst (do_calls c0 ops)) = 1 <->
   rpt_state (aj_get_report (fst (do_calls c0 ops))) = AJ_STATE_JAMMED).
Proof.
  intros Hinit.
  assert (H0 : rpt_state (last_report c0) = state c0).
  { unfold aj_init in Hinit. destruct (Z.of_nat slots <? cfg_capacity k); [discriminate |].
    injection Hinit as <-. reflexivity. }
  pose proof (do_calls_report_state ops c0 H0) as H.
  unfold aj_get_report. split; [exact H |].
  rewrite H. unfold aj_is_jammed.
  destruct (state (fst (do_calls c0 ops))); simpl; split; congruence.
Qed.

Lemma report_state_agrees_witness :
  rpt_state (aj_get_report (fst (do_calls (started 4 sample_time_cfg) sample_session)))
  = state (fst (do_calls (started 4 sample_time_cfg) sample_session)).
Proof.
  destruct (report_state_agrees 4 sample_time_cfg (started 4 sample_time_cfg)
              sample_session eq_refl) as [H _].
  exact H.
Defined.

End AntiJamProofs.

(* --------------------------------------------------------------------- *)
(** ** The integration layer                                              *)
(* --------------------------------------------------------------------- *)

Module GlueProofs.
Import Switch AntiJam Glue.

Lemma hop_cycles_add (a b : nat) :
  hop_cycles (a + b) = hop_cycles a ++ hop_cycles b.
Proof.
  induction a as [| a IH]; [reflexivity |].
  cbn [Nat.add hop_cycles]. rewrite IH, app_assoc. reflexivity.
Qed.

Lemma fhss_calls_app (l1 l2 : list effect) :
  fhss_calls (l1 ++ l2) = fhss_calls l1 ++ fhss_calls l2.
Proof. apply List.filter_app. Qed.

(** *** The two callbacks *)

Lemma hop_cb_cycles (s : option aj_hop_suggestion_t) (g : glue_t) :
  fhss_calls (anti_jam_internal_hop_cb s g) = []
  \/ fhss_calls (anti_jam_internal_hop_cb s g) = hop_cycle.
Proof.
  unfold anti_jam_internal_hop_cb. destruct s as [s |]; [| left; reflexivity].
  destruct (g_anti_jam_enabled g =? 0)%N; destruct (recommend s =? 0);
    (left; reflexivity) || (right; reflexivity).
Qed.

Lemma hop_cb_disabled (s : option aj_hop_suggestion_t) (g : glue_t) :
  g_anti_jam_enabled g = 0%N -> fhss_calls (anti_jam_internal_hop_cb s g) = [].
Proof.
  intros H. unfold anti_jam_internal_hop_cb. destruct s as [s |]; [| reflexivity].
  rewrite H. cbn [N.eqb]. destruct (recommend s =? 0); reflexivity.
Qed.

Lemma deliver_hop_calls_cycles (g : glue_t) (calls : list hop_call) :
  exists n, fhss_calls (deliver_hop_calls g calls) = hop_cycles n.
Proof.
  unfold deliver_hop_calls. induction calls as [| hc rest [n IH]].
  - exists 0%nat. reflexivity.
  - cbn [List.flat_map]. rewrite fhss_calls_app, IH.
    destruct (Pos.eqb (hc_callee hc) anti_jam_internal_hop_cb_id).
    + destruct (hop_cb_cycles (Some (hc_sugg hc)) g) as [-> | ->].
      * exists n. reflexivity.
      * exists (S n). reflexivity.
    + exists n. reflexivity.
Qed.

Lemma deliver_hop_calls_disabled (g : glue_t) (calls : list hop_call) :
  g_anti_jam_enabled g = 0%N -> fhss_calls (deliver_hop_calls g calls) = [].
Proof.
  intros H. unfold deliver_hop_calls. induction calls as [| hc rest IH]; [reflexivity |].
  cbn [List.flat_map]. rewrite fhss_calls_app, IH.
  destruct (Pos.eqb (hc_callee hc) anti_jam_internal_hop_cb_id); [| reflexivity].
  rewrite hop_cb_disabled by exact H. reflexivity.
Qed.

(** What a notification does, for a layer whose two flags agree. *)
Lemma notify_cb_step (e m w u : N) (g : glue_t) :
  g_switch_prev_enabled g = g_anti_jam_enabled g -> (g_anti_jam_enabled g <= 1)%N ->
  g_anti_jam_enabled (fst (aj_switch_notify_cb e m w u g)) = to_flag e /\
  g_switch_prev_enabled (fst (aj_switch_notify_cb e m w u g)) = to_flag e /\
  g_aj_switch_ctx (fst (aj_switch_notify_cb e m w u g)) = g_aj_switch_ctx g /\
  g_aj_ctx (fst (aj_switch_notify_cb e m w u g))
  = (if (g_anti_jam_enabled g =? 0)%N && negb (e =? 0)%N
     then option_map aj_reset (g_aj_ctx g) else g_aj_ctx g) /\
  snd (aj_switch_notify_cb e m w u g)
  = (if (g_anti_jam_enabled g =? to_flag e)%N then []
     else if (e =? 0)%N then [PutsStopped] else [PutsStarted]).
Proof.
  intros Hprev Hle.
  assert (Hflag : g_anti_jam_enabled g = 0%N \/ g_anti_jam_enabled g = 1%N) by lia.
  unfold aj_switch_notify_cb, to_flag.
  cbn [g_anti_jam_enabled g_switch_prev_enabled set_g_anti_jam_enabled].
  rewrite Hprev.
  destruct (e =? 0)%N; destruct Hflag as [-> | ->]; cbn; repeat split.
Qed.

Lemma notify_cb_effects (e m w u : N) (g : glue_t) :
  fhss_calls (snd (aj_switch_notify_cb e m w u g)) = [].
Proof.
  unfold aj_switch_notify_cb.
  cbn [g_anti_jam_enabled g_switch_prev_enabled set_g_anti_jam_enabled].
  destruct (e =? 0)%N; destruct (g_switch_prev_enabled g =? 0)%N; reflexivity.
Qed.

Lemma deliver_notify_calls_effects (ncs : list notify_call) (g : glue_t) :
  fhss_calls (snd (deliver_notify_calls g ncs)) = [].
Proof.
  revert g. induction ncs as [| nc rest IH]; intros g; [reflexivity |].
  cbn [deliver_notify_calls].
  destruct (Pos.eqb (nc_callee nc) aj_switch_notify_cb_id).
  - pose proof (notify_cb_effects (nc_enabled nc) (nc_mode nc) (nc_when_ms nc)
                  (nc_user_ctx nc) g) as H1.
    destruct (aj_switch_notify_cb (nc_enabled nc) (nc_mode nc) (nc_when_ms nc)
                (nc_user_ctx nc) g) as [g1 o1].
    specialize (IH g1). destruct (deliver_notify_calls g1 rest) as [g2 o2].
    cbn [snd] in *. rewrite fhss_calls_app, H1, IH. reflexivity.
  - specialize (IH g). destruct (deliver_notify_calls g rest) as [g2 o2].
    cbn [snd] in *. exact IH.
Qed.

(** *** Hops are made in whole cycles *)

Lemma glue_do_step_cycles (g : glue_t) (s : glue_step) :
  exists n, fhss_calls (snd (glue_do_step g s)) = hop_cycles n.
Proof.
  destruct s as [k | op w]; cbn [glue_do_step].
  - destruct k as [b k | sz | t | gd t | t |]; cbn [glue_do_call snd].
    + exists 0%nat. reflexivity.
    + exists 0%nat. unfold anti_jamming_switch_init. destruct (128 <? sz); reflexivity.
    + exists 0%nat. unfold anti_jamming_service_tick, aj_switch_process_from_rc.
      destruct (g_aj_switch_ctx g); reflexivity.
    + unfold anti_jamming_register_packet. destruct (g_aj_ctx g) as [c |];
        [| exists 0%nat; reflexivity].
      destruct (aj_register_packet c (if gd =? 0 then 0 else 1) t) as [c' calls].
      apply deliver_hop_calls_cycles.
    + unfold anti_jamming_register_external_jam. destruct (g_aj_ctx g) as [c |];
        [| exists 0%nat; reflexivity].
      destruct (aj_register_external_jam c t) as [c' calls].
      apply deliver_hop_calls_cycles.
    + unfold anti_jamming_force_synced_hop.
      destruct (g_anti_jam_enabled g =? 0)%N;
        [exists 0%nat; reflexivity | exists 1%nat; reflexivity].
  - exists 0%nat. unfold switch_event. apply deliver_notify_calls_effects.
Qed.

(** X25: the layer only ever hops in whole cycles.  Whatever state its
    variables are in and whatever sequence of public calls and switch
    changes follows, the calls it makes into the FHSS layer are a number
    of repetitions of [FHSSBeginHopCycle()], [FHSSHopNextSynced(RADIO_1)],
    [FHSSHopNextSynced(RADIO_2)], in this order: no hop without a begin
    before it, and each radio hops once per cycle. *)
Theorem hops_come_in_whole_cycles (g : glue_t) (steps : list glue_step) :
  exists n, fhss_calls (snd (glue_run g steps)) = hop_cycles n.
Proof.
  revert g. induction steps as [| s rest IH]; intros g.
  - exists 0%nat. reflexivity.
  - cbn [glue_run]. destruct (glue_do_step_cycles g s) as [n1 H1].
    destruct (glue_do_step g s) as [g1 o1]. destruct (IH g1) as [n2 H2].
    destruct (glue_run g1 rest) as [g2 o2]. cbn [snd] in *.
    exists (n1 + n2)%nat. rewrite fhss_calls_app, H1, H2, hop_cycles_add. reflexivity.
Qed.

(** The sample steps make two cycles: one for the recommendation of the
    detector, one for the forced hop. *)
Example sample_steps_cycles :
  fhss_calls (snd (glue_run glue_start sample_steps)) = hop_cycles 2.
Proof. vm_compute. reflexivity. Qed.

(** *** The stub *)

Lemma glue_do_call_disabled (g : glue_t) (k : glue_call) :
  g_anti_jam_enabled g = 0%N ->
  g_anti_jam_enabled (fst (glue_do_call g k)) = 0%N /\
  fhss_calls (snd (glue_do_call g k)) = [].
Proof.
  intros H. destruct k as [b k | sz | t | gd t | t |]; cbn [glue_do_call fst snd].
  - split; [| reflexivity]. unfold anti_jamming_init_with_buffer.
    destruct b as [slots |]; [| exact H]. destruct k as [k |]; [| exact H].
    destruct (aj_init slots k); exact H.
  - unfold anti_jamming_switch_init. destruct (128 <? sz); split; auto.
  - unfold anti_jamming_service_tick, aj_switch_process_from_rc.
    destruct (g_aj_switch_ctx g); split; auto.
  - unfold anti_jamming_register_packet. destruct (g_aj_ctx g) as [c |]; [| auto].
    destruct (aj_register_packet c (if gd =? 0 then 0 else 1) t) as [c' calls].
    split; [exact H | apply deliver_hop_calls_disabled, H].
  - unfold anti_jamming_register_external_jam. destruct (g_aj_ctx g) as [c |]; [| auto].
    destruct (aj_register_external_jam c t) as [c' calls].
    split; [exact H | apply deliver_hop_calls_disabled, H].
  - split; [exact H |]. unfold anti_jamming_force_synced_hop. rewrite H. reflexivity.
Qed.

Lemma glue_calls_disabled (ks : list glue_call) (g : glue_t) :
  g_anti_jam_enabled g = 0%N ->
  g_anti_jam_enabled (fst (glue_run g (map Api ks))) = 0%N /\
  fhss_calls (snd (glue_run g (map Api ks))) = [].
Proof.
  revert g. induction ks as [| k rest IH]; intros g H; [auto |].
  cbn [map glue_run glue_do_step].
  destruct (glue_do_call_disabled g k H) as [H1 H2].
  destruct (glue_do_call g k) as [g1 o1]. cbn [fst snd] in *.
  destruct (IH g1 H1) as [H3 H4].
  destruct (glue_run g1 (map Api rest)) as [g2 o2]. cbn [fst snd] in *.
  split; [exact H3 |]. rewrite fhss_calls_app, H2, H4. reflexivity.
Qed.

(** X26: with [aj_switch_process_from_rc] the stub it is, the public
    functions of the layer alone never hop.  From the static initial
    values, after any sequence of calls of [anti_jamming_init_with_buffer],
    [anti_jamming_switch_init], [anti_jamming_service_tick],
    [anti_jamming_register_packet], [anti_jamming_register_external_jam]
    and [anti_jamming_force_synced_hop], the enable flag is still 0 and no
    call into the FHSS layer was made: the switch context is private to
    the layer, and nothing in it changes the switch. *)
Theorem public_calls_never_hop (ks : list glue_call) :
  g_anti_jam_enabled (fst (glue_run glue_start (map Api ks))) = 0%N /\
  fhss_calls (snd (glue_run glue_start (map Api ks))) = [].
Proof. apply glue_calls_disabled. reflexivity. Qed.

(** *** The enable flag and the switch *)

Ltac break_test :=
  match goal with
  | |- context [if ?b then _ else _] => destruct b eqn:?
  end.

(** A public call other than [anti_jamming_switch_init] leaves the flag and
    the switch alone and prints neither a start nor a stop line. *)
Lemma glue_do_call_mirrors (g : glue_t) (k : glue_call) :
  mirrors g -> keeps_switch (Api k) ->
  mirrors (fst (glue_do_call g k)) /\
  g_anti_jam_enabled (fst (glue_do_call g k)) = g_anti_jam_enabled g /\
  List.filter is_started (snd (glue_do_call g k)) = [] /\
  List.filter is_stopped (snd (glue_do_call g k)) = [].
Proof.
  intros (sc & Hsc & Hcb & Hle & He & Hp) Hk.
  destruct k as [b k | sz | t | gd t | t |]; cbn [glue_do_call fst snd].
  - unfold anti_jamming_init_with_buffer.
    destruct b as [slots |]; [destruct k as [k |]; [destruct (aj_init slots k) |] |];
      (split; [exists sc; cbn; auto | auto]).
  - contradiction.
  - unfold anti_jamming_service_tick, aj_switch_process_from_rc. rewrite Hsc.
    cbn. split; [exists sc; cbn; auto | auto].
  - unfold anti_jamming_register_packet. destruct (g_aj_ctx g) as [c |].
    + destruct (aj_register_packet c (if gd =? 0 then 0 else 1) t) as [c' calls].
      cbn [fst snd]. split; [exists sc; cbn; auto |]. split; [reflexivity |].
      unfold deliver_hop_calls. induction calls as [| hc rest [IH1 IH2]]; [auto |].
      cbn [List.flat_map]. rewrite !List.filter_app, IH1, IH2, !app_nil_r.
      unfold anti_jam_internal_hop_cb.
      repeat break_test; auto.
    + split; [exists sc; auto | auto].
  - unfold anti_jamming_register_external_jam. destruct (g_aj_ctx g) as [c |].
    + destruct (aj_register_external_jam c t) as [c' calls].
      cbn [fst snd]. split; [exists sc; cbn; auto |]. split; [reflexivity |].
      unfold deliver_hop_calls. induction calls as [| hc rest [IH1 IH2]]; [auto |].
      cbn [List.flat_map]. rewrite !List.filter_app, IH1, IH2, !app_nil_r.
      unfold anti_jam_internal_hop_cb.
      repeat break_test; auto.
    + split; [exists sc; auto | auto].
  - split; [exists sc; auto |]. split; [reflexivity |].
    unfold anti_jamming_force_synced_hop. break_test; auto.
Qed.

(** A set-operation on a switch context: the context afterwards keeps its
    callback, and either nothing changed and nobody was notified, or the
    callback was notified once, with the new [enabled]. *)
Lemma run_set_op_notifies (op : set_op) (sc : aj_switch_ctx_t) (w : N) :
  (enabled sc <= 1)%N ->
  exists sc',
    ctx_of (run_set_op op (Some sc) w) = Some sc' /\ cb sc' = cb sc /\
    (enabled sc' <= 1)%N /\
    ((sc' = sc /\ calls_of (run_set_op op (Some sc) w) = []) \/
     calls_of (run_set_op op (Some sc) w) = notify_if_changed (Some sc')).
Proof.
  intros Hle.
  assert (Hflag : forall e, (to_flag e <= 1)%N)
    by (intros e; unfold to_flag; destruct (e =? 0)%N; lia).
  destruct op as [e | m | m | e]; cbn [run_set_op];
    unfold aj_switch_set_enabled, aj_switch_set_mode_local,
      aj_switch_set_mode_from_controller, aj_switch_request_enable_from_controller,
      ctx_of, calls_of;
    repeat break_test; cbn [fst snd];
    eexists; (split; [reflexivity |]); cbn; auto.
Qed.

Lemma switch_event_mirrors (g : glue_t) (op : set_op) (w : N) :
  mirrors g ->
  mirrors (fst (switch_event op w g)) /\
  snd (switch_event op w g)
  = (if (g_anti_jam_enabled g =? g_anti_jam_enabled (fst (switch_event op w g)))%N
     then []
     else if (g_anti_jam_enabled (fst (switch_event op w g)) =? 0)%N
          then [PutsStopped] else [PutsStarted]).
Proof.
  intros (sc & Hsc & Hcb & Hle & He & Hp). unfold switch_event. rewrite Hsc.
  destruct (run_set_op_notifies op sc w Hle) as (sc' & -> & Hcb' & Hle' & Hcase).
  destruct Hcase as [[-> ->] | ->].
  - cbn [deliver_notify_calls fst snd g_anti_jam_enabled set_g_aj_switch_ctx].
    rewrite N.eqb_refl. split; [| reflexivity].
    exists sc. cbn. auto.
  - unfold notify_if_changed. rewrite Hcb', Hcb.
    cbn [deliver_notify_calls nc_callee nc_enabled nc_mode nc_when_ms nc_user_ctx].
    change (Pos.eqb aj_switch_notify_cb_id aj_switch_notify_cb_id) with true. cbv iota.
    set (g1 := set_g_aj_switch_ctx (Some sc') g).
    assert (Hg1 : g_switch_prev_enabled g1 = g_anti_jam_enabled g1)
      by (cbn; congruence).
    assert (Hg1' : (g_anti_jam_enabled g1 <= 1)%N) by (cbn; rewrite He; exact Hle).
    destruct (notify_cb_step (enabled sc') (mode sc') (last_change_ms sc') (cb_ctx sc')
                g1 Hg1 Hg1') as (H1 & H2 & H3 & _ & H5).
    destruct (aj_switch_notify_cb (enabled sc') (mode sc') (last_change_ms sc')
                (cb_ctx sc') g1) as [g2 o2].
    cbn [fst snd] in *. rewrite app_nil_r.
    assert (Hto : to_flag (enabled sc') = enabled sc')
      by (unfold to_flag; destruct (N.eqb_spec (enabled sc') 0); lia).
    rewrite Hto in *.
    split.
    + exists sc'. rewrite H3. cbn. rewrite Hcb', Hcb. auto.
    + rewrite H5, H1. cbn [g1 g_anti_jam_enabled set_g_aj_switch_ctx]. reflexivity.
Qed.

Lemma edge_balance (a b : N) :
  (a <= 1)%N -> (b <= 1)%N ->
  Z.of_nat (length (List.filter is_started
                      (if (a =? b)%N then []
                       else if (b =? 0)%N then [PutsStopped] else [PutsStarted])))
  + Z.of_N a
  = Z.of_nat (length (List.filter is_stopped
                        (if (a =? b)%N then []
                         else if (b =? 0)%N then [PutsStopped] else [PutsStarted])))
    + Z.of_N b.
Proof.
  intros Ha Hb.
  assert (Ha' : a = 0%N \/ a = 1%N) by lia. assert (Hb' : b = 0%N \/ b = 1%N) by lia.
  destruct Ha' as [-> | ->]; destruct Hb' as [-> | ->]; reflexivity.
Qed.

Lemma mirrors_flag (g : glue_t) : mirrors g -> (g_anti_jam_enabled g <= 1)%N.
Proof. intros (sc & _ & _ & Hle & -> & _). exact Hle. Qed.

Lemma glue_run_mirrors (steps : list glue_step) (g : glue_t) :
  mirrors g -> Forall keeps_switch steps ->
  mirrors (fst (glue_run g steps)) /\
  Z.of_nat (length (List.filter is_started (snd (glue_run g steps))))
  + Z.of_N (g_anti_jam_enabled g)
  = Z.of_nat (length (List.filter is_stopped (snd (glue_run g steps))))
    + Z.of_N (g_anti_jam_enabled (fst (glue_run g steps))).
Proof.
  revert g. induction steps as [| s rest IH]; intros g Hm Hsteps.
  - cbn. split; [exact Hm | reflexivity].
  - inversion Hsteps as [| ? ? Hs Hrest]; subst. cbn [glue_run].
    assert (H1 : mirrors (fst (glue_do_step g s)) /\
                 Z.of_nat (length (List.filter is_started (snd (glue_do_step g s))))
                 + Z.of_N (g_anti_jam_enabled g)
                 = Z.of_nat (length (List.filter is_stopped (snd (glue_do_step g s))))
                   + Z.of_N (g_anti_jam_enabled (fst (glue_do_step g s)))).
    { destruct s as [k | op w]; cbn [glue_do_step].
      - destruct (glue_do_call_mirrors g k Hm Hs) as (Hm1 & -> & -> & ->).
        split; [exact Hm1 | reflexivity].
      - destruct (switch_event_mirrors g op w Hm) as [Hm1 ->].
        split; [exact Hm1 |].
        apply edge_balance; apply mirrors_flag; assumption. }
    destruct (glue_do_step g s) as [g1 o1]. cbn [fst snd] in H1.
    destruct H1 as [Hm1 Hb1]. destruct (IH g1 Hm1 Hrest) as [Hm2 Hb2].
    destruct (glue_run g1 rest) as [g2 o2]. cbn [fst snd] in *.
    split; [exact Hm2 |]. rewrite !List.filter_app, !List.length_app. lia.
Qed.

(** X27: the enable flag of the layer follows its switch.  Once
    [anti_jamming_switch_init] has run (so that the flag, its shadow
    [g_switch_prev_enabled] and the switch agree, and the layer's callback
    is registered), after any sequence of public calls and of
    set-operations on the switch, [anti_jamming_switch_init] itself
    excepted, the flag equals what [aj_switch_is_enabled] returns, and so
    does the shadow; and the STARTED lines printed exceed the STOPPED lines
    by the change of the flag, so that the two alternate. *)
Theorem enable_flag_follows_switch (g : glue_t) (steps : list glue_step) :
  mirrors g -> Forall keeps_switch steps ->
  g_anti_jam_enabled (fst (glue_run g steps))
  = aj_switch_is_enabled (g_aj_switch_ctx (fst (glue_run g steps))) /\
  g_switch_prev_enabled (fst (glue_run g steps))
  = g_anti_jam_enabled (fst (glue_run g steps)) /\
  Z.of_nat (length (List.filter is_started (snd (glue_run g steps))))
  + Z.of_N (g_anti_jam_enabled g)
  = Z.of_nat (length (List.filter is_stopped (snd (glue_run g steps))))
    + Z.of_N (g_anti_jam_enabled (fst (glue_run g steps))).
Proof.
  intros Hm Hsteps.
  destruct (glue_run_mirrors steps g Hm Hsteps) as [(sc & Hsc & _ & _ & He & Hp) Hb].
  rewrite Hsc. cbn [aj_switch_is_enabled]. split; [exact He |].
  split; [congruence | exact Hb].
Qed.

Lemma enable_flag_follows_switch_witness :
  g_anti_jam_enabled
    (fst (glue_run (fst (anti_jamming_switch_init 24 glue_start)) (tl sample_steps)))
  = aj_switch_is_enabled
      (g_aj_switch_ctx
         (fst (glue_run (fst (anti_jamming_switch_init 24 glue_start))
                 (tl sample_steps)))).
Proof.
  destruct (enable_flag_follows_switch (fst (anti_jamming_switch_init 24 glue_start))
              (tl sample_steps)) as (H & _).
  - exists (set_cb (Some aj_switch_notify_cb_id) 0 aj_switch_init).
    repeat split; try reflexivity. cbn. lia.
  - unfold sample_steps. cbn [tl].
    repeat (apply List.Forall_cons; [exact I |]). apply List.Forall_nil.
  - exact H.
Defined.

(** A second [anti_jamming_switch_init] while the layer is enabled breaks
    the agreement: the switch starts afresh, disabled, and the flag of the
    layer stays 1. *)
Example second_switch_init_desynchronises :
  g_anti_jam_enabled
    (fst (glue_run glue_start
            [Api (SwitchInit 24); RcEvent (SetEnabled 1) 100; Api (SwitchInit 24)]))
  = 1%N /\
  aj_switch_is_enabled
    (g_aj_switch_ctx
       (fst (glue_run glue_start
               [Api (SwitchInit 24); RcEvent (SetEnabled 1) 100; Api (SwitchInit 24)])))
  = 0%N.
Proof. split; vm_compute; reflexivity. Qed.

(** *** From a recommendation to a hop *)

Lemma deliver_register_call (g : glue_t) (c : aj_ctx_t) (op : aj_call) (t : Z) :
  register_time op = Some t ->
  hop_cb c = Some anti_jam_internal_hop_cb_id ->
  hop_cb (fst (do_call c op)) = Some anti_jam_internal_hop_cb_id /\
  deliver_hop_calls g (snd (do_call c op))
  = match snd (do_call c op) with
    | [] => []
    | _ :: _ =>
        if (g_anti_jam_enabled g =? 0)%N then [PutsHopWhileDisabled]
        else
          hop_cycle
          ++ [PrintfHopFired
                (confidence (aj_evaluate_hop (fst (do_call c op))))
                (hop_aggressiveness_hint (aj_evaluate_hop (fst (do_call c op))))
                (suggest_group_switch (aj_evaluate_hop (fst (do_call c op))))]
    end.
Proof.
  intros Ht Hcb.
  assert (Hkeep : hop_cb (fst (do_call c op)) = hop_cb c).
  { destruct (AntiJamProofs.register_call_shape c op t Ht)
      as (m & -> & _ & _ & Hm & _).
    destruct (AntiJamProofs.maybe_fire_cases (update_report m t) t)
      as [-> | (f & s & -> & _)]; cbn; exact Hm. }
  split; [congruence |].
  destruct (AntiJamProofs.register_call_suggestion c op t Ht)
    as [-> | (f & Hf & -> & Hrec & _)]; [reflexivity |].
  assert (f = anti_jam_internal_hop_cb_id) by congruence. subst f.
  unfold deliver_hop_calls. cbn [List.flat_map hc_callee hc_sugg].
  change (Pos.eqb anti_jam_internal_hop_cb_id anti_jam_internal_hop_cb_id) with true.
  cbv iota. rewrite app_nil_r. unfold anti_jam_internal_hop_cb. rewrite Hrec.
  change (1 =? 0) with false. cbv iota.
  destruct (g_anti_jam_enabled g =? 0)%N; reflexivity.
Qed.

(** X28: from a recommendation of the detector to a hop.  For a layer
    whose detector has the internal hop callback registered (as
    [anti_jamming_init_with_buffer] leaves it), [anti_jamming_register_packet]
    and [anti_jamming_register_external_jam] do nothing visible when the
    detector does not invoke the callback; when it does, they print the
    "disabled" line if the enable flag is 0, and otherwise make exactly one
    hop cycle and print the confidence, hint and group-switch suggestion
    that [aj_evaluate_hop] computes on the detector afterwards.  The
    callback's own test of [recommend] never turns a recommendation of the
    detector away.  The callback stays registered. *)
Theorem recommendation_becomes_hop_cycle (g : glue_t) (c : aj_ctx_t) (good_arg t : Z) :
  g_aj_ctx g = Some c -> hop_cb c = Some anti_jam_internal_hop_cb_id ->
  (g_aj_ctx (fst (anti_jamming_register_packet good_arg t g))
   = Some (fst (aj_register_packet c (if good_arg =? 0 then 0 else 1) t)) /\
   hop_cb (fst (aj_register_packet c (if good_arg =? 0 then 0 else 1) t))
   = Some anti_jam_internal_hop_cb_id /\
   snd (anti_jamming_register_packet good_arg t g)
   = match snd (aj_register_packet c (if good_arg =? 0 then 0 else 1) t) with
     | [] => []
     | _ :: _ =>
         if (g_anti_jam_enabled g =? 0)%N then [PutsHopWhileDisabled]
         else
           hop_cycle
           ++ [PrintfHopFired
                 (confidence
                    (aj_evaluate_hop
                       (fst (aj_register_packet c (if good_arg =? 0 then 0 else 1) t))))
                 (hop_aggressiveness_hint
                    (aj_evaluate_hop
                       (fst (aj_register_packet c (if good_arg =? 0 then 0 else 1) t))))
                 (suggest_group_switch
                    (aj_evaluate_hop
                       (fst (aj_register_packet c (if good_arg =? 0 then 0 else 1) t))))]
     end) /\
  (g_aj_ctx (fst (anti_jamming_register_external_jam t g))
   = Some (fst (aj_register_external_jam c t)) /\
   hop_cb (fst (aj_register_external_jam c t)) = Some anti_jam_internal_hop_cb_id /\
   snd (anti_jamming_register_external_jam t g)
   = match snd (aj_register_external_jam c t) with
     | [] => []
     | _ :: _ =>
         if (g_anti_jam_enabled g =? 0)%N then [PutsHopWhileDisabled]
         else
           hop_cycle
           ++ [PrintfHopFired
                 (confidence (aj_evaluate_hop (fst (aj_register_external_jam c t))))
                 (hop_aggressiveness_hint
                    (aj_evaluate_hop (fst (aj_register_external_jam c t))))
                 (suggest_group_switch
                    (aj_evaluate_hop (fst (aj_register_external_jam c t))))]
     end).
Proof.
  intros Hc Hcb. split.
  - destruct (deliver_register_call g c
                (RegisterPacket (if good_arg =? 0 then 0 else 1) t) t eq_refl Hcb)
      as [H1 H2].
    rewrite AntiJamProofs.do_call_packet in H1, H2.
    unfold anti_jamming_register_packet. rewrite Hc.
    destruct (aj_register_packet c (if good_arg =? 0 then 0 else 1) t) as [c' calls].
    cbn [fst snd] in *. auto.
  - destruct (deliver_register_call g c (RegisterExternalJam t) t eq_refl Hcb)
      as [H1 H2].
    rewrite AntiJamProofs.do_call_external_jam in H1, H2.
    unfold anti_jamming_register_external_jam. rewrite Hc.
    destruct (aj_register_external_jam c t) as [c' calls].
    cbn [fst snd] in *. auto.
Qed.

Lemma recommendation_becomes_hop_cycle_witness :
  snd (anti_jamming_register_packet 0 160 sample_glue)
  = hop_cycle ++ [PrintfHopFired 51 255 0].
Proof.
  assert (Hc : g_aj_ctx sample_glue = Some sample_glue_ctx) by (vm_compute; reflexivity).
  assert (Hcb : hop_cb sample_glue_ctx = Some anti_jam_internal_hop_cb_id)
    by (vm_compute; reflexivity).
  destruct (recommendation_becomes_hop_cycle sample_glue sample_glue_ctx 0 160 Hc Hcb)
    as [(_ & _ & H) _].
  rewrite H. vm_compute. reflexivity.
Defined.

End GlueProofs.
